(** * Zero: the per-mailbox agent (apps/server/src/routes/chat.ts) and the
      mail-list hotkeys (apps/mail/lib/hotkeys/mail-list-hotkeys.tsx)

    A shallow embedding of the parts of [ZeroAgent] that guard, page and
    cache the mailbox synchronisation, stream chat responses and keep the
    table of pending chat requests, and of the [archiveEmail] hotkey handler.

    Conventions.
    - A JavaScript string is a [string] (a sequence of bytes); SQLite compares
      TEXT with the BINARY collation, which is [String.compare].
    - [undefined] / [null] are [None].
    - An [async] method is a program of type [Prog A]: a tree of atomic
      state reads and writes whose [Await] nodes are the suspension points
      of the source ([await], [for await]).  [run] executes one call with no
      other task scheduled at its suspension points; [segment] executes one
      synchronous stretch, up to the next suspension point. *)

From Stdlib Require Import ZArith Bool Ascii String List Lia.
From Stdlib Require Import Sorting.Sorted OrdersEx.
From stdpp Require Import base option gmap strings list.

Import ListNotations.
Local Open Scope string_scope.
Local Open Scope Z_scope.

(** ** JavaScript strings *)

Module Js.

(** [if (s)] on a value of type [string | undefined]. *)
Definition truthy (o : option string) : bool :=
  match o with
  | Some s => negb (String.eqb s "")
  | None => false
  end.

(** [s.includes(needle)]. *)
Fixpoint includes (s needle : string) : bool :=
  if String.prefix needle s then true
  else match s with
       | EmptyString => false
       | String _ rest => includes rest needle
       end.

(** [s.replace(/'/g, "''")]: every apostrophe is doubled. *)
Fixpoint escapeQuotes (s : string) : string :=
  match s with
  | EmptyString => EmptyString
  | String c rest =>
      if Ascii.eqb c "'"%char
      then String "'"%char (String "'"%char (escapeQuotes rest))
      else String c (escapeQuotes rest)
  end.

(** [xs.join(sep)]. *)
Definition join (sep : string) (xs : list string) : string :=
  String.concat sep xs.

(** [pageToken || dflt]. *)
Definition orElse (o : option string) (dflt : string) : string :=
  if truthy o then default dflt o else dflt.

End Js.

(** ** The [threads] table and the queries run against it *)

Module Cache.

(** A row of the [threads] table created by the constructor of [ZeroAgent].
    [latest_label_ids] holds the JSON text of an array of label ids; it is
    kept here as the list it encodes, [json_each] enumerating its elements. *)
Record ThreadRow := mkRow {
  row_id : string;
  thread_id : string;
  provider_id : string;
  latest_sender : option string;
  latest_received_on : option string;
  latest_subject : option string;
  latest_label_ids : list string
}.

(** [EXISTS (SELECT 1 FROM json_each(latest_label_ids) WHERE value = v)]. *)
Definition has_label (v : string) (r : ThreadRow) : bool :=
  existsb (String.eqb v) (latest_label_ids r).

(** [latest_received_on < c]: a NULL column makes the comparison NULL, and
    the row is not selected. *)
Definition received_before (c : string) (r : ThreadRow) : bool :=
  match latest_received_on r with
  | Some d => String.ltb d c
  | None => false
  end.

(** The order of [ORDER BY latest_received_on]: NULL sorts below every text. *)
Definition recv_leb (a b : option string) : bool :=
  match a, b with
  | None, _ => true
  | Some _, None => false
  | Some x, Some y => String.leb x y
  end.

(** [ORDER BY latest_received_on DESC], as a stable insertion sort. *)
Fixpoint insert_desc (r : ThreadRow) (l : list ThreadRow) : list ThreadRow :=
  match l with
  | [] => [r]
  | h :: t =>
      if recv_leb (latest_received_on h) (latest_received_on r)
      then r :: h :: t
      else h :: insert_desc r t
  end.

Definition order_by_received_desc (l : list ThreadRow) : list ThreadRow :=
  fold_right insert_desc [] l.

(** The values SQLite takes as a [LIMIT]: the 64-bit integers. *)
Definition int64 (n : Z) : bool := (- 2 ^ 63 <=? n) && (n <? 2 ^ 63).

(** [LIMIT n] for such a value: a negative bound is no bound. *)
Definition limited (n : Z) (l : list ThreadRow) : list ThreadRow :=
  if n <? 0 then l else firstn (Z.to_nat n) l.

(** [LIMIT n]: a bound that is not a 64-bit integer is refused ("datatype
    mismatch"), whatever the rows; this is [None]. *)
Definition sql_limit (n : Z) (l : list ThreadRow) : option (list ThreadRow) :=
  if int64 n then Some (limited n l) else None.

(** The rows of [SELECT id, latest_received_on FROM threads WHERE w
    ORDER BY latest_received_on DESC LIMIT n] when the bound is taken. *)
Definition selected_rows (w : ThreadRow -> bool) (n : Z)
    (table : list ThreadRow) : list (string * option string) :=
  map (fun r => (row_id r, latest_received_on r))
      (limited n (order_by_received_desc (filter w table))).

(** [SELECT id, latest_received_on FROM threads WHERE w
     ORDER BY latest_received_on DESC LIMIT n]. *)
Definition select_threads (w : ThreadRow -> bool) (n : Z)
    (table : list ThreadRow) : option (list (string * option string)) :=
  map (fun r => (row_id r, latest_received_on r))
    <$> sql_limit n (order_by_received_desc (filter w table)).

(** Parameters of [getThreadsFromDB]. *)
Record ListParams := mkParams {
  labelIds : option (list string);
  folder : option string;
  q : option string;
  maxResults : option Z;
  pageToken : option string
}.

(** The texts pushed on [whereConditions] (layout whitespace dropped). *)
Definition labelCondition (v : string) : string :=
  "EXISTS (SELECT 1 FROM json_each(latest_label_ids) WHERE value = '" ++ v ++ "')".

Definition multiLabelCondition (ls : list string) : string :=
  "(" ++ Js.join " OR " (map labelCondition ls) ++ ")".

Definition searchCondition (searchTerm : string) : string :=
  "(latest_subject LIKE '%" ++ searchTerm ++ "%' OR latest_sender LIKE '%"
    ++ searchTerm ++ "%')".

Definition cursorCondition (c : string) : string :=
  "latest_received_on < '" ++ c ++ "'".

Section Query.

(** [String.prototype.toUpperCase], supplied by the JavaScript runtime. *)
Variable toUpperCase : string -> string.

Definition whereConditions (p : ListParams) : list string :=
  let ls := default [] (labelIds p) in
  (if Js.truthy (folder p)
   then [labelCondition (toUpperCase (default "" (folder p)))] else [])
  ++ (match ls with
      | [] => []
      | [l] => [labelCondition l]
      | _ => [multiLabelCondition ls]
      end)
  ++ (if Js.truthy (q p)
      then [searchCondition (Js.escapeQuotes (default "" (q p)))] else [])
  ++ (if Js.truthy (pageToken p)
      then [cursorCondition (default "" (pageToken p))] else []).

(** What the [sql] tag is handed.  When a bound value is [undefined]
    ([labelIds[0]] of an empty array, an absent [pageToken]) the outcome is
    fixed by the host's [sql] tag and not by this file: [UndefinedBinding].
    When the statement is refused because of its [LIMIT], the tag throws:
    [DatatypeMismatch]. *)
Inductive SqlOutcome :=
| Rows (rows : list (string * option string))
| UndefinedBinding
| DatatypeMismatch.

Definition answer (selected : option (list (string * option string))) : SqlOutcome :=
  match selected with
  | Some rows => Rows rows
  | None => DatatypeMismatch
  end.

(** The [result] of [getThreadsFromDB]: which statement runs is chosen from
    the number of conditions and from the parameters, and the statement is
    written out again rather than assembled from [whereConditions]. *)
Definition queryThreads (p : ListParams) (table : list ThreadRow) : SqlOutcome :=
  let ls := default [] (labelIds p) in
  let limit := default 50 (maxResults p) in
  match whereConditions p with
  | [] => answer (select_threads (fun _ => true) limit table)
  | [condition] =>
      if Js.includes condition "latest_received_on <" then
        match pageToken p with
        | Some cursorValue => answer (select_threads (received_before cursorValue) limit table)
        | None => UndefinedBinding
        end
      else if Js.truthy (folder p) then
        answer (select_threads (has_label (toUpperCase (default "" (folder p)))) limit table)
      else
        match ls with
        | labelId :: _ => answer (select_threads (has_label labelId) limit table)
        | [] => UndefinedBinding
        end
  | _ =>
      if Js.truthy (folder p) && (length ls =? 0)%nat && Js.truthy (pageToken p) then
        let folderLabel := toUpperCase (default "" (folder p)) in
        let c := default "" (pageToken p) in
        answer (select_threads (fun r => has_label folderLabel r && received_before c r) limit table)
      else if (length ls =? 1)%nat && Js.truthy (pageToken p) && negb (Js.truthy (folder p)) then
        let labelId := default "" (head ls) in
        let c := default "" (pageToken p) in
        answer (select_threads (fun r => has_label labelId r && received_before c r) limit table)
      else
        let cursorValue := Js.orElse (pageToken p) "" in
        answer (select_threads (received_before cursorValue) limit table)
  end.

(** The value returned by [getThreadsFromDB]. *)
Record ThreadList := mkThreadList {
  threads : list string;
  nextPageToken : option string
}.

Definition threadList (limit : Z) (result : list (string * option string)) : ThreadList :=
  let ids := map fst result in
  {| threads := ids;
     nextPageToken :=
       if (Z.of_nat (length ids) =? limit) && (0 <? Z.of_nat (length result))
       then match last result with
            | Some row => snd row
            | None => None
            end
       else None |}.

(** The listing [getThreadsFromDB] returns, when a statement has run. *)
Definition getThreadsFromDB (p : ListParams) (table : list ThreadRow)
    : option ThreadList :=
  match queryThreads p table with
  | Rows result => Some (threadList (default 50 (maxResults p)) result)
  | UndefinedBinding | DatatypeMismatch => None
  end.

End Query.

(** Rows in descending order of [latest_received_on]: every row is at least
    as recent as each row after it. *)
Definition descending (rows : list (string * option string)) : Prop :=
  StronglySorted (fun a b => recv_leb (snd b) (snd a) = true) rows.

(** A row whose [latest_received_on] is a text strictly below the cursor. *)
Definition before (c : string) (row : string * option string) : Prop :=
  exists d, snd row = Some d /\ String.ltb d c = true.

(** The match the spec asks of a free-text query: the text occurs in the
    latest subject or in the latest sender. *)
Definition matches_text (qs : string) (r : ThreadRow) : bool :=
  Js.includes (default "" (latest_subject r)) qs
  || Js.includes (default "" (latest_sender r)) qs.

End Cache.

(** ** The agent: state, host interface and the monad of [async] methods *)

Module Agent.
Import Cache.

(** The errors thrown by this file, and those raised by calls that leave it. *)
Inductive Error :=
| NoDriver          (* new Error('No driver available') *)
| ThreadNotFound    (* new Error('Thread not found in database, Sync Failed once') *)
| Unauthorized      (* new Error('Unauthorized no driver or connectionId [2]') *)
| HostError (msg : string).

(** [ParsedMessage], as far as this file reads it ([sender] is kept as its
    JSON text, [tags] as the list of tag ids). *)
Record ParsedMessage := mkMessage {
  receivedOn : string;
  sender : string;
  subject : string;
  tags : list string;
  isDraft : bool
}.

Record IGetThreadResponse := mkThread {
  messages : list ParsedMessage;
  latest : option ParsedMessage;
  hasUnread : bool;
  totalReplies : nat;
  labels : list string
}.

(** The page returned by [MailManager.list]. *)
Record UpstreamPage := mkPage {
  page_threads : list string;
  page_nextPageToken : option string
}.

(** The body of a [Response]: the chunks it yields, then either the end of
    the stream or an error. *)
Record Body := mkBody {
  chunks : list string;
  failure : option string
}.

Definition ChatMessage := string.

(** What [streamText] does once it has been started: when the generation
    finishes, the response messages [onFinish] is called with ([None]: it
    is not called); and the body that is merged into the data stream, which
    may depend on the error [onFinish] has thrown, if any. *)
Record Generation := mkGeneration {
  stream : option Error -> Body;
  finished : option (list ChatMessage)
}.

(** The ids carried by the incoming messages are not checked to be strings
    ("we're coercing message types at the moment"). *)
Inductive JsId :=
| IdString (s : string)
| IdOther.

Inductive OutgoingMessage :=
| ChatMessages (msgs : list ChatMessage)
| UseChatResponse (id : JsId) (body : string) (done : bool)
| ChatClear
| Mail_List (folder : string)
| Mail_Get (threadId : string).

(** What is outside this file: the JavaScript runtime, the mail driver behind
    the retry wrapper of [../lib/gmail-rate-limit], the bucket, the
    connection database, the base class [AIChatAgent], the [ai] library and
    the environment variables read when the module is loaded.
    [chat_stream] is what follows the authorisation check in the [execute]
    function of [getDataStreamResponse] (the tools, the prompt and
    [streamText]): an error it throws, or the generation; [unmerged_body] is
    the body [createDataStreamResponse] makes when [execute] returns without
    having merged a stream ([None]) or throws. *)
Class Host := {
  World : Type;
  maxCount : Z;                 (* parseInt(env.THREAD_SYNC_MAX_COUNT || '40', 10) *)
  shouldLoop : bool;            (* env.THREAD_SYNC_LOOP !== 'false' *)
  toUpperCase : string -> string;
  toISOString : string -> option string;   (* new Date(x).toISOString(), None: RangeError *)
  decode : string -> string;               (* decoder.decode(chunk) *)
  onError : Error -> Error;                (* this.onError(e) *)
  driver_list : string -> Z -> option string -> World -> (string + UpstreamPage) * World;
  driver_get : string -> World -> (string + IGetThreadResponse) * World;
  bucket_put : string -> IGetThreadResponse -> World -> option string * World;
  bucket_get : string -> World -> (string + option IGetThreadResponse) * World;
  find_connection : string -> World -> (string + bool) * World;
  persist : list ChatMessage -> list string -> World -> option string * World;
  clear_messages : World -> World;
  chat_stream : World -> (string + Generation) * World;
  unmerged_body : option Error -> Body;
  appendResponseMessages : list ChatMessage -> list ChatMessage -> list ChatMessage
}.

Record AbortController := mkController { aborted : bool }.

(** A record of calls, kept for the statements; no program reads it. *)
Inductive Call :=
| CList (folder : string) (token : option string) (answer : string + option string)
| CSync (threadId : string)
| CRead (threadId : string).

Section WithHost.
Context `{Host}.

Record Agent := mkAgent {
  name : string;
  driver : bool;
  chatMessageAbortControllers : gmap string AbortController;
  foldersInSync : gmap string bool;
  syncThreadsInProgress : gmap string bool;
  currentFolder : option string;
  table : list ThreadRow;
  outbox : list (OutgoingMessage * list string);
  background : list string;
  calls : list Call;
  world : World
}.

Definition with_driver (v : bool) (s : Agent) : Agent :=
  mkAgent (name s) v (chatMessageAbortControllers s) (foldersInSync s)
    (syncThreadsInProgress s) (currentFolder s) (table s) (outbox s)
    (background s) (calls s) (world s).

Definition with_controllers (v : gmap string AbortController) (s : Agent) : Agent :=
  mkAgent (name s) (driver s) v (foldersInSync s)
    (syncThreadsInProgress s) (currentFolder s) (table s) (outbox s)
    (background s) (calls s) (world s).

Definition with_foldersInSync (v : gmap string bool) (s : Agent) : Agent :=
  mkAgent (name s) (driver s) (chatMessageAbortControllers s) v
    (syncThreadsInProgress s) (currentFolder s) (table s) (outbox s)
    (background s) (calls s) (world s).

Definition with_syncThreadsInProgress (v : gmap string bool) (s : Agent) : Agent :=
  mkAgent (name s) (driver s) (chatMessageAbortControllers s) (foldersInSync s)
    v (currentFolder s) (table s) (outbox s)
    (background s) (calls s) (world s).

Definition with_table (v : list ThreadRow) (s : Agent) : Agent :=
  mkAgent (name s) (driver s) (chatMessageAbortControllers s) (foldersInSync s)
    (syncThreadsInProgress s) (currentFolder s) v (outbox s)
    (background s) (calls s) (world s).

Definition with_outbox (v : list (OutgoingMessage * list string)) (s : Agent) : Agent :=
  mkAgent (name s) (driver s) (chatMessageAbortControllers s) (foldersInSync s)
    (syncThreadsInProgress s) (currentFolder s) (table s) v
    (background s) (calls s) (world s).

Definition with_background (v : list string) (s : Agent) : Agent :=
  mkAgent (name s) (driver s) (chatMessageAbortControllers s) (foldersInSync s)
    (syncThreadsInProgress s) (currentFolder s) (table s) (outbox s)
    v (calls s) (world s).

Definition with_calls (v : list Call) (s : Agent) : Agent :=
  mkAgent (name s) (driver s) (chatMessageAbortControllers s) (foldersInSync s)
    (syncThreadsInProgress s) (currentFolder s) (table s) (outbox s)
    (background s) v (world s).

Definition with_world (v : World) (s : Agent) : Agent :=
  mkAgent (name s) (driver s) (chatMessageAbortControllers s) (foldersInSync s)
    (syncThreadsInProgress s) (currentFolder s) (table s) (outbox s)
    (background s) (calls s) v.

(** *** Programs *)

(** [Await] is a suspension point; [WaitUntil f] is
    [this.ctx.waitUntil(this.syncThreads(f))], a call that is started and not
    awaited; [Stuck] is a loop that has not finished within the bound given
    to it, and no handler runs on it. *)
Inductive Prog (A : Type) : Type :=
| Ret (a : A)
| Throw (e : Error)
| Stuck
| Get (k : Agent -> Prog A)
| Put (s : Agent) (k : Prog A)
| Await (k : Prog A)
| WaitUntil (folder : string) (k : Prog A).

Arguments Ret {A} a.
Arguments Throw {A} e.
Arguments Stuck {A}.
Arguments Get {A} k.
Arguments Put {A} s k.
Arguments Await {A} k.
Arguments WaitUntil {A} folder k.

Fixpoint bind {A B : Type} (m : Prog A) (f : A -> Prog B) : Prog B :=
  match m with
  | Ret a => f a
  | Throw e => Throw e
  | Stuck => Stuck
  | Get k => Get (fun s => bind (k s) f)
  | Put s k => Put s (bind k f)
  | Await k => Await (bind k f)
  | WaitUntil fo k => WaitUntil fo (bind k f)
  end.

(** [try { m } catch (e) { h e }]. *)
Fixpoint tryCatch {A : Type} (m : Prog A) (h : Error -> Prog A) : Prog A :=
  match m with
  | Ret a => Ret a
  | Throw e => h e
  | Stuck => Stuck
  | Get k => Get (fun s => tryCatch (k s) h)
  | Put s k => Put s (tryCatch k h)
  | Await k => Await (tryCatch k h)
  | WaitUntil fo k => WaitUntil fo (tryCatch k h)
  end.

(** [try { m } finally { fin }]. *)
Fixpoint tryFinally {A : Type} (m : Prog A) (fin : Prog unit) : Prog A :=
  match m with
  | Ret a => bind fin (fun _ => Ret a)
  | Throw e => bind fin (fun _ => Throw e)
  | Stuck => Stuck
  | Get k => Get (fun s => tryFinally (k s) fin)
  | Put s k => Put s (tryFinally k fin)
  | Await k => Await (tryFinally k fin)
  | WaitUntil fo k => WaitUntil fo (tryFinally k fin)
  end.

Definition gets {A : Type} (f : Agent -> A) : Prog A := Get (fun s => Ret (f s)).
Definition modify (f : Agent -> Agent) : Prog unit := Get (fun s => Put (f s) (Ret tt)).
Definition await_ {A : Type} (m : Prog A) : Prog A := bind m (fun a => Await (Ret a)).

(** A call that leaves the file: the host answers, with a value or with the
    message of an error, and the caller is suspended until the promise
    settles. *)
Definition ask {A : Type} (f : World -> A * World) : Prog A :=
  Get (fun s =>
    let r := f (world s) in
    Put (with_world (snd r) s) (Await (Ret (fst r)))).

Definition settle {A : Type} (answer : string + A) : Prog A :=
  match answer with
  | inl e => Throw (HostError e)
  | inr a => Ret a
  end.

Definition host {A : Type} (f : World -> (string + A) * World) : Prog A :=
  bind (ask f) settle.

Definition host_ (f : World -> option string * World) : Prog unit :=
  host (fun w => let r := f w in
                 (match fst r with Some e => inl e | None => inr tt end, snd r)).

Definition record (c : Call) : Prog unit :=
  modify (fun s => with_calls (calls s ++ [c]) s).

(** [await new Promise((resolve) => setTimeout(resolve, 2000))]. *)
Definition sleep : Prog unit := Await (Ret tt).

Inductive Outcome (A : Type) :=
| Returned (a : A)
| Thrown (e : Error)
| Unfinished.

Arguments Returned {A} a.
Arguments Thrown {A} e.
Arguments Unfinished {A}.

(** One call executed alone, from start to end. *)
Fixpoint run {A : Type} (p : Prog A) (s : Agent) : Outcome A * Agent :=
  match p with
  | Ret a => (Returned a, s)
  | Throw e => (Thrown e, s)
  | Stuck => (Unfinished, s)
  | Get k => run (k s) s
  | Put s' k => run k s'
  | Await k => run k s
  | WaitUntil fo k => run k (with_background (background s ++ [fo]) s)
  end.

(** A call that has been started: suspended, with what it does when it is
    resumed, or settled. *)
Inductive Task (A : Type) : Type :=
| Suspended (k : Prog A)
| Settled (o : Outcome A).

Arguments Suspended {A} k.
Arguments Settled {A} o.

(** One synchronous stretch: up to the next suspension point. *)
Fixpoint segment {A : Type} (p : Prog A) (s : Agent) : Task A * Agent :=
  match p with
  | Ret a => (Settled (Returned a), s)
  | Throw e => (Settled (Thrown e), s)
  | Stuck => (Settled Unfinished, s)
  | Get k => segment (k s) s
  | Put s' k => segment k s'
  | WaitUntil fo k => segment k (with_background (background s ++ [fo]) s)
  | Await k => (Suspended k, s)
  end.

End WithHost.

Arguments Ret {_ A} a.
Arguments Throw {_ A} e.
Arguments Stuck {_ A}.
Arguments Get {_ A} k.
Arguments Put {_ A} s k.
Arguments Await {_ A} k.
Arguments WaitUntil {_ A} folder k.
Arguments Returned {A} a.
Arguments Thrown {A} e.
Arguments Unfinished {A}.
Arguments Suspended {_ A} k.
Arguments Settled {_ A} o.

Declare Scope prog_scope.
Delimit Scope prog_scope with prog.
Notation "x <- m ;; k" := (bind m (fun x => k))
  (at level 100, m at next level, right associativity) : prog_scope.
Notation "m ;;; k" := (bind m (fun _ => k))
  (at level 100, right associativity) : prog_scope.

End Agent.

(** ** The methods of [ZeroAgent] *)

Module ZeroAgent.
Import Cache Agent.
Local Open Scope prog_scope.

(** What [syncThread] resolves to. *)
Inductive SyncThreadResult :=
| SkippedInProgress                 (* return; *)
| Synced (threadId : string) (threadData : IGetThreadResponse)
| NoLatestMessage (threadId : string).

(** What [syncThreads] resolves to: [{ synced, message? }]. *)
Record SyncThreadsResult := mkSynced {
  synced : Z;
  message : option string
}.

Record RequestInit := mkInit {
  method : string;
  body_messages : list ChatMessage        (* JSON.parse(body).messages *)
}.

(** The parameter of [list] and [listThreads]. *)
Record ListRequest := mkRequest {
  req_folder : string;
  req_query : option string;
  req_maxResults : option Z;
  req_labelIds : option (list string);
  req_pageToken : option string
}.

Inductive IncomingMessage :=
| UseChatRequest (id : JsId) (init : RequestInit)
| InChatClear
| InChatMessages (msgs : list ChatMessage)
| ChatRequestCancel (id : JsId)
| InMail_List
| InMail_Get.

(** A [WSMessage]: a text, seen through [JSON.parse], or binary data. *)
Inductive WSMessage :=
| Text (parsed : option IncomingMessage)
| Binary.

Section Methods.
Context `{Host}.

Definition broadcastChatMessage (m : OutgoingMessage) (exclude : list string)
    (s : Agent) : Agent :=
  with_outbox (outbox s ++ [(m, exclude)]) s.

(** *** Pending chat requests *)

Definition getAbortSignal (id : JsId) (s : Agent) : option AbortController * Agent :=
  match id with
  | IdOther => (None, s)
  | IdString k =>
      let s' :=
        match chatMessageAbortControllers s !! k with
        | Some _ => s
        | None => with_controllers (<[k := mkController false]> (chatMessageAbortControllers s)) s
        end in
      (chatMessageAbortControllers s' !! k, s')
  end.

Definition removeAbortController (id : JsId) (s : Agent) : Agent :=
  match id with
  | IdString k => with_controllers (delete k (chatMessageAbortControllers s)) s
  | IdOther => s
  end.

(** [abortController.abort()]. *)
Definition abort (c : AbortController) : AbortController := mkController true.

Definition cancelChatRequest (id : JsId) (s : Agent) : Agent :=
  match id with
  | IdString k =>
      match chatMessageAbortControllers s !! k with
      | Some c => with_controllers (<[k := abort c]> (chatMessageAbortControllers s)) s
      | None => s
      end
  | IdOther => s
  end.

Definition destroyAbortControllers (s : Agent) : Agent :=
  with_controllers ∅ s.

Definition tryCatchChat {A : Type} (fn : Prog A) : Prog A :=
  tryCatch fn (fun e => Throw (onError e)).

(** [for await (const chunk of response.body!) { broadcast ... }]. *)
Fixpoint replyChunks (id : JsId) (cs : list string) : Prog unit :=
  match cs with
  | [] => Ret tt
  | chunk :: rest =>
      Await (
        modify (broadcastChatMessage (UseChatResponse id (decode chunk) false) []) ;;;
        replyChunks id rest)
  end.

Definition reply (id : JsId) (response : Body) : Prog unit :=
  tryCatchChat (
    replyChunks id (chunks response) ;;;
    Await (
      match failure response with
      | Some e => Throw (HostError e)
      | None => modify (broadcastChatMessage (UseChatResponse id "" true) [])
      end)).

(** The two kinds of message [reply] broadcasts. *)
Definition chunkMessage (id : JsId) (chunk : string) : OutgoingMessage * list string :=
  (UseChatResponse id (decode chunk) false, []).

Definition terminator (id : JsId) : OutgoingMessage * list string :=
  (UseChatResponse id "" true, []).

Definition persistMessages (msgs : list ChatMessage) (exclude : list string) : Prog unit :=
  host_ (persist msgs exclude).

(** *** Connecting *)

Definition startSync (folder : string) : Prog unit := WaitUntil folder (Ret tt).

Definition setupAuth (connectionId : string) : Prog unit :=
  if String.eqb connectionId "general" then Ret tt else
  d <- gets driver ;;
  if d then Ret tt else
  found <- host (find_connection connectionId) ;;
  (if found : bool then modify (with_driver true) else Ret tt) ;;;
  startSync "inbox" ;;;
  startSync "sent" ;;;
  startSync "spam" ;;;
  startSync "archive".

(** *** Chat requests *)

(** The [onFinish] callback handed to [onChatMessage] by [onMessage]. *)
Definition onFinish (connectionId : string) (finalMessages : list ChatMessage)
    (chatMessageId : JsId) : Prog unit :=
  persistMessages finalMessages [connectionId] ;;;
  modify (removeAbortController chatMessageId).

(** [getDataStreamResponse] hands back the response of
    [createDataStreamResponse].  The [execute] function is started at once
    and runs while the caller waits for the body; an error it throws does
    not reach the caller, the library makes a body of it; [streamText] calls
    [onFinish] when the generation finishes, before the body ends, and an
    error of [onFinish] does not reach the caller either: the library is
    told of it when it makes the body.  What [execute]
    and [onFinish] do to the agent is done here before the body is handed
    over: they touch the driver, the background work, the stored messages
    and the pending requests, while the reader of the body touches the
    messages sent.  The abort signal is not passed on (the parameter is
    [_]).  The tools handed to [streamText] are outside this file. *)
Definition getDataStreamResponse (onFinish : list ChatMessage -> Prog unit)
    : Prog Body :=
  connectionId <- gets name ;;
  if String.eqb connectionId "general" then Ret (unmerged_body None) else
  tryCatch
    (d <- gets driver ;;
     (if String.eqb connectionId "" || negb d then
        await_ (setupAuth connectionId) ;;;
        d' <- gets driver ;;
        if String.eqb connectionId "" || negb d' then Throw Unauthorized else Ret tt
      else Ret tt) ;;;
     g <- host chat_stream ;;
     match finished g with
     | Some responseMessages =>
         tryCatch (onFinish responseMessages ;;; Ret (stream g None))
                  (fun e => Ret (stream g (Some e)))
     | None => Ret (stream g None)
     end)
    (fun e => Ret (unmerged_body (Some e))).

(** [onChatMessage] always hands back a [Response]. *)
Definition onChatMessage (onFinish : list ChatMessage -> Prog unit)
    : Prog (option Body) :=
  b <- getDataStreamResponse onFinish ;; Ret (Some b).

Definition onMessage (connectionId : string) (message : WSMessage) : Prog unit :=
  match message with
  | Binary => Ret tt
  | Text None => Ret tt
  | Text (Some data) =>
      match data with
      | UseChatRequest id init =>
          if negb (String.eqb (method init) "POST") then Ret tt else
          let msgs := body_messages init in
          modify (broadcastChatMessage (ChatMessages msgs) [connectionId]) ;;;
          persistMessages msgs [connectionId] ;;;
          _ <- Get (fun s => let r := getAbortSignal id s in Put (snd r) (Ret (fst r))) ;;
          tryCatchChat (
            response <- onChatMessage (fun responseMessages =>
                          onFinish connectionId
                            (appendResponseMessages msgs responseMessages) id) ;;
            match response with
            | Some b => await_ (reply id b)
            | None =>
                modify (broadcastChatMessage
                  (UseChatResponse id "No response was generated by the agent." true)
                  [connectionId])
            end)
      | InChatClear =>
          modify destroyAbortControllers ;;;
          modify (fun s => with_world (clear_messages (world s)) s) ;;;
          modify (broadcastChatMessage ChatClear [connectionId])
      | InChatMessages msgs => persistMessages msgs [connectionId]
      | ChatRequestCancel id => modify (cancelChatRequest id)
      | InMail_List | InMail_Get => Ret tt
      end
  end.

(** *** Synchronisation *)

Definition getThreadCount (s : Agent) : Z := Z.of_nat (length (table s)).

Definition getThreadKey (s : Agent) (threadId : string) : string :=
  name s ++ "/" ++ threadId ++ ".json".

Definition listWithRetry (folder : string) (maxResults : Z) (token : option string)
    : Prog UpstreamPage :=
  d <- gets driver ;;
  if negb d then Throw NoDriver else
  answer <- ask (driver_list folder maxResults token) ;;
  record (CList folder token
            (match answer with
             | inl e => inl e
             | inr r => inr (page_nextPageToken r)
             end)) ;;;
  settle answer.

Definition getWithRetry (threadId : string) : Prog IGetThreadResponse :=
  d <- gets driver ;;
  if negb d then Throw NoDriver else host (driver_get threadId).

(** [INSERT OR REPLACE INTO threads (...) VALUES (...)]: the row with this
    primary key, if any, is replaced. *)
Definition upsertThread (r : ThreadRow) (t : list ThreadRow) : list ThreadRow :=
  filter (fun x => negb (String.eqb (row_id x) (row_id r))) t ++ [r].

Definition releaseThread (threadId : string) : Prog unit :=
  modify (fun s => with_syncThreadsInProgress (delete threadId (syncThreadsInProgress s)) s).

Definition syncThread (threadId : string) : Prog SyncThreadResult :=
  record (CSync threadId) ;;;
  s0 <- gets (fun s => s) ;;
  (if negb (driver s0) && negb (String.eqb (name s0) "general")
   then await_ (setupAuth (name s0)) else Ret tt) ;;;
  s1 <- gets (fun s => s) ;;
  if negb (driver s1) then Throw NoDriver else
  if bool_decide (is_Some (syncThreadsInProgress s1 !! threadId)) then Ret SkippedInProgress else
  modify (fun s => with_syncThreadsInProgress (<[threadId := true]> (syncThreadsInProgress s)) s) ;;;
  tryCatch
    (threadData <- getWithRetry threadId ;;
     match latest threadData with
     | Some l =>
         normalizedReceivedOn <-
           match toISOString (receivedOn l) with
           | Some d => Ret d
           | None => Throw (HostError "RangeError: Invalid time value")
           end ;;
         key <- gets (fun s => getThreadKey s threadId) ;;
         host_ (bucket_put key threadData) ;;;
         modify (fun s => with_table
           (upsertThread
              (mkRow threadId threadId "google" (Some (sender l))
                 (Some normalizedReceivedOn) (Some (subject l)) (tags l))
              (table s)) s) ;;;
         cf <- gets currentFolder ;;
         (if bool_decide (cf = Some "inbox")
          then modify (broadcastChatMessage (Mail_Get threadId) [])
          else Ret tt) ;;;
         releaseThread threadId ;;;
         Ret (Synced threadId threadData)
     | None =>
         releaseThread threadId ;;;
         Ret (NoLatestMessage threadId)
     end)
    (fun error => releaseThread threadId ;;; Throw error).

(** [for (const thread of result.threads) { try { await this.syncThread(...) } catch {} }]. *)
Fixpoint syncPage (ids : list string) : Prog unit :=
  match ids with
  | [] => Ret tt
  | threadId :: rest =>
      tryCatch (await_ (syncThread threadId) ;;; sleep) (fun _ => Ret tt) ;;;
      syncPage rest
  end.

(** The [while (hasMore)] loop, for at most [bound] pages. *)
Fixpoint syncLoop (bound : nat) (folder : string) (totalSynced : Z)
    (token : option string) : Prog SyncThreadsResult :=
  match bound with
  | O => Stuck
  | S n =>
      sleep ;;;
      result <- listWithRetry folder maxCount (if Js.truthy token then token else None) ;;
      sleep ;;;
      syncPage (page_threads result) ;;;
      modify (broadcastChatMessage (Mail_List folder) []) ;;;
      let totalSynced' := totalSynced + Z.of_nat (length (page_threads result)) in
      let token' := page_nextPageToken result in
      if bool_decide (token' ≠ None) && shouldLoop
      then syncLoop n folder totalSynced' token'
      else Ret (mkSynced totalSynced' None)
  end.

Definition syncThreads (bound : nat) (folder : string) : Prog SyncThreadsResult :=
  d <- gets driver ;;
  if negb d then Throw NoDriver else
  busy <- gets (fun s => bool_decide (is_Some (foldersInSync s !! folder))) ;;
  if busy : bool then Ret (mkSynced 0 (Some "Sync already in progress")) else
  threadCount <- await_ (gets getThreadCount) ;;
  if (maxCount <=? threadCount) && negb shouldLoop
  then Ret (mkSynced 0 (Some "Threads already synced")) else
  modify (fun s => with_foldersInSync (<[folder := true]> (foldersInSync s)) s) ;;;
  tryFinally
    (tryCatch (syncLoop bound folder 0 None) (fun error => Throw error))
    (modify (fun s => with_foldersInSync (delete folder (foldersInSync s)) s) ;;;
     modify (broadcastChatMessage (Mail_List folder) [])).

(** *** Reading the cache *)

(** A statement the [sql] tag refuses makes it throw; the [catch] of
    [getThreadsFromDB] throws the error again. *)
Definition getThreadsFromDB (p : ListParams) : Prog (option ThreadList) :=
  t <- gets table ;;
  match Cache.queryThreads toUpperCase p t with
  | DatatypeMismatch => Throw (HostError "datatype mismatch")
  | _ => Ret (Cache.getThreadsFromDB toUpperCase p t)
  end.

(** [list] and [listThreads]: the object they pass on names its text
    [query], and [getThreadsFromDB] reads [q]. *)
Definition toParams (r : ListRequest) : ListParams :=
  mkParams (req_labelIds r) (Some (req_folder r)) None (req_maxResults r) (req_pageToken r).

Definition listThreads (r : ListRequest) : Prog (option ThreadList) :=
  d <- gets driver ;;
  if negb d then Throw NoDriver else
  await_ (getThreadsFromDB (toParams r)).

Definition findLast {A : Type} (f : A -> bool) (l : list A) : option A :=
  head (filter f (rev l)).

(** [SELECT ... FROM threads WHERE id = ${id} LIMIT 1]. *)
Definition cached (threadId : string) (s : Agent) : option ThreadRow :=
  find (fun r => String.eqb (row_id r) threadId) (table s).

(** One pass over the body of [getThreadFromDB]; [onMiss] is what it does
    when the row is absent. *)
Definition readThread (threadId : string) (onMiss : Prog IGetThreadResponse)
    : Prog IGetThreadResponse :=
  tryCatch
    (record (CRead threadId) ;;;
     result <- gets (cached threadId) ;;
     match result with
     | None => onMiss
     | Some row =>
         key <- gets (fun s => getThreadKey s threadId) ;;
         storedThread <- host (bucket_get key) ;;
         let msgs := match storedThread with Some t => messages t | None => [] end in
         let latestLabelIds := latest_label_ids row in
         Ret (mkThread msgs
                (findLast (fun e => negb (isDraft e)) msgs)
                (existsb (String.eqb "UNREAD") latestLabelIds)
                (length (filter (fun e => negb (isDraft e)) msgs))
                latestLabelIds)
     end)
    (fun error => Throw error).

Definition getThreadFromDB (threadId : string) (lastAttempt : bool)
    : Prog IGetThreadResponse :=
  if lastAttempt
  then readThread threadId (Throw ThreadNotFound)
  else readThread threadId
         (await_ (syncThread threadId) ;;;
          readThread threadId (Throw ThreadNotFound)).

(** [get] and [getThread]. *)
Definition get (threadId : string) : Prog IGetThreadResponse :=
  d <- gets driver ;;
  if negb d then Throw NoDriver else
  await_ (getThreadFromDB threadId false).

(** The page fetches among the calls made: the token sent and the answer,
    an error or the next token. *)
Definition fetches (cs : list Call) : list (option string * (string + option string)) :=
  omap (fun c => match c with CList _ t a => Some (t, a) | _ => None end) cs.

(** A fetch after which the loop goes on: a token came back and the loop is
    enabled. *)
Definition continues (f : option string * (string + option string)) : Prop :=
  shouldLoop = true /\ exists t, snd f = inr (Some t).

(** A fetch after which the loop ends: no token came back, or the loop is
    disabled. *)
Definition stops (f : option string * (string + option string)) : Prop :=
  exists next, snd f = inr next /\ (next = None \/ shouldLoop = false).

(** What the fetches [l] of one run of the loop look like, by the way the
    run ended: it returned, it threw, or it used up its bound. *)
Definition loop_verdict (bound : nat) (o : Outcome SyncThreadsResult)
    (l : list (option string * (string + option string))) : Prop :=
  match o with
  | Returned r =>
      message r = None
      /\ exists init last, l = (init ++ [last])%list /\ Forall continues init /\ stops last
  | Thrown e =>
      exists init last msg,
        l = (init ++ [last])%list /\ Forall continues init
        /\ snd last = inl msg /\ e = HostError msg
  | Unfinished => length l = bound /\ Forall continues l
  end.

(** *** Calls in flight together *)

(** The calls of [syncThreads] that have been started, each at its current
    suspension point. *)
Record Pool := mkPool {
  agent : Agent;
  tasks : list (Task SyncThreadsResult)
}.

Inductive Action :=
| CallSyncThreads (folder : string)   (* a caller invokes the method *)
| Resume (i : nat).                   (* the i-th call runs its next stretch *)

Definition step (bound : nat) (a : Action) (p : Pool) : Pool :=
  match a with
  | CallSyncThreads f =>
      let r := segment (syncThreads bound f) (agent p) in
      mkPool (snd r) (tasks p ++ [fst r])
  | Resume i =>
      match tasks p !! i with
      | Some (Suspended k) =>
          let r := segment k (agent p) in
          mkPool (snd r) (<[i := fst r]> (tasks p))
      | _ => p
      end
  end.

Definition schedule (bound : nat) (acts : list Action) (p : Pool) : Pool :=
  fold_left (fun p a => step bound a p) acts p.

(** A call that has been started and has not settled. *)
Definition pending {A : Type} (t : Task A) : bool :=
  match t with
  | Suspended _ => true
  | Settled _ => false
  end.

End Methods.
End ZeroAgent.

(** ** The mail-list hotkeys *)

Module MailListHotkeys.

Inductive Mutation :=
| bulkArchive (ids : list string)
| markAsReadAction (ids : list string)
| markAsUnreadAction (ids : list string).

(** The calls a handler makes: [toast.promise(mutation, { loading, success,
    error })] with the translation keys it passes, or [toast.info(key)]. *)
Inductive Effect :=
| ToastPromise (m : Mutation) (loading success error : string)
| ToastInfo (key : string).

(** [if (hoveredEmailId.current)]. *)
Definition hovered (hoveredEmailId : option string) : option string :=
  if Js.truthy hoveredEmailId then hoveredEmailId else None.

Definition markAsRead (hoveredEmailId : option string) (bulkSelected : list string)
    : list Effect :=
  match hovered hoveredEmailId with
  | Some h =>
      [ToastPromise (markAsReadAction [h]) "common.actions.loading"
         "common.mail.markedAsRead" "common.mail.failedToMarkAsRead"]
  | None =>
      let idsToMark := bulkSelected in
      if (length idsToMark =? 0)%nat then [ToastInfo "common.mail.noEmailsToSelect"]
      else [ToastPromise (markAsReadAction idsToMark) "common.actions.loading"
              "common.mail.markedAsRead" "common.mail.failedToMarkAsRead"]
  end.

Definition markAsUnread (hoveredEmailId : option string) (bulkSelected : list string)
    : list Effect :=
  match hovered hoveredEmailId with
  | Some h =>
      [ToastPromise (markAsUnreadAction [h]) "common.actions.loading"
         "common.mail.markedAsUnread" "common.mail.failedToMarkAsUnread"]
  | None =>
      let idsToMark := bulkSelected in
      if (length idsToMark =? 0)%nat then [ToastInfo "common.mail.noEmailsToSelect"]
      else [ToastPromise (markAsUnreadAction idsToMark) "common.actions.loading"
              "common.mail.markedAsUnread" "common.mail.failedToMarkAsUnread"]
  end.

Definition archiveEmail (hoveredEmailId : option string) (bulkSelected : list string)
    : list Effect :=
  match hovered hoveredEmailId with
  | Some h =>
      [ToastPromise (bulkArchive [h]) "common.actions.loading"
         "common.mail.archived" "common.mail.failedToArchive"]
  | None =>
      let idsToMark := bulkSelected in
      if (length idsToMark =? 0)%nat then [ToastInfo "common.mail.noEmailsToSelect"]
      else [ToastPromise (markAsUnreadAction idsToMark) "common.actions.loading"
              "common.mail.archived" "common.mail.failedToArchive"]
  end.

(** The mutation a handler run invokes, if any. *)
Definition invoked (es : list Effect) : list Mutation :=
  omap (fun e => match e with ToastPromise m _ _ _ => Some m | ToastInfo _ => None end) es.

Definition is_bulkArchive (m : Mutation) : bool :=
  match m with bulkArchive _ => true | _ => false end.

End MailListHotkeys.

(** ** A host to run the methods on *)

Module Sample.
Import Cache Agent ZeroAgent.

(** [toUpperCase] on the letters a-z. *)
Definition upperAscii (c : ascii) : ascii :=
  let n := nat_of_ascii c in
  if ((97 <=? n) && (n <=? 122))%nat then ascii_of_nat (n - 32) else c.

Fixpoint upper (s : string) : string :=
  match s with
  | EmptyString => EmptyString
  | String c rest => String (upperAscii c) (upper rest)
  end.

Definition message1 : ParsedMessage :=
  mkMessage "2025-01-01T00:00:00.000Z" "{name:Ann}" "hello" ["INBOX"] false.

Definition thread1 : IGetThreadResponse :=
  mkThread [message1] (Some message1) false 1 ["INBOX"].

(** The upstream answers [list] from a script, then with an empty last
    page; [get] fails on the thread called "bad". *)
Definition sampleHost (loop : bool) (max : Z) : Host := {|
  World := list (string + UpstreamPage);
  maxCount := max;
  shouldLoop := loop;
  toUpperCase := upper;
  toISOString := fun d => if String.eqb d "" then None else Some d;
  decode := fun c => c;
  onError := fun e => e;
  driver_list := fun _ _ _ w =>
    match w with
    | [] => (inr (mkPage [] None), [])
    | r :: w' => (r, w')
    end;
  driver_get := fun t w =>
    (if String.eqb t "bad" then inl "404" else inr thread1, w);
  bucket_put := fun _ _ w => (None, w);
  bucket_get := fun _ w => (inr None, w);
  find_connection := fun _ w => (inr true, w);
  persist := fun _ _ w => (None, w);
  clear_messages := fun w => w;
  chat_stream := fun w =>
    (inr (mkGeneration (fun _ => mkBody ["a"; "b"] None) (Some ["done"])), w);
  unmerged_body := fun e =>
    match e with
    | None => mkBody [] None
    | Some _ => mkBody ["error"] None
    end;
  appendResponseMessages := fun msgs responseMessages => (msgs ++ responseMessages)%list
|}.

(** A connected agent with an empty cache. *)
Definition agent0 (loop : bool) (max : Z) (script : list (string + UpstreamPage))
    : @Agent (sampleHost loop max) :=
  @mkAgent (sampleHost loop max) "conn1" true ∅ ∅ ∅ (Some "inbox") [] [] [] [] script.

Definition row1 : ThreadRow :=
  mkRow "t1" "t1" "google" (Some "{name:Ann}") (Some "2025-01-01T00:00:00.000Z")
    (Some "hello") ["INBOX"].

Definition row2 : ThreadRow :=
  mkRow "t2" "t2" "google" (Some "{name:Bob}") (Some "2025-01-03T00:00:00.000Z")
    (Some "lunch") ["INBOX"; "UNREAD"].

(** Two pages of one thread each, for two calls to read. *)
Definition pool0 : @Pool (sampleHost true 40) :=
  mkPool (agent0 true 40 [inr (mkPage ["t1"] None); inr (mkPage ["t1"] None)]) [].

(** Two calls for the same folder made in one synchronous turn; then each
    runs the stretch that follows [await this.getThreadCount()]. *)
Definition sameTurn : list Action :=
  [CallSyncThreads "inbox"; CallSyncThreads "inbox"; Resume 0; Resume 1].

(** Then the two calls are resumed in turn, [n] times each. *)
Definition inTurn (n : nat) : list Action :=
  (sameTurn ++ concat (repeat [Resume 0; Resume 1] n))%list.

(** A cache that already holds [maxCount] rows, with the loop enabled. *)
Definition fullCache : @Agent (sampleHost true 1) :=
  with_table [row1] (agent0 true 1 [inr (mkPage ["t1"] None)]).

(** An agent with one pending chat request, "r1". *)
Definition pendingAgent : @Agent (sampleHost true 40) :=
  snd (getAbortSignal (IdString "r1") (agent0 true 40 [])).

Definition cancelR1 : WSMessage := Text (Some (ChatRequestCancel (IdString "r1"))).

End Sample.

(** ** What the further statements speak of *)

Module SyncTrace.
Import Cache Agent ZeroAgent.

(** The row [syncThread] writes for a thread whose latest message is [l],
    received at the normalised date [d]. *)
Definition newRow (threadId : string) (l : ParsedMessage) (d : string) : ThreadRow :=
  mkRow threadId threadId "google" (Some (sender l)) (Some d) (Some (subject l)) (tags l).

(** The threads [syncThread] was called for, among the calls made. *)
Definition synced_ids (cs : list Call) : list string :=
  omap (fun c => match c with CSync i => Some i | _ => None end) cs.

(** Page fetches that follow one another: the first sends [sent], each
    later one the token the one before it answered with, and nothing
    follows a failed one. *)
Fixpoint chained (sent : option string)
    (l : list (option string * (string + option string))) : Prop :=
  match l with
  | [] => True
  | (t, a) :: rest =>
      t = (if Js.truthy sent then sent else None)
      /\ match a with
         | inr next => chained next rest
         | inl _ => rest = []
         end
  end.

Section Methods.
Context `{Host}.

(** [threadIds.map((id) => this.mainDo.syncThread(id))]: each call is started
    in turn and runs up to its first suspension point. *)
Fixpoint startSyncs (ids : list string) (s : Agent)
    : list (Task SyncThreadResult) * Agent :=
  match ids with
  | [] => ([], s)
  | i :: rest =>
      let r := segment (syncThread i) s in
      let rs := startSyncs rest (snd r) in
      (fst r :: fst rs, snd rs)
  end.

(** What is left to run of a call that has been started. *)
Definition resumption {A : Type} (t : Task A) : Prog A :=
  match t with
  | Suspended k => k
  | Settled (Returned a) => Ret a
  | Settled (Thrown e) => Throw e
  | Settled Unfinished => Stuck
  end.

(** From [s] to [s'] the cache has lost nothing: it has one row per id, at
    least as many rows as before, and a row for every id that had one. *)
Definition keeps_cache (s s' : Agent) : Prop :=
  NoDup (map row_id (table s'))
  /\ (length (table s) <= length (table s'))%nat
  /\ forall k, is_Some (cached k s) -> is_Some (cached k s').

End Methods.
End SyncTrace.

(** ** Searching *)

Module Search.
Import Cache Agent ZeroAgent.
Local Open Scope prog_scope.

(** The answer of [aiSearch], as far as [inboxRag] and [searchThreads] read
    it: the response text and, for each item of [data], its
    [attributes.threadId]. *)
Record RagAnswer := mkRag {
  response : string;
  data : list (option string)
}.

(** The parameter of [searchThreads]. *)
Record SearchRequest := mkSearch {
  search_query : string;
  search_folder : option string;
  search_maxResults : option Z;
  search_labelIds : option (list string);
  search_pageToken : option string
}.

(** What [searchThreads] resolves to. *)
Inductive SearchResult :=
| FromAutorag (threadIds : list string)
| FromRaw (threadIds : list string) (nextPageToken : option string).

(** What [searchThreads] and [inboxRag] reach outside this file: the
    environment variable [AUTORAG_ID], the search of [env.AI.autorag] (given
    the id, the query and the value of the folder filter) and
    [driver.list] called with a query, seen through the ids of the threads
    it returns. *)
Class SearchHost `{Host} := {
  AUTORAG_ID : option string;
  aiSearch : string -> string -> string -> World -> (string + RagAnswer) * World;
  driver_search : string -> string -> list string -> Z -> option string ->
                  World -> (string + list string) * World
}.

(** [Array.prototype.slice(0, n)]: a negative end counts from the end of
    the array. *)
Definition slice0 {A : Type} (n : Z) (l : list A) : list A :=
  if n <? 0 then firstn (length l - Z.to_nat (- n)) l else firstn (Z.to_nat n) l.

(** [.filter(Boolean)] on thread ids. *)
Definition filterBoolean (l : list (option string)) : list string :=
  omap (fun o => if Js.truthy o then o else None) l.

Section Methods.
Context `{SearchHost}.

Definition inboxRag (query : string) : Prog RagAnswer :=
  if negb (Js.truthy AUTORAG_ID) then Ret (mkRag "Not enabled" []) else
  n <- gets name ;;
  answer <- host (aiSearch (default "" AUTORAG_ID) query (n ++ "/")) ;;
  Ret (mkRag (response answer) (data answer)).

Definition searchThreads (params : SearchRequest) : Prog SearchResult :=
  let query := search_query params in
  let folder := default "inbox" (search_folder params) in
  let maxResults := default 50 (search_maxResults params) in
  let labelIds := default [] (search_labelIds params) in
  let pageToken := search_pageToken params in
  d <- gets driver ;;
  if negb d then Throw NoDriver else
  ragIds <- tryCatch
              (rag <- inboxRag query ;;
               Ret (slice0 maxResults (filterBoolean (data rag))))
              (fun _ => Ret []) ;;
  rawIds <- tryCatch
              (host (driver_search folder query labelIds maxResults pageToken))
              (fun _ => Ret []) ;;
  if (0 <? length ragIds)%nat then Ret (FromAutorag ragIds)
  else Ret (FromRaw rawIds pageToken).

End Methods.
End Search.

(** ** Selection in the mail list *)

Module MailListSelection.
Import MailListHotkeys.

(** The [mail] atom: the bulk selection, and the fields the handlers copy
    with [...prev]. *)
Record Mail (R : Type) := mkMail {
  bulkSelected : list string;
  rest : R
}.
Arguments mkMail {R} _ _.
Arguments bulkSelected {R} _.
Arguments rest {R} _.

(** An item of the thread list. *)
Record Item := mkItem {
  item_id : string;
  historyId : option string
}.

Definition selectAll {R : Type} (mail : Mail R) (items : list Item)
    : Mail R * list Effect :=
  if (0 <? length (bulkSelected mail))%nat then
    (mkMail [] (rest mail), [])
  else if (0 <? length items)%nat then
    let allIds := map item_id items in
    (mkMail allIds (rest mail), [])
  else
    (mail, [ToastInfo "common.mail.noEmailsToSelect"]).

Definition exitSelectionMode {R : Type} (mail : Mail R) : Mail R :=
  mkMail [] (rest mail).

(** The ids a mutation is invoked with. *)
Definition ids_of (m : Mutation) : list string :=
  match m with
  | bulkArchive ids | markAsReadAction ids | markAsUnreadAction ids => ids
  end.

End MailListSelection.

(** ** More inputs to run the methods on *)

Module PageLogging.
Import Cache Agent ZeroAgent.
Local Open Scope list_scope.

(** A world that keeps the pages the mail driver has delivered: a page is
    added by each [list] that answers, and by nothing else the syncs
    call. *)
Class PageLog `{Host} := {
  pages_seen : World -> list (list string);
  seen_list : forall folder max tok w,
    pages_seen (snd (driver_list folder max tok w))
    = pages_seen w ++ match fst (driver_list folder max tok w) with
                      | inr pg => [page_threads pg]
                      | inl _ => []
                      end;
  seen_get : forall t w, pages_seen (snd (driver_get t w)) = pages_seen w;
  seen_put : forall k td w, pages_seen (snd (bucket_put k td w)) = pages_seen w
}.

(** Any host, with the pages delivered written down next to its world. *)
Definition logging (h : Host) : Host := {|
  World := (@World h * list (list string))%type;
  maxCount := @maxCount h;
  shouldLoop := @shouldLoop h;
  toUpperCase := @toUpperCase h;
  toISOString := @toISOString h;
  decode := @decode h;
  onError := @onError h;
  driver_list := fun folder max tok w =>
    let r := @driver_list h folder max tok (fst w) in
    (fst r, (snd r, snd w ++ match fst r with
                             | inr pg => [page_threads pg]
                             | inl _ => []
                             end));
  driver_get := fun t w => let r := @driver_get h t (fst w) in (fst r, (snd r, snd w));
  bucket_put := fun k td w => let r := @bucket_put h k td (fst w) in (fst r, (snd r, snd w));
  bucket_get := fun k w => let r := @bucket_get h k (fst w) in (fst r, (snd r, snd w));
  find_connection := fun c w =>
    let r := @find_connection h c (fst w) in (fst r, (snd r, snd w));
  persist := fun m e w => let r := @persist h m e (fst w) in (fst r, (snd r, snd w));
  clear_messages := fun w => (@clear_messages h (fst w), snd w);
  chat_stream := fun w => let r := @chat_stream h (fst w) in (fst r, (snd r, snd w));
  unmerged_body := @unmerged_body h;
  appendResponseMessages := @appendResponseMessages h
|}.

#[export] Instance logging_log (h : Host) : @PageLog (logging h) := {|
  pages_seen := fun w : @World (logging h) => snd w;
  seen_list := fun _ _ _ _ => eq_refl;
  seen_get := fun _ _ => eq_refl;
  seen_put := fun _ _ _ => eq_refl
|}.

(** The sample upstream, delivering one page of three threads, the second
    of which cannot be fetched. *)
Definition loggedAgent : @Agent (logging (Sample.sampleHost true 40)) :=
  @mkAgent (logging (Sample.sampleHost true 40)) "conn1" true ∅ ∅ ∅ (Some "inbox")
    [] [] [] [] ([inr (mkPage ["t1"; "bad"; "t2"] None)], []).

End PageLogging.

Module Fixtures.
Import Cache Agent ZeroAgent Search MailListSelection.

(** A cache of two threads, and the request for its first page of one. *)
Definition table2 : list ThreadRow := [Sample.row1; Sample.row2].

Definition firstPage : ListParams := mkParams None (Some "inbox") None (Some 1) None.

Definition firstPageList : ThreadList :=
  mkThreadList ["t2"] (Some "2025-01-03T00:00:00.000Z").

(** A connected agent holding this cache. *)
Definition cachedAgent : @Agent (Sample.sampleHost true 40) :=
  with_table table2 (Sample.agent0 true 40 []).

(** An agent that has not been connected yet. *)
Definition freshAgent : @Agent (Sample.sampleHost true 40) :=
  with_driver false (Sample.agent0 true 40 []).

(** The autorag answers with three items, one of them without a thread id;
    the driver's search fails. *)
Definition sampleSearch : @SearchHost (Sample.sampleHost true 40) := {|
  AUTORAG_ID := Some "rag";
  aiSearch := fun _ _ _ w => (inr (mkRag "ok" [Some "t1"; None; Some "t2"]), w);
  driver_search := fun _ _ _ _ _ w => (inl "503", w)
|}.

Definition chatRequest : WSMessage :=
  Text (Some (UseChatRequest (IdString "r1") (mkInit "POST" ["hi"]))).

(** An upstream with one page of one thread. *)
Definition onePage : @Agent (Sample.sampleHost true 40) :=
  Sample.agent0 true 40 [inr (mkPage ["t1"] None)].


(** The agent of the connection id 'general'. *)
Definition generalAgent : @Agent (Sample.sampleHost true 40) :=
  @mkAgent (Sample.sampleHost true 40) "general" false ∅ ∅ ∅ (Some "inbox") [] [] [] [] [].

(** A host whose generation sends one chunk, after which reading the body
    fails; the generation does not finish. *)
Definition resetHost : Host := {|
  World := list (string + UpstreamPage);
  maxCount := 40;
  shouldLoop := true;
  toUpperCase := Sample.upper;
  toISOString := fun d => if String.eqb d "" then None else Some d;
  decode := fun c => c;
  onError := fun e => e;
  driver_list := fun _ _ _ w => (inr (mkPage [] None), w);
  driver_get := fun _ w => (inr Sample.thread1, w);
  bucket_put := fun _ _ w => (None, w);
  bucket_get := fun _ w => (inr None, w);
  find_connection := fun _ w => (inr true, w);
  persist := fun _ _ w => (None, w);
  clear_messages := fun w => w;
  chat_stream := fun w => (inr (mkGeneration (fun _ => mkBody ["a"] (Some "reset")) None), w);
  unmerged_body := fun _ => mkBody [] None;
  appendResponseMessages := fun msgs responseMessages => (msgs ++ responseMessages)%list
|}.

Definition resetAgent : @Agent resetHost :=
  @mkAgent resetHost "conn1" true ∅ ∅ ∅ (Some "inbox") [] [] [] [] [].


(** A connected agent with an empty cache and a sync of the thread "t1" in
    flight: [syncThread] has been started and is suspended at
    [await this.getWithRetry(threadId)]. *)
Definition syncingAgent : @Agent (Sample.sampleHost true 40) :=
  snd (segment (syncThread "t1") (Sample.agent0 true 40 [])).

End Fixtures.

(** * Properties *)

(** ** The cached thread listing *)

Module CacheFacts.
Import Cache.

Lemma leb_le a b : String.leb a b = true <-> a = b \/ String_as_OT.lt a b.
Proof.
  unfold String.leb. change (String.compare a b) with (String_as_OT.compare a b).
  destruct (String_as_OT.compare_spec a b) as [Hab | Hab | Hab]; split; auto.
  - discriminate.
  - intros [-> | Hlt]; exfalso.
    + eapply (StrictOrder_Irreflexive b); exact Hab.
    + eapply (StrictOrder_Irreflexive a). etransitivity; eauto.
Qed.

Lemma leb_trans a b c :
  String.leb a b = true -> String.leb b c = true -> String.leb a c = true.
Proof.
  rewrite !leb_le. intros [-> | Hab] [-> | Hbc]; auto.
  right. etransitivity; eauto.
Qed.

Lemma recv_leb_trans a b c :
  recv_leb a b = true -> recv_leb b c = true -> recv_leb a c = true.
Proof.
  destruct a, b, c; simpl; try congruence. apply leb_trans.
Qed.

Lemma recv_leb_total a b : recv_leb a b = true \/ recv_leb b a = true.
Proof.
  destruct a, b; simpl; auto. apply String.leb_total.
Qed.

Definition row_ge (a b : ThreadRow) : Prop :=
  recv_leb (latest_received_on b) (latest_received_on a) = true.

Lemma insert_desc_Forall (P : ThreadRow -> Prop) r l :
  P r -> Forall P l -> Forall P (insert_desc r l).
Proof.
  intros Hr Hl. induction Hl as [|h t Hh Ht IH]; simpl.
  - constructor; [assumption | constructor].
  - destruct (recv_leb _ _); repeat constructor; assumption.
Qed.

Lemma insert_desc_sorted r l :
  StronglySorted row_ge l -> StronglySorted row_ge (insert_desc r l).
Proof.
  induction 1 as [|h t Hs IH Hall]; simpl.
  - repeat constructor.
  - destruct (recv_leb (latest_received_on h) (latest_received_on r)) eqn:E.
    + constructor; [constructor; assumption|].
      constructor; [exact E|].
      eapply Forall_impl; [exact Hall|]. intros x Hx. unfold row_ge in *.
      eapply recv_leb_trans; eassumption.
    + constructor; [assumption|].
      apply insert_desc_Forall; [|assumption].
      unfold row_ge. destruct (recv_leb_total (latest_received_on h) (latest_received_on r)); congruence.
Qed.

Lemma order_by_sorted l : StronglySorted row_ge (order_by_received_desc l).
Proof.
  induction l; simpl; [constructor | apply insert_desc_sorted; assumption].
Qed.

Lemma order_by_Forall (P : ThreadRow -> Prop) l :
  Forall P l -> Forall P (order_by_received_desc l).
Proof.
  induction 1; simpl; [constructor | apply insert_desc_Forall; assumption].
Qed.

Lemma firstn_sorted {A} (R : A -> A -> Prop) n l :
  StronglySorted R l -> StronglySorted R (firstn n l).
Proof.
  intros Hs. revert n. induction Hs as [|h t Hs IH Hall]; intros [|n]; simpl; try constructor.
  - apply IH.
  - apply Forall_take. assumption.
Qed.

Lemma select_spec (c : string) (w : ThreadRow -> bool) (n : Z) (t : list ThreadRow) :
  (forall r, w r = true -> received_before c r = true) ->
  Forall (before c) (selected_rows w n t) /\ descending (selected_rows w n t).
Proof.
  intros Hw. unfold selected_rows.
  assert (HF : Forall (fun r => received_before c r = true)
                 (limited n (order_by_received_desc (filter w t)))).
  { assert (HF0 : Forall (fun r => received_before c r = true)
                    (order_by_received_desc (filter w t))).
    { apply order_by_Forall. apply Forall_forall. intros r Hr.
      apply list_elem_of_filter in Hr as [Hr _]. apply Hw. destruct (w r); auto; contradiction. }
    unfold limited. destruct (n <? 0); [assumption | apply Forall_take; assumption]. }
  assert (HS : StronglySorted row_ge (limited n (order_by_received_desc (filter w t)))).
  { unfold limited. destruct (n <? 0); [|apply firstn_sorted]; apply order_by_sorted. }
  split.
  - apply Forall_fmap. eapply Forall_impl; [exact HF|].
    intros r Hr. unfold before, received_before in *. simpl.
    destruct (latest_received_on r); [eauto | discriminate].
  - unfold descending. clear HF. induction HS as [|h l HS IH Hall]; simpl; constructor; auto.
    apply Forall_fmap. eapply Forall_impl; [exact Hall|]. intros x Hx. exact Hx.
Qed.


Lemma truthy_nonempty c : c <> "" -> Js.truthy (Some c) = true.
Proof.
  intros Hc. simpl. destruct (String.eqb_spec c ""); [contradiction | reflexivity].
Qed.

Lemma cursor_condition_found c :
  Js.includes (cursorCondition c) "latest_received_on <" = true.
Proof. reflexivity. Qed.

Lemma int64_answer (w : ThreadRow -> bool) (n : Z) (t : list ThreadRow) :
  answer (select_threads w n t)
  = if int64 n then Rows (selected_rows w n t) else DatatypeMismatch.
Proof.
  unfold select_threads, selected_rows, sql_limit. destruct (int64 n); reflexivity.
Qed.

(** The statement chosen when a non-empty cursor is given. *)
Lemma cursor_statement (up : string -> string) (p : ListParams) (t : list ThreadRow)
    (c : string) :
  pageToken p = Some c -> c <> "" ->
  exists w,
    (forall r, w r = true -> received_before c r = true)
    /\ queryThreads up p t = answer (select_threads w (default 50 (maxResults p)) t).
Proof.
  intros Hp Hc. pose proof (truthy_nonempty c Hc) as Ht.
  assert (Hand : forall (f : ThreadRow -> bool) r,
            f r && received_before c r = true -> received_before c r = true).
  { intros f r Hr. apply andb_true_iff in Hr. tauto. }
  unfold queryThreads, whereConditions, Js.orElse. rewrite Hp, Ht. simpl default.
  destruct (Js.truthy (folder p)); destruct (default [] (labelIds p)) as [|l1 [|l2 ls]];
    destruct (Js.truthy (q p)); simpl;
    try rewrite cursor_condition_found;
    eexists; (split; [|reflexivity]); auto; intros r; apply Hand.
Qed.

(** C2.  With a non-empty cursor [c], whichever statement is chosen: the
    listing runs a query whenever its [LIMIT] is one SQLite takes (a 64-bit
    integer; the statement is refused otherwise); and every row a query
    returns has a [latest_received_on] strictly below [c], the rows coming
    in descending order of [latest_received_on], the thread ids returned
    being those of these rows, in this order. *)
Theorem cursor_rows_before_and_descending
    (up : string -> string) (p : ListParams) (t : list ThreadRow) (c : string) :
  pageToken p = Some c -> c <> "" ->
  (if int64 (default 50 (maxResults p))
   then exists rows, queryThreads up p t = Rows rows
   else queryThreads up p t = DatatypeMismatch)
  /\ forall rows,
       queryThreads up p t = Rows rows ->
       Forall (before c) rows
       /\ descending rows
       /\ threads <$> getThreadsFromDB up p t = Some (map fst rows).
Proof.
  intros Hp Hc. destruct (cursor_statement up p t c Hp Hc) as (w & Hw & Hq).
  rewrite int64_answer in Hq. split.
  - destruct (int64 (default 50 (maxResults p))); [eexists|]; exact Hq.
  - intros rows Hrows. assert (Hrows' := Hrows). rewrite Hq in Hrows'.
    destruct (int64 (default 50 (maxResults p))); [|discriminate].
    injection Hrows' as <-.
    destruct (select_spec c w (default 50 (maxResults p)) t Hw) as [HF HS].
    split; [exact HF|]. split; [exact HS|].
    unfold getThreadsFromDB. rewrite Hrows. reflexivity.
Qed.

Lemma cursor_rows_sample :
  exists rows,
    queryThreads Sample.upper
      (mkParams None (Some "inbox") None None (Some "2025-01-02T00:00:00.000Z"))
      [Sample.row1; Sample.row2] = Rows rows
    /\ Forall (before "2025-01-02T00:00:00.000Z") rows
    /\ descending rows
    /\ threads <$> getThreadsFromDB Sample.upper
          (mkParams None (Some "inbox") None None (Some "2025-01-02T00:00:00.000Z"))
          [Sample.row1; Sample.row2] = Some (map fst rows).
Proof.
  assert (W := cursor_rows_before_and_descending Sample.upper
            (mkParams None (Some "inbox") None None (Some "2025-01-02T00:00:00.000Z"))
            [Sample.row1; Sample.row2] "2025-01-02T00:00:00.000Z"
            eq_refl ltac:(discriminate)).
  exists [("t1", Some "2025-01-01T00:00:00.000Z")].
  split; [vm_compute; reflexivity|].
  apply (proj2 W). vm_compute. reflexivity.
Defined.

(** C3, on the code.  With a folder, a text and a cursor the statement run
    is the folder-and-cursor one: a row that the text does not match is
    returned.  With a folder and a text alone the statement run is the
    cursor one with an empty cursor: a row of the folder that the text
    matches is not returned. *)
Theorem free_text_query_not_applied :
  queryThreads Sample.upper
    (mkParams None (Some "inbox") (Some "invoice") None (Some "2025-01-02T00:00:00.000Z"))
    [Sample.row1; Sample.row2]
    = Rows [("t1", Some "2025-01-01T00:00:00.000Z")]
  /\ matches_text "invoice" Sample.row1 = false
  /\ queryThreads Sample.upper
       (mkParams None (Some "inbox") (Some "hello") None None)
       [Sample.row1; Sample.row2]
     = Rows []
  /\ matches_text "hello" Sample.row1 = true
  /\ has_label "INBOX" Sample.row1 = true.
Proof. repeat apply conj; vm_compute; reflexivity. Qed.

End CacheFacts.

(** ** Running programs *)

Module ProgFacts.
Import Agent.

Section Run.
Context `{Host}.

Lemma run_bind {A B : Type} (m : Prog A) (f : A -> Prog B) (s : Agent) :
  run (bind m f) s =
  match run m s with
  | (Returned a, s') => run (f a) s'
  | (Thrown e, s') => (Thrown e, s')
  | (Unfinished, s') => (Unfinished, s')
  end.
Proof.
  revert s. induction m as [a|e| |k IH|s' k IH|k IH|fo k IH]; intros s; simpl; auto.
Qed.

Lemma run_tryCatch {A : Type} (m : Prog A) (h : Error -> Prog A) (s : Agent) :
  run (tryCatch m h) s =
  match run m s with
  | (Thrown e, s') => run (h e) s'
  | r => r
  end.
Proof.
  revert s. induction m as [a|e| |k IH|s' k IH|k IH|fo k IH]; intros s; simpl; auto.
Qed.

Lemma run_tryFinally {A : Type} (m : Prog A) (fin : Prog unit) (s : Agent) :
  run (tryFinally m fin) s =
  match run m s with
  | (Returned a, s') => run (bind fin (fun _ => Ret a)) s'
  | (Thrown e, s') => run (bind fin (fun _ => Throw e)) s'
  | (Unfinished, s') => (Unfinished, s')
  end.
Proof.
  revert s. induction m as [a|e| |k IH|s' k IH|k IH|fo k IH]; intros s; simpl; auto.
Qed.

Lemma run_rethrow {A : Type} (m : Prog A) (s : Agent) :
  run (tryCatch m (fun e => Throw e)) s = run m s.
Proof.
  rewrite run_tryCatch. destruct (run m s) as [[a|e|] s']; reflexivity.
Qed.

Lemma run_await {A : Type} (m : Prog A) (s : Agent) : run (await_ m) s = run m s.
Proof.
  unfold await_. rewrite run_bind. destruct (run m s) as [[a|e|] s']; reflexivity.
Qed.

End Run.
End ProgFacts.

(** ** Chat requests *)

Module ChatFacts.
Import Agent ZeroAgent ProgFacts Fixtures.
Local Open Scope list_scope.
Local Open Scope prog_scope.


Section Chat.
Context `{Host}.

Lemma run_replyChunks (id : JsId) (cs : list string) (s : Agent) :
  run (replyChunks id cs) s =
  (Returned tt, with_outbox (outbox s ++ map (chunkMessage id) cs) s).
Proof.
  revert s. induction cs as [|c cs IH]; intros s; simpl.
  - rewrite app_nil_r. destruct s; reflexivity.
  - rewrite IH. simpl. unfold broadcastChatMessage, chunkMessage. simpl.
    rewrite <- app_assoc. reflexivity.
Qed.

(** What [reply] does, for any body. *)
Lemma run_reply (id : JsId) (b : Body) (s : Agent) :
  run (reply id b) s =
  (match failure b with
   | None => Returned tt
   | Some e => Thrown (onError (HostError e))
   end,
   with_outbox (outbox s ++ map (chunkMessage id) (chunks b)
                ++ match failure b with None => [terminator id] | Some _ => [] end) s).
Proof.
  destruct b as [cs [e|]]; cbn [failure chunks];
    unfold reply, tryCatchChat; rewrite run_tryCatch, run_bind, run_replyChunks; simpl.
  - rewrite app_nil_r. reflexivity.
  - unfold broadcastChatMessage, terminator. simpl. rewrite <- app_assoc. reflexivity.
Qed.







(** C7 (as amended).  Whatever the body of the response, [reply] broadcasts
    one message with [done: false] per chunk read, carrying the decoded
    chunk, in order; when the body ends, exactly one message with
    [done: true] and an empty body follows and [reply] returns; when reading
    the body fails, no message with [done: true] is sent and the error is
    thrown through [onError].  Nothing else is sent and nothing else
    changes. *)
Theorem reply_chunks_then_terminator (id : JsId) (b : Body) (s : Agent) :
  run (reply id b) s =
  (match failure b with
   | None => Returned tt
   | Some e => Thrown (onError (HostError e))
   end,
   with_outbox (outbox s ++ map (chunkMessage id) (chunks b)
                ++ match failure b with
                   | None => [terminator id]
                   | Some _ => []
                   end) s).
Proof.
  destruct b as [cs [e|]]; cbn [failure chunks];
    unfold reply, tryCatchChat; rewrite run_tryCatch, run_bind, run_replyChunks; simpl.
  - rewrite app_nil_r. reflexivity.
  - unfold broadcastChatMessage, terminator. simpl. rewrite <- app_assoc. reflexivity.
Qed.

(** When reading the body fails, the chunks read so far have been sent and
    the error goes to [onError]. *)
Lemma reply_failed_stream (id : JsId) (cs : list string) (e : string) (s : Agent) :
  run (reply id (mkBody cs (Some e))) s =
  (Thrown (onError (HostError e)),
   with_outbox (outbox s ++ map (chunkMessage id) cs) s).
Proof. rewrite run_reply. cbn [failure chunks]. rewrite app_nil_r. reflexivity. Qed.

Lemma with_controllers_twice (u v : gmap string AbortController) (s : Agent) :
  with_controllers v (with_controllers u s) = with_controllers v s.
Proof. reflexivity. Qed.

(** C8 (as amended).  The handler of a cancel message returns normally,
    with exactly the effect of [cancelChatRequest].  For an id without an
    entry it changes nothing: an id never asked for, an id whose entry has
    been removed, and so an id whose [onFinish] has run to its end.  For an
    id with an entry it marks the entry aborted and changes nothing else.
    Cancelling twice is cancelling once. *)
Theorem cancel_is_idempotent (connectionId : string) (id : JsId) (s : Agent) :
  run (onMessage connectionId (Text (Some (ChatRequestCancel id)))) s
    = (Returned tt, cancelChatRequest id s)
  /\ (forall k, id = IdString k -> chatMessageAbortControllers s !! k = None ->
        cancelChatRequest id s = s)
  /\ (forall k, id = IdString k -> is_Some (chatMessageAbortControllers s !! k) ->
        cancelChatRequest id s
        = with_controllers (<[k := mkController true]> (chatMessageAbortControllers s)) s)
  /\ cancelChatRequest id (removeAbortController id s) = removeAbortController id s
  /\ (forall msgs,
        fst (run (onFinish connectionId msgs id) s) = Returned tt ->
        cancelChatRequest id (snd (run (onFinish connectionId msgs id) s))
        = snd (run (onFinish connectionId msgs id) s))
  /\ cancelChatRequest id (cancelChatRequest id s) = cancelChatRequest id s.
Proof.
  assert (Hrem : forall t : Agent,
            cancelChatRequest id (removeAbortController id t) = removeAbortController id t).
  { intros t. destruct id as [k|]; simpl; [|reflexivity].
    rewrite lookup_delete_eq. reflexivity. }
  split; [reflexivity|]. split; [|split; [|split; [|split]]].
  - intros k -> Hk. simpl. rewrite Hk. reflexivity.
  - intros k -> [c Hk]. simpl. rewrite Hk. reflexivity.
  - apply Hrem.
  - intros msgs. unfold onFinish, persistMessages, host_, host.
    cbn [run bind modify ask settle fst snd world with_world].
    destruct (fst (persist msgs [connectionId] (world s))) as [e|];
      cbn [run bind modify settle fst snd]; [discriminate|].
    intros _. apply Hrem.
  - destruct id as [k|]; simpl; [|reflexivity].
    destruct (chatMessageAbortControllers s !! k) as [c|] eqn:E; simpl.
    + rewrite lookup_insert_eq. simpl. rewrite insert_insert_eq. reflexivity.
    + rewrite E. reflexivity.
Qed.

Lemma reply_keeps_controllers (id : JsId) (b : Body) (s : Agent) :
  chatMessageAbortControllers (snd (run (reply id b) s)) = chatMessageAbortControllers s.
Proof. rewrite run_reply. reflexivity. Qed.




End Chat.

Section ChatOnSample.
#[local] Instance chatSample : Host := Sample.sampleHost true 40.

Lemma cancel_is_idempotent_sample :
  cancelChatRequest (IdString "r2") Sample.pendingAgent = Sample.pendingAgent.
Proof.
  refine (proj1 (proj2 (cancel_is_idempotent "c1" (IdString "r2") Sample.pendingAgent))
            "r2" _ _).
  - reflexivity.
  - vm_compute. reflexivity.
Defined.

(** C8, as stated, on the code: on the agent 'general' the request "r1" is
    handled to its end and returns, its entry is still in the map, and the
    cancel message that follows changes the state: the entry is now
    aborted. *)
Lemma cancel_after_completion_changes_state :
  fst (run (onMessage "c1" chatRequest) generalAgent) = Returned tt
  /\ chatMessageAbortControllers (snd (run (onMessage "c1" chatRequest) generalAgent))
       !! "r1" = Some (mkController false)
  /\ fst (run (onMessage "c1" Sample.cancelR1)
            (snd (run (onMessage "c1" chatRequest) generalAgent))) = Returned tt
  /\ chatMessageAbortControllers
       (snd (run (onMessage "c1" Sample.cancelR1)
               (snd (run (onMessage "c1" chatRequest) generalAgent)))) !! "r1"
     = Some (mkController true)
  /\ snd (run (onMessage "c1" Sample.cancelR1)
            (snd (run (onMessage "c1" chatRequest) generalAgent)))
     <> snd (run (onMessage "c1" chatRequest) generalAgent).
Proof.
  do 4 (split; [vm_compute; reflexivity|]).
  intros E.
  apply (f_equal (fun t : Agent => chatMessageAbortControllers t !! "r1")) in E.
  vm_compute in E. discriminate E.
Qed.



(** A chat request handled from start to end: the messages go to the other
    connections, then the two chunks and the terminator go to all. *)
Example chat_request_streams :
  map fst (outbox (snd (run (onMessage "c1" chatRequest) (Sample.agent0 true 40 []))))
  = [ChatMessages ["hi"];
     UseChatResponse (IdString "r1") "a" false;
     UseChatResponse (IdString "r1") "b" false;
     UseChatResponse (IdString "r1") "" true].
Proof. vm_compute. reflexivity. Qed.

End ChatOnSample.

Section ChatOnReset.
#[local] Instance chatReset : Host := resetHost.

(** C7, as stated, on the code: the body of the response fails after its
    first chunk.  The chunk is sent with [done: false], the handler throws,
    and no message with [done: true] is sent for the request. *)
Lemma failed_stream_sends_no_terminator :
  fst (run (onMessage "c1" chatRequest) resetAgent) = Thrown (HostError "reset")
  /\ map fst (outbox (snd (run (onMessage "c1" chatRequest) resetAgent)))
     = [ChatMessages ["hi"]; UseChatResponse (IdString "r1") "a" false]
  /\ ~ In (terminator (IdString "r1"))
          (outbox (snd (run (onMessage "c1" chatRequest) resetAgent)))
  /\ Forall (fun m => forall body, fst m <> UseChatResponse (IdString "r1") body true)
       (outbox (snd (run (onMessage "c1" chatRequest) resetAgent))).
Proof.
  split; [vm_compute; reflexivity|]. split; [vm_compute; reflexivity|].
  split.
  - vm_compute. intros [E|[E|[]]]; discriminate E.
  - vm_compute. repeat constructor; intros body E; discriminate E.
Qed.

End ChatOnReset.
End ChatFacts.

(** ** Synchronisation *)

Module SyncFacts.
Local Open Scope list_scope.
Import Cache Agent ZeroAgent ProgFacts.
Local Open Scope prog_scope.

Ltac prog_cbn :=
  cbn [run bind tryCatch tryFinally gets modify ask settle host host_ record await_ sleep
       fst snd negb andb
       name driver chatMessageAbortControllers foldersInSync syncThreadsInProgress
       currentFolder table outbox background calls world
       with_driver with_controllers with_foldersInSync with_syncThreadsInProgress
       with_table with_outbox with_background with_calls with_world
       getWithRetry listWithRetry releaseThread broadcastChatMessage startSync] in *.

Ltac seg_cbn :=
  cbn [segment bind tryCatch tryFinally gets modify ask settle host host_ record
       await_ sleep fst snd negb andb
       name driver chatMessageAbortControllers foldersInSync syncThreadsInProgress
       currentFolder table outbox background calls world
       with_driver with_controllers with_foldersInSync with_syncThreadsInProgress
       with_table with_outbox with_background with_calls with_world
       getWithRetry listWithRetry releaseThread broadcastChatMessage startSync].

Ltac case_settle :=
  match goal with
  | H : context [settle ?x] |- _ => destruct x eqn:?
  | |- context [settle ?x] => destruct x eqn:?
  end.

Section Sync.
Context `{Host}.

Lemma syncThread_settles (threadId : string) (s s' : Agent) (o : Outcome SyncThreadResult) :
  driver s = true ->
  run (syncThread threadId) s = (o, s') ->
  o <> Unfinished
  /\ o <> Thrown ThreadNotFound
  /\ calls s' = calls s ++ [CSync threadId]
  /\ driver s' = true
  /\ foldersInSync s' = foldersInSync s
  /\ syncThreadsInProgress s' !! threadId =
       (if bool_decide (is_Some (syncThreadsInProgress s !! threadId))
        then syncThreadsInProgress s !! threadId else None).
Proof.
  intros Hd Hr. unfold syncThread in Hr.
  repeat (prog_cbn; try rewrite Hd in Hr; try case_settle; try case_match; simplify_eq);
    prog_cbn; repeat split; try congruence;
    try (rewrite lookup_delete_eq; reflexivity).
Qed.

Lemma syncPage_settles (ids : list string) (s : Agent) :
  driver s = true ->
  exists s',
    run (syncPage ids) s = (Returned tt, s')
    /\ calls s' = calls s ++ map CSync ids
    /\ driver s' = true
    /\ foldersInSync s' = foldersInSync s.
Proof.
  revert s. induction ids as [|i ids IH]; intros s Hd.
  - exists s. simpl. rewrite app_nil_r. auto.
  - cbn [syncPage]. rewrite run_bind, run_tryCatch, run_bind, run_await.
    destruct (run (syncThread i) s) as [o s1] eqn:E.
    destruct (syncThread_settles i s s1 o Hd E) as (Hu & _ & Hc & Hd1 & Hf & _).
    destruct o as [a|e|]; [| |congruence]; prog_cbn;
      destruct (IH s1 Hd1) as (s' & Hr & Hc' & Hd' & Hf'); exists s';
      (split; [exact Hr|]); rewrite Hc', Hc, Hf', Hf, <- app_assoc; auto.
Qed.

Lemma fetches_app (a b : list Call) : fetches (a ++ b) = fetches a ++ fetches b.
Proof. apply omap_app. Qed.

Lemma fetches_syncs (ids : list string) : fetches (map CSync ids) = [].
Proof. induction ids; auto. Qed.

Lemma loop_verdict_cons (n : nat) (o : Outcome SyncThreadsResult)
    (f : option string * (string + option string))
    (l : list (option string * (string + option string))) :
  continues f -> loop_verdict n o l -> loop_verdict (S n) o (f :: l).
Proof.
  intros Hf. destruct o as [r|e|]; simpl.
  - intros (Hm & init & last & -> & Hi & Hl). split; [exact Hm|].
    exists (f :: init), last. repeat split; [constructor|]; assumption.
  - intros (init & last & msg & -> & Hi & Hl & He).
    exists (f :: init), last, msg. repeat split; [constructor| |]; assumption.
  - intros [Hlen Hall]. split; [congruence | constructor; assumption].
Qed.

Lemma syncLoop_trace (bound : nat) (folder : string) (total : Z) (tok : option string)
    (s s' : Agent) (o : Outcome SyncThreadsResult) :
  driver s = true ->
  run (syncLoop bound folder total tok) s = (o, s') ->
  foldersInSync s' = foldersInSync s
  /\ exists l, fetches (calls s') = fetches (calls s) ++ l /\ loop_verdict bound o l.
Proof.
  revert total tok s s' o. induction bound as [|n IH]; intros total tok s s' o Hd Hr.
  - simpl in Hr. simplify_eq. split; [reflexivity|]. exists []. rewrite app_nil_r.
    repeat split; constructor.
  - cbn [syncLoop] in Hr. prog_cbn. rewrite Hd in Hr. prog_cbn.
    destruct (driver_list folder maxCount (if Js.truthy tok then tok else None) (world s))
      as [[msg|page] w] eqn:E; prog_cbn.
    + simplify_eq. prog_cbn. split; [reflexivity|]. eexists. rewrite fetches_app. split; [reflexivity|].
      simpl. exists [], (if Js.truthy tok then tok else None, inl msg), msg.
      repeat split; constructor.
    + rewrite run_bind in Hr.
      match type of Hr with context [run (syncPage ?ids) ?s1] =>
        destruct (syncPage_settles ids s1) as (s2 & Hp & Hc & Hd2 & Hf); [exact Hd|]
      end.
      rewrite Hp in Hr. prog_cbn.
      set (f := (if Js.truthy tok then tok else None,
                 @inr string (option string) (page_nextPageToken page))).
      assert (Hfetch : fetches (calls s2) = fetches (calls s) ++ [f]).
      { rewrite Hc, !fetches_app, fetches_syncs, app_nil_r. reflexivity. }
      destruct (bool_decide (page_nextPageToken page ≠ None)) eqn:Ht;
        [destruct shouldLoop eqn:Hl|]; simpl in Hr.
      * apply IH in Hr; [|exact Hd2]. destruct Hr as (Hf' & l & Hl' & Hv).
        split; [simpl in Hf'; congruence|]. exists (f :: l). split.
        -- simpl in Hl'. rewrite Hl', Hfetch, <- app_assoc. reflexivity.
        -- apply loop_verdict_cons; [|exact Hv]. split; [exact Hl|].
           apply bool_decide_eq_true in Ht.
           destruct (page_nextPageToken page) as [t|] eqn:Et; [|congruence].
           exists t. reflexivity.
      * simplify_eq. split; [simpl; congruence|]. exists [f]. split; [exact Hfetch|].
        simpl. split; [reflexivity|]. exists [], f. repeat split; [constructor|].
        exists (page_nextPageToken page). split; [reflexivity | right; exact Hl].
      * simplify_eq. split; [simpl; congruence|]. exists [f]. split; [exact Hfetch|].
        simpl. split; [reflexivity|]. exists [], f. repeat split; [constructor|].
        exists (page_nextPageToken page). split; [reflexivity | left].
        apply bool_decide_eq_false in Ht. destruct (page_nextPageToken page); [exfalso; apply Ht; discriminate | reflexivity].
Qed.

Lemma syncThreads_cases (bound : nat) (folder : string) (s s' : Agent)
    (o : Outcome SyncThreadsResult) :
  driver s = true ->
  run (syncThreads bound folder) s = (o, s') ->
  (is_Some (foldersInSync s !! folder)
   /\ o = Returned (mkSynced 0 (Some "Sync already in progress")) /\ s' = s)
  \/ (foldersInSync s !! folder = None
      /\ (maxCount <=? getThreadCount s) && negb shouldLoop = true
      /\ o = Returned (mkSynced 0 (Some "Threads already synced")) /\ s' = s)
  \/ (foldersInSync s !! folder = None
      /\ (maxCount <=? getThreadCount s) && negb shouldLoop = false
      /\ (exists l, fetches (calls s') = fetches (calls s) ++ l /\ loop_verdict bound o l)
      /\ (o <> Unfinished -> foldersInSync s' !! folder = None)).
Proof.
  intros Hd Hr. unfold syncThreads in Hr. prog_cbn. rewrite Hd in Hr. prog_cbn.
  case_bool_decide as Hb; prog_cbn.
  { left. simplify_eq. auto. }
  right. assert (Hn : foldersInSync s !! folder = None).
  { destruct (foldersInSync s !! folder) eqn:E; [exfalso; apply Hb; eauto | reflexivity]. }
  destruct ((maxCount <=? getThreadCount s) && negb shouldLoop) eqn:Ec; prog_cbn.
  { left. simplify_eq. auto. }
  right. split; [exact Hn|]. split; [reflexivity|].
  rewrite run_tryFinally, run_rethrow in Hr.
  match type of Hr with context [run (syncLoop _ _ _ _) ?s1] =>
    destruct (run (syncLoop bound folder 0 None) s1) as [o1 s2] eqn:El;
    apply syncLoop_trace in El; [|exact Hd]
  end.
  destruct El as (Hf & l & Hl & Hv). simpl in Hl.
  destruct o1 as [r|e|]; prog_cbn; simplify_eq; prog_cbn;
    (split; [exists l; split; assumption|]); intros Hu;
    try congruence; apply lookup_delete_eq.
Qed.

Lemma readThread_miss (threadId : string) (onMiss : Prog IGetThreadResponse) (s : Agent) :
  cached threadId s = None ->
  run (readThread threadId onMiss) s =
  run onMiss (with_calls (calls s ++ [CRead threadId]) s).
Proof.
  intros Hm. unfold readThread. rewrite run_rethrow. unfold cached in *. prog_cbn.
  rewrite Hm.
  reflexivity.
Qed.

Lemma readThread_hit (threadId : string) (onMiss : Prog IGetThreadResponse)
    (row : ThreadRow) (s s' : Agent) (o : Outcome IGetThreadResponse) :
  cached threadId s = Some row ->
  run (readThread threadId onMiss) s = (o, s') ->
  o <> Unfinished /\ o <> Thrown ThreadNotFound
  /\ calls s' = calls s ++ [CRead threadId] /\ table s' = table s.
Proof.
  intros Hm Hr. unfold readThread in Hr. rewrite run_rethrow in Hr.
  unfold cached in *. prog_cbn. rewrite Hm in Hr. prog_cbn.
  repeat (try case_settle; prog_cbn; simplify_eq); prog_cbn; repeat split; congruence.
Qed.

Lemma failed_fetch_is_last (bound : nat) (o : Outcome SyncThreadsResult)
    (l : list (option string * (string + option string))) (tok : option string)
    (msg : string) :
  loop_verdict bound o l -> (tok, inl msg) ∈ l -> o = Thrown (HostError msg).
Proof.
  assert (Hno : forall init, Forall continues init -> (tok, inl msg) ∈ init -> False).
  { intros init Hall Hin. rewrite Forall_forall in Hall.
    destruct (Hall _ Hin) as [_ [t Ht]]. discriminate. }
  destruct o as [r|e|]; simpl.
  - intros (_ & init & last & -> & Hi & next & Hl & _) Hin.
    apply elem_of_app in Hin as [Hin|Hin]; [destruct (Hno _ Hi Hin)|].
    apply list_elem_of_singleton in Hin. subst last. discriminate.
  - intros (init & last & msg' & -> & Hi & Hl & ->) Hin.
    apply elem_of_app in Hin as [Hin|Hin]; [destruct (Hno _ Hi Hin)|].
    apply list_elem_of_singleton in Hin. subst last. simpl in Hl. congruence.
  - intros [_ Hall] Hin. destruct (Hno _ Hall Hin).
Qed.

(** C4 (as amended).  Past the driver and in-progress checks, [syncThreads]
    returns at once, with zero synced and the state untouched, when the cache
    holds at least [maxCount] rows and the loop is disabled.  Otherwise it
    fetches pages: when it returns, every fetch but the last brought a token
    with the loop enabled, and the last brought no token or found the loop
    disabled; when it throws, the last fetch failed; and it is still running
    after [bound] pages only if each of them brought a token with the loop
    enabled. *)
Theorem syncThreads_stops (bound : nat) (folder : string) (s s' : Agent)
    (o : Outcome SyncThreadsResult) :
  driver s = true ->
  foldersInSync s !! folder = None ->
  run (syncThreads bound folder) s = (o, s') ->
  if (maxCount <=? getThreadCount s) && negb shouldLoop
  then o = Returned (mkSynced 0 (Some "Threads already synced")) /\ s' = s
  else exists l, fetches (calls s') = fetches (calls s) ++ l /\ loop_verdict bound o l.
Proof.
  intros Hd Hn Hr.
  destruct (syncThreads_cases bound folder s s' o Hd Hr)
    as [(Hb & _) | [(_ & Hc & Ho & Hs) | (_ & Hc & Hl & _)]].
  - rewrite Hn in Hb. destruct Hb as [x Hx]. discriminate.
  - rewrite Hc. auto.
  - rewrite Hc. exact Hl.
Qed.

(** How the guard is taken: [syncThread] tests and sets its mark within one
    synchronous stretch, [syncThreads] is suspended between the test and
    the set. *)
Lemma syncThreads_busy_returns (bound : nat) (folder : string) (s : Agent) :
  driver s = true ->
  is_Some (foldersInSync s !! folder) ->
  segment (syncThreads bound folder) s =
  (Settled (Returned (mkSynced 0 (Some "Sync already in progress"))), s).
Proof.
  intros Hd Hb. unfold syncThreads. seg_cbn. rewrite Hd. seg_cbn.
  rewrite bool_decide_eq_true_2 by exact Hb. reflexivity.
Qed.

Lemma syncThread_busy_returns (threadId : string) (s : Agent) :
  driver s = true ->
  is_Some (syncThreadsInProgress s !! threadId) ->
  segment (syncThread threadId) s =
  (Settled (Returned SkippedInProgress), with_calls (calls s ++ [CSync threadId]) s).
Proof.
  intros Hd Hb. unfold syncThread. seg_cbn. rewrite Hd. seg_cbn. rewrite Hd. seg_cbn.
  rewrite bool_decide_eq_true_2 by exact Hb. reflexivity.
Qed.

Lemma syncThread_marks_at_once (threadId : string) (s : Agent) :
  driver s = true ->
  syncThreadsInProgress s !! threadId = None ->
  syncThreadsInProgress (snd (segment (syncThread threadId) s)) !! threadId = Some true
  /\ pending (fst (segment (syncThread threadId) s)) = true.
Proof.
  intros Hd Hn. unfold syncThread. seg_cbn. rewrite Hd. seg_cbn. rewrite Hd. seg_cbn.
  rewrite bool_decide_eq_false_2 by (rewrite Hn; intros [x Hx]; discriminate).
  seg_cbn. rewrite Hd. seg_cbn.
  split; [apply lookup_insert_eq | reflexivity].
Qed.

Lemma syncThreads_suspends_unmarked (bound : nat) (folder : string) (s : Agent) :
  driver s = true ->
  foldersInSync s !! folder = None ->
  snd (segment (syncThreads bound folder) s) = s
  /\ pending (fst (segment (syncThreads bound folder) s)) = true.
Proof.
  intros Hd Hn. unfold syncThreads. seg_cbn. rewrite Hd. seg_cbn.
  rewrite bool_decide_eq_false_2 by (rewrite Hn; intros [x Hx]; discriminate).
  seg_cbn. split; reflexivity.
Qed.

(** The stretch that follows [await this.getThreadCount()] does not look at
    the mark again: on any state it sets the mark and goes on to the loop. *)
Lemma syncThreads_resumes_into_loop (bound : nat) (folder : string) (s : Agent) :
  driver s = true ->
  foldersInSync s !! folder = None ->
  (maxCount <=? getThreadCount s) && negb shouldLoop = false ->
  bound <> O ->
  exists k,
    segment (syncThreads bound folder) s = (Suspended k, s)
    /\ forall t, pending (fst (segment k t)) = true
                 /\ foldersInSync (snd (segment k t)) = <[folder := true]> (foldersInSync t).
Proof.
  intros Hd Hn Hc Hb. destruct bound as [|n]; [contradiction|].
  eexists. split.
  - unfold syncThreads. seg_cbn. rewrite Hd. seg_cbn.
    rewrite bool_decide_eq_false_2 by (rewrite Hn; intros [x Hx]; discriminate).
    seg_cbn. reflexivity.
  - intros t. rewrite Hc. cbn [syncLoop]. seg_cbn. split; reflexivity.
Qed.

(** Whatever the host: two calls for an unmarked folder made in one turn,
    then resumed, are both in flight, past the test of the mark. *)
Lemma same_turn_calls_both_pass (bound : nat) (folder : string) (s : Agent) :
  driver s = true ->
  foldersInSync s !! folder = None ->
  (maxCount <=? getThreadCount s) && negb shouldLoop = false ->
  bound <> O ->
  map pending
    (tasks (schedule bound
              [CallSyncThreads folder; CallSyncThreads folder; Resume 0; Resume 1]
              (mkPool s []))) = [true; true]
  /\ foldersInSync
       (agent (schedule bound
                 [CallSyncThreads folder; CallSyncThreads folder; Resume 0; Resume 1]
                 (mkPool s []))) !! folder = Some true.
Proof.
  intros Hd Hn Hc Hb.
  destruct (syncThreads_resumes_into_loop bound folder s Hd Hn Hc Hb) as (k & Hk & Hres).
  unfold schedule. cbn [fold_left step agent tasks]. rewrite Hk.
  cbn [fst snd app]. rewrite Hk.
  cbn [fst snd app lookup list_lookup agent tasks insert list_insert].
  destruct (Hres s) as [Hp0 Hf0].
  destruct (segment k s) as [t0 s0] eqn:E0. cbn [fst snd] in *.
  destruct (Hres s0) as [Hp1 Hf1].
  destruct (segment k s0) as [t1 s1] eqn:E1. cbn [fst snd map agent tasks] in *.
  rewrite Hp0, Hp1, Hf1. split; [reflexivity | apply lookup_insert_eq].
Qed.

Lemma listThreads_runs_query (r : ListRequest) (s : Agent) :
  driver s = true ->
  run (listThreads r) s =
  (match Cache.queryThreads toUpperCase (toParams r) (table s) with
   | DatatypeMismatch => Thrown (HostError "datatype mismatch")
   | _ => Returned (Cache.getThreadsFromDB toUpperCase (toParams r) (table s))
   end, s).
Proof.
  intros Hd. unfold listThreads, getThreadsFromDB. prog_cbn. rewrite Hd. prog_cbn.
  destruct (queryThreads toUpperCase (toParams r) (table s)); reflexivity.
Qed.

End Sync.

Section OnSample.
#[local] Instance syncSample : Host := Sample.sampleHost true 40.

Lemma syncThreads_stops_sample :
  exists l,
    fetches (calls (snd (run (syncThreads 5 "inbox") (agent Sample.pool0)))) =
    fetches (calls (agent Sample.pool0)) ++ l
    /\ loop_verdict 5 (fst (run (syncThreads 5 "inbox") (agent Sample.pool0))) l.
Proof.
  refine (syncThreads_stops 5 "inbox" (agent Sample.pool0) _ _ _ _ _).
  - reflexivity.
  - vm_compute. reflexivity.
  - apply surjective_pairing.
Defined.

(** A thread whose sync fails is skipped and the next one is cached; a page
    fetch that fails ends the call with its error and the mark removed. *)
Example bad_thread_is_skipped :
  fst (run (syncThread "bad") (agent Sample.pool0)) = Thrown (HostError "404")
  /\ fst (run (syncPage ["bad"; "t1"]) (agent Sample.pool0)) = Returned tt
  /\ map row_id (table (snd (run (syncPage ["bad"; "t1"]) (agent Sample.pool0)))) = ["t1"].
Proof. repeat apply conj; vm_compute; reflexivity. Qed.

Example failed_fetch_propagates :
  fst (run (syncThreads 5 "inbox") (Sample.agent0 true 40 [inl "rate limit"]))
    = Thrown (HostError "rate limit")
  /\ foldersInSync
       (snd (run (syncThreads 5 "inbox") (Sample.agent0 true 40 [inl "rate limit"])))
       !! "inbox" = None.
Proof. repeat apply conj; vm_compute; reflexivity. Qed.

(** A thread that the upstream cannot deliver: the read misses, and the one
    sync fails with the upstream's error. *)
Example get_unknown_thread :
  fst (run (get "bad") (agent Sample.pool0)) = Thrown (HostError "404")
  /\ calls (snd (run (get "bad") (agent Sample.pool0))) = [CRead "bad"; CSync "bad"].
Proof. repeat apply conj; vm_compute; reflexivity. Qed.

(** C1, on the code.  Two calls of [syncThreads] for the same folder are made
    in one synchronous turn.  Each finds the folder unmarked and is suspended
    at [await this.getThreadCount()]; resumed, each marks the folder and
    enters the loop, so that both are in flight with the folder marked.
    Resumed in turn, both fetch the first page of the folder; the call that
    finishes first removes the mark while the other is still in flight; and
    both return one thread synced, neither the in-progress answer. *)
Theorem same_turn_calls_both_sync :
  map pending (tasks (schedule 5 Sample.sameTurn Sample.pool0)) = [true; true]
  /\ foldersInSync (agent (schedule 5 Sample.sameTurn Sample.pool0)) !! "inbox" = Some true
  /\ map pending (tasks (schedule 5 (Sample.inTurn 2) Sample.pool0)) = [true; true]
  /\ calls (agent (schedule 5 (Sample.inTurn 2) Sample.pool0)) =
       [CList "inbox" None (inr None); CList "inbox" None (inr None)]
  /\ map pending (tasks (schedule 5 (Sample.inTurn 5) Sample.pool0)) = [true; false]
  /\ foldersInSync (agent (schedule 5 (Sample.inTurn 5) Sample.pool0)) !! "inbox" = None
  /\ tasks (schedule 5 (Sample.inTurn 7) Sample.pool0) =
       [Settled (Returned (mkSynced 1 None)); Settled (Returned (mkSynced 1 None))].
Proof. repeat apply conj; vm_compute; reflexivity. Qed.

(** The mark of a thread is tested and set in one stretch: of two calls of
    [syncThread] made in one turn, the second returns at once. *)
Example same_turn_thread_calls :
  fst (segment (syncThread "t1") (snd (segment (syncThread "t1") (agent Sample.pool0))))
  = Settled (Returned SkippedInProgress).
Proof. vm_compute. reflexivity. Qed.

End OnSample.

Section OnFullCache.
#[local] Instance fullCacheSample : Host := Sample.sampleHost true 1.

(** C4, as stated, on the code: the cache holds [maxCount] rows and the
    loop is enabled, and the call fetches a page and syncs its thread. *)
Lemma threshold_met_still_fetches :
  (maxCount <=? getThreadCount Sample.fullCache) = true
  /\ fst (run (syncThreads 5 "inbox") Sample.fullCache) = Returned (mkSynced 1 None)
  /\ fetches (calls (snd (run (syncThreads 5 "inbox") Sample.fullCache)))
     = [(None, inr None)].
Proof. repeat apply conj; vm_compute; reflexivity. Qed.

End OnFullCache.

End SyncFacts.

(** ** The archive hotkey *)

Module HotkeyFacts.
Import MailListHotkeys.
Local Open Scope list_scope.

(** C10.  With no email hovered and a non-empty selection, [archiveEmail]
    invokes the mark-as-unread mutation on the selected ids, and no other;
    and [archiveEmail] invokes [bulkArchive] exactly when an email is
    hovered. *)
Theorem archive_with_selection_marks_unread (hoveredEmailId : option string)
    (bulkSelected : list string) :
  Js.truthy hoveredEmailId = false ->
  bulkSelected <> [] ->
  invoked (archiveEmail hoveredEmailId bulkSelected) = [markAsUnreadAction bulkSelected]
  /\ (forall h sel, existsb is_bulkArchive (invoked (archiveEmail h sel)) = Js.truthy h).
Proof.
  intros Hh Hs. split.
  - unfold archiveEmail, hovered. rewrite Hh.
    destruct bulkSelected as [|x xs]; [contradiction | reflexivity].
  - intros h sel. unfold archiveEmail, hovered.
    destruct (Js.truthy h) eqn:E.
    + destruct h as [x|]; [reflexivity | discriminate].
    + destruct sel; reflexivity.
Qed.

Lemma archive_with_selection_sample :
  invoked (archiveEmail None ["t1"; "t2"]) = [markAsUnreadAction ["t1"; "t2"]].
Proof.
  refine (proj1 (archive_with_selection_marks_unread None ["t1"; "t2"] _ _)).
  - reflexivity.
  - discriminate.
Defined.

End HotkeyFacts.

(** ** Listing the cache *)

Module ListingFacts.
Import Cache CacheFacts.
Local Open Scope list_scope.

Lemma insert_desc_perm r l : insert_desc r l ≡ₚ r :: l.
Proof.
  induction l as [|h t IH]; simpl; [reflexivity|].
  destruct (recv_leb _ _); [reflexivity|].
  rewrite IH. apply perm_swap.
Qed.

Lemma order_by_perm l : order_by_received_desc l ≡ₚ l.
Proof.
  induction l as [|h t IH]; simpl; [reflexivity|].
  rewrite insert_desc_perm, IH. reflexivity.
Qed.

Lemma limited_sublist n l : limited n l `sublist_of` l.
Proof. unfold limited. destruct (n <? 0); [reflexivity | apply sublist_take]. Qed.

Lemma selected_elem (w : ThreadRow -> bool) n t r :
  r ∈ limited n (order_by_received_desc (filter w t)) -> r ∈ t /\ w r = true.
Proof.
  intros Hr. eapply elem_of_sublist in Hr; [|apply limited_sublist].
  rewrite order_by_perm in Hr. apply list_elem_of_filter in Hr as [Hw Hr].
  split; [exact Hr|]. destruct (w r); [reflexivity | contradiction].
Qed.

Lemma select_elem (w : ThreadRow -> bool) n t i d :
  (i, d) ∈ selected_rows w n t ->
  exists r, r ∈ t /\ w r = true /\ row_id r = i /\ latest_received_on r = d.
Proof.
  unfold selected_rows. intros Hin. apply list_elem_of_fmap in Hin as (r & Heq & Hr).
  apply selected_elem in Hr as [Hr Hw]. inversion Heq; subst. eauto.
Qed.

Lemma select_descending (w : ThreadRow -> bool) n t : descending (selected_rows w n t).
Proof.
  unfold selected_rows, descending.
  assert (HS : StronglySorted row_ge (limited n (order_by_received_desc (filter w t)))).
  { unfold limited. destruct (n <? 0); [|apply firstn_sorted]; apply order_by_sorted. }
  induction HS as [|h l HS IH Hall]; simpl; constructor; auto.
  apply Forall_fmap. eapply Forall_impl; [exact Hall|]. intros x Hx. exact Hx.
Qed.

Lemma select_length (w : ThreadRow -> bool) n t :
  0 <= n -> (length (selected_rows w n t) <= Z.to_nat n)%nat.
Proof.
  intros Hn. unfold selected_rows, limited. rewrite length_fmap.
  destruct (n <? 0) eqn:E; [apply Z.ltb_lt in E; lia|].
  rewrite length_take. lia.
Qed.

Lemma select_nodup (w : ThreadRow -> bool) n t :
  NoDup (map row_id t) -> NoDup (map fst (selected_rows w n t)).
Proof.
  intros Hnd. unfold selected_rows. rewrite map_map. simpl.
  assert (H1 : row_id <$> filter w t `sublist_of` row_id <$> t)
    by (apply fmap_sublist, sublist_filter).
  assert (H2 : NoDup (row_id <$> order_by_received_desc (filter w t))).
  { rewrite order_by_perm. exact (sublist_NoDup _ _ Hnd H1). }
  assert (H3 : row_id <$> limited n (order_by_received_desc (filter w t))
               `sublist_of` row_id <$> order_by_received_desc (filter w t))
    by (apply fmap_sublist, limited_sublist).
  exact (sublist_NoDup _ _ H2 H3).
Qed.

Lemma select_complete (w : ThreadRow -> bool) n t r :
  (n < 0 \/ Z.of_nat (length (filter w t)) <= n) ->
  r ∈ t -> w r = true ->
  (row_id r, latest_received_on r) ∈ selected_rows w n t.
Proof.
  intros Hn Hr Hw. unfold selected_rows.
  apply (list_elem_of_fmap_2 (fun r => (row_id r, latest_received_on r))).
  assert (Hin : r ∈ order_by_received_desc (filter w t)).
  { rewrite order_by_perm. apply list_elem_of_filter. rewrite Hw. split; [exact I | exact Hr]. }
  unfold limited. destruct (n <? 0) eqn:E; [exact Hin|].
  rewrite take_ge; [exact Hin|].
  apply Z.ltb_ge in E. destruct Hn as [Hn|Hn]; [lia|].
  rewrite (Permutation_length (order_by_perm _)). lia.
Qed.

Lemma query_shape (up : string -> string) p t rows :
  queryThreads up p t = Rows rows ->
  exists w, rows = selected_rows w (default 50 (maxResults p)) t
            /\ int64 (default 50 (maxResults p)) = true.
Proof.
  unfold queryThreads. intros Hq.
  repeat case_match; simplify_eq; rewrite int64_answer in Hq;
    destruct (int64 (default 50 (maxResults p))); simplify_eq; eexists; split; reflexivity.
Qed.


Lemma recv_leb_refl a : recv_leb a a = true.
Proof. destruct (recv_leb_total a a); assumption. Qed.

Lemma after_lt_false c d : String.leb c d = true -> String.ltb d c = true -> False.
Proof.
  unfold String.leb, String.ltb. rewrite (String.compare_antisym d c).
  destruct (String.compare c d); simpl; discriminate.
Qed.

Lemma descending_last rows x :
  descending (rows ++ [x]) ->
  Forall (fun row => recv_leb (snd x) (snd row) = true) (rows ++ [x]).
Proof.
  unfold descending. induction rows as [|h t IH]; simpl; intros HS.
  - constructor; [apply recv_leb_refl | constructor].
  - inversion HS as [|? ? HS' Hall]; subst. constructor.
    + rewrite Forall_forall in Hall. apply Hall. apply elem_of_app. right.
      apply list_elem_of_singleton. reflexivity.
    + apply IH. exact HS'.
Qed.

Lemma same_key_same_row (t : list ThreadRow) (r1 r2 : ThreadRow) :
  NoDup (map row_id t) -> r1 ∈ t -> r2 ∈ t -> row_id r1 = row_id r2 -> r1 = r2.
Proof.
  induction t as [|h t IH]; simpl; intros Hnd H1 H2 Hid; [inversion H1|].
  apply NoDup_cons in Hnd as [Hh Hnd].
  apply elem_of_cons in H1 as [->|H1]; apply elem_of_cons in H2 as [->|H2]; auto.
  - exfalso. apply Hh. rewrite Hid. apply (list_elem_of_fmap_2 row_id). exact H2.
  - exfalso. apply Hh. rewrite <- Hid. apply (list_elem_of_fmap_2 row_id). exact H1.
Qed.

Lemma cursor_query_shape (up : string -> string) p t c :
  pageToken p = Some c -> c <> "" ->
  int64 (default 50 (maxResults p)) = true ->
  exists w, queryThreads up p t = Rows (selected_rows w (default 50 (maxResults p)) t)
            /\ forall r, w r = true -> received_before c r = true.
Proof.
  intros Hp Hc Hn. destruct (cursor_statement up p t c Hp Hc) as (w & Hw & Hq).
  rewrite int64_answer, Hn in Hq. eauto.
Qed.

(** X1.  Whatever the parameters, when the listing runs a query its rows
    come in descending order of [latest_received_on], there are at most
    [maxResults] of them (50 by default) when that bound is not negative,
    each is the id and date of a row of the table, and no id is listed twice
    when the table has one row per id. *)
Theorem listing_is_sound (up : string -> string) (p : ListParams)
    (t : list ThreadRow) (rows : list (string * option string)) :
  queryThreads up p t = Rows rows ->
  descending rows
  /\ (0 <= default 50 (maxResults p) ->
      (length rows <= Z.to_nat (default 50%Z (maxResults p)))%nat)
  /\ (forall i d, (i, d) ∈ rows ->
        exists r, r ∈ t /\ row_id r = i /\ latest_received_on r = d)
  /\ (NoDup (map row_id t) -> NoDup (map fst rows)).
Proof.
  intros Hq. apply query_shape in Hq as (w & -> & _). repeat split.
  - apply select_descending.
  - apply select_length.
  - intros i d Hin. apply select_elem in Hin as (r & Hr & _ & Hi & Hd). eauto.
  - apply select_nodup.
Qed.

(** X2.  The [nextPageToken] of a listing: there is none when no thread is
    listed or when the number of threads differs from the limit; and when
    there is one, the page is full and the token is the
    [latest_received_on] of its last row, which no row of the page is
    older than. *)
Theorem next_page_token_is_last_row (up : string -> string) (p : ListParams)
    (t : list ThreadRow) (tl : ThreadList) :
  getThreadsFromDB up p t = Some tl ->
  (threads tl = [] -> nextPageToken tl = None)
  /\ (Z.of_nat (length (threads tl)) <> default 50 (maxResults p) ->
      nextPageToken tl = None)
  /\ (forall c, nextPageToken tl = Some c ->
        Z.of_nat (length (threads tl)) = default 50 (maxResults p)
        /\ exists rows i,
             queryThreads up p t = Rows rows
             /\ threads tl = map fst rows
             /\ last rows = Some (i, Some c)
             /\ Forall (fun row => recv_leb (Some c) (snd row) = true) rows).
Proof.
  unfold getThreadsFromDB. destruct (queryThreads up p t) as [rows| |] eqn:Hq; try discriminate.
  intros Heq. injection Heq as <-. unfold threadList. cbn [threads nextPageToken].
  split; [|split].
  - intros Hnil. rewrite Hnil. simpl.
    destruct (map fst rows) eqn:E; [|discriminate].
    destruct rows; [|discriminate]. simpl. rewrite andb_false_r. reflexivity.
  - intros Hne. apply Z.eqb_neq in Hne. rewrite Hne. reflexivity.
  - intros c Hc.
    destruct (Z.of_nat (length (map fst rows)) =? default 50 (maxResults p)) eqn:E;
      [|discriminate].
    split; [apply Z.eqb_eq in E; exact E|].
    destruct (0 <? Z.of_nat (length rows)); [|discriminate]. simpl in Hc.
    destruct (last rows) as [[i d]|] eqn:El; [|discriminate]. simpl in Hc. subst d.
    exists rows, i. split; [reflexivity|]. split; [reflexivity|]. split; [exact El|].
    assert (Hdesc : descending rows).
    { apply query_shape in Hq as (w & Hw & _). rewrite Hw. apply select_descending. }
    apply last_Some in El as [rows' ->].
    exact (descending_last rows' (i, Some c) Hdesc).
Qed.

(** X3.  Paging: when a listing hands back a non-empty [nextPageToken] and
    the same request is made again with it as [pageToken], the second
    listing runs a query, each of its rows is strictly older than the token,
    and, the table having one row per id, no thread of the first page is
    listed again. *)
Theorem next_page_is_older (up : string -> string) (p : ListParams)
    (t : list ThreadRow) (tl : ThreadList) (c : string) :
  getThreadsFromDB up p t = Some tl ->
  nextPageToken tl = Some c ->
  c <> "" ->
  NoDup (map row_id t) ->
  exists tl' rows',
    getThreadsFromDB up
      (mkParams (labelIds p) (folder p) (q p) (maxResults p) (Some c)) t = Some tl'
    /\ queryThreads up
         (mkParams (labelIds p) (folder p) (q p) (maxResults p) (Some c)) t = Rows rows'
    /\ threads tl' = map fst rows'
    /\ Forall (before c) rows'
    /\ (forall i, i ∈ threads tl -> i ∉ threads tl').
Proof.
  intros Hg Hn Hc Hnd.
  assert (Hrange : int64 (default 50 (maxResults p)) = true).
  { unfold getThreadsFromDB in Hg.
    destruct (queryThreads up p t) as [rows| |] eqn:Hq; try discriminate.
    apply query_shape in Hq as (w & _ & Hi). exact Hi. }
  destruct (cursor_query_shape up
              (mkParams (labelIds p) (folder p) (q p) (maxResults p) (Some c)) t c
              eq_refl Hc Hrange) as (w' & Hq' & Hw').
  cbn [maxResults] in Hq'.
  eexists _, _. split; [unfold getThreadsFromDB; rewrite Hq'; reflexivity|].
  split; [exact Hq'|]. split; [reflexivity|]. split.
  - apply select_spec. exact Hw'.
  - intros i Hi Hi'.
    unfold getThreadsFromDB in Hg.
    destruct (queryThreads up p t) as [rows| |] eqn:Hq; try discriminate.
    injection Hg as <-. unfold threadList in *. cbn [threads nextPageToken] in *.
    destruct (Z.of_nat (length (map fst rows)) =? default 50 (maxResults p)); [|discriminate].
    destruct (0 <? Z.of_nat (length rows)); [|discriminate]. simpl in Hn.
    destruct (last rows) as [[j d]|] eqn:El; [|discriminate]. simpl in Hn. subst d.
    apply last_Some in El as [rows0 Hrows].
    assert (Hdesc : descending rows).
    { apply query_shape in Hq as (w & Hw & _). rewrite Hw. apply select_descending. }
    rewrite Hrows in Hdesc. apply descending_last in Hdesc. rewrite <- Hrows in Hdesc.
    apply list_elem_of_fmap in Hi as ([i1 d1] & Hi1 & Hin1). simpl in Hi1. subst i1.
    apply list_elem_of_fmap in Hi' as ([i2 d2] & Hi2 & Hin2). simpl in Hi2. subst i2.
    rewrite Forall_forall in Hdesc. specialize (Hdesc _ Hin1). simpl in Hdesc.
    apply query_shape in Hq as (w & Hw & _). rewrite Hw in Hin1.
    apply select_elem in Hin1 as (r1 & Hr1 & _ & Hid1 & Hd1).
    apply select_elem in Hin2 as (r2 & Hr2 & Hw2 & Hid2 & Hd2).
    assert (r1 = r2) by (eapply same_key_same_row; eauto; congruence). subst r2.
    apply Hw' in Hw2. unfold received_before in Hw2. rewrite Hd1 in Hw2.
    destruct d1 as [d1|]; [|discriminate]. simpl in Hdesc.
    exact (after_lt_false _ _ Hdesc Hw2).
Qed.

End ListingFacts.

Module FolderFacts.
Import Cache Agent ZeroAgent CacheFacts ProgFacts SyncFacts ListingFacts.
Local Open Scope list_scope.

Lemma nothing_before_empty (r : ThreadRow) : received_before "" r = false.
Proof.
  unfold received_before. destruct (latest_received_on r) as [d|]; [|reflexivity].
  destruct d; reflexivity.
Qed.

Lemma select_none (w : ThreadRow -> bool) (n : Z) (t : list ThreadRow) :
  (forall r, w r = false) -> selected_rows w n t = [].
Proof.
  intros Hw. unfold selected_rows.
  assert (Hf : filter w t = []).
  { induction t as [|h t IH]; [reflexivity|]. rewrite filter_cons, IH.
    rewrite Hw. reflexivity. }
  rewrite Hf. simpl. unfold limited. destruct (n <? 0); [reflexivity|].
  rewrite firstn_nil. reflexivity.
Qed.

Lemma falsy_cases (o : option string) : Js.truthy o = false -> o = None \/ o = Some "".
Proof.
  destruct o as [c|]; [|auto]. simpl.
  destruct (String.eqb_spec c ""); [subst; auto | discriminate].
Qed.

Section Folder.
Context `{Host}.

(** X4.  [listThreads] and [list] for a folder, without label ids, with a
    driver.  When the limit is one SQLite takes (a 64-bit integer), the call
    returns a listing and leaves the agent as it is; each thread listed is a
    row of the cache that carries the upper-cased folder name as a label,
    received before the page token when a non-empty one is given; and
    without a page token, when the rows of the folder fit in the limit (or
    the limit is negative), every row of the folder is listed.  When the
    limit is not such an integer the statement is refused and the call
    throws.  The text of the folder condition is assumed not to contain
    [latest_received_on <], which is what the code looks for to tell a
    cursor condition. *)
Theorem folder_listing (r : ListRequest) (s : Agent) :
  driver s = true ->
  req_folder r <> "" ->
  default [] (req_labelIds r) = [] ->
  Js.includes (labelCondition (toUpperCase (req_folder r))) "latest_received_on <" = false ->
  if int64 (default 50 (req_maxResults r)) then
    exists tl,
      run (listThreads r) s = (Returned (Some tl), s)
      /\ (forall i, i ∈ threads tl ->
            exists row, row ∈ table s /\ row_id row = i
              /\ has_label (toUpperCase (req_folder r)) row = true
              /\ (Js.truthy (req_pageToken r) = true ->
                  received_before (default "" (req_pageToken r)) row = true))
      /\ (Js.truthy (req_pageToken r) = false ->
          (default 50 (req_maxResults r) < 0
           \/ Z.of_nat (length (filter (has_label (toUpperCase (req_folder r))) (table s)))
              <= default 50 (req_maxResults r)) ->
          forall row, row ∈ table s ->
            has_label (toUpperCase (req_folder r)) row = true ->
            row_id row ∈ threads tl)
  else run (listThreads r) s = (Thrown (HostError "datatype mismatch"), s).
Proof.
  intros Hd Hf Hl Hinc. rewrite (listThreads_runs_query r s Hd).
  pose proof (truthy_nonempty _ Hf) as Htf.
  unfold Cache.getThreadsFromDB, queryThreads, whereConditions, toParams.
  cbn [labelIds folder q maxResults pageToken]. rewrite Hl, Htf. cbn [default Js.truthy id].
  destruct (Js.truthy (req_pageToken r)) eqn:Ht.
  - cbn [app length Nat.eqb andb]. rewrite int64_answer.
    destruct (int64 (default 50 (req_maxResults r))); [|reflexivity].
    eexists. split; [reflexivity|].
    unfold threadList. cbn [threads]. split; [|discriminate].
    intros i Hi. apply list_elem_of_fmap in Hi as ([i' d] & -> & Hin).
    apply select_elem in Hin as (row & Hr & Hw & Hid & _).
    apply andb_true_iff in Hw as [Hw1 Hw2].
    exists row. repeat split; auto.
  - cbn [app]. rewrite Hinc, int64_answer.
    destruct (int64 (default 50 (req_maxResults r))); [|reflexivity].
    eexists. split; [reflexivity|].
    unfold threadList. cbn [threads]. split.
    + intros i Hi. apply list_elem_of_fmap in Hi as ([i' d] & -> & Hin).
      apply select_elem in Hin as (row & Hr & Hw & Hid & _).
      exists row. repeat split; auto. discriminate.
    + intros _ Hn row Hr Hw.
      apply (list_elem_of_fmap_2 fst _ (row_id row, latest_received_on row)).
      apply select_complete; assumption.
Qed.

(** X5.  [listThreads] and [list] for a folder together with label ids and
    no page token, with a driver: the statement that runs is the cursor one,
    with the empty text as cursor; so when the limit is one SQLite takes the
    call returns an empty listing without a next page, whatever the cache
    holds, and otherwise the statement is refused and the call throws.  The
    agent is left as it is. *)
Theorem folder_with_labels_lists_nothing (r : ListRequest) (s : Agent) :
  driver s = true ->
  req_folder r <> "" ->
  default [] (req_labelIds r) <> [] ->
  Js.truthy (req_pageToken r) = false ->
  run (listThreads r) s
  = (if int64 (default 50 (req_maxResults r))
     then Returned (Some (mkThreadList [] None))
     else Thrown (HostError "datatype mismatch"), s).
Proof.
  intros Hd Hf Hl Ht. rewrite (listThreads_runs_query r s Hd).
  pose proof (truthy_nonempty _ Hf) as Htf.
  unfold Cache.getThreadsFromDB, queryThreads, whereConditions, toParams, Js.orElse.
  cbn [labelIds folder q maxResults pageToken]. rewrite Htf, Ht. cbn [default Js.truthy].
  assert (Hsel : forall c, Js.truthy (Some c) = false ->
            selected_rows (received_before c) (default 50 (req_maxResults r)) (table s) = []).
  { intros c Hc. destruct (falsy_cases _ Hc) as [E|E]; [discriminate|].
    injection E as ->. apply select_none. apply nothing_before_empty. }
  assert (Hsel' : selected_rows (received_before "") (default 50 (req_maxResults r)) (table s) = [])
    by (apply select_none, nothing_before_empty).
  destruct (default [] (req_labelIds r)) as [|l1 [|l2 ls]]; [contradiction| |];
    cbn [app length Nat.eqb andb negb];
    destruct (req_pageToken r) as [c|] eqn:Ep; cbn [Js.truthy] in *;
    try rewrite Ht; rewrite int64_answer; try rewrite (Hsel _ Ht); try rewrite Hsel';
    destruct (int64 (default 50 (req_maxResults r)));
    unfold threadList; cbn; rewrite ?andb_false_r; reflexivity.
Qed.

End Folder.
End FolderFacts.

(** ** One thread *)

Module ThreadSyncFacts.
Local Open Scope list_scope.
Import Cache Agent ZeroAgent SyncTrace ProgFacts SyncFacts.
Local Open Scope prog_scope.

Section ThreadSync.
Context `{Host}.

Lemma not_marked (m : gmap string bool) (k : string) :
  bool_decide (is_Some (m !! k)) = false -> m !! k = None.
Proof.
  intros Hb. apply bool_decide_eq_false in Hb.
  destruct (m !! k) eqn:E; [exfalso; apply Hb; eauto | reflexivity].
Qed.

Lemma syncThread_effect (threadId : string) (s s' : Agent) (o : Outcome SyncThreadResult) :
  driver s = true ->
  run (syncThread threadId) s = (o, s') ->
  name s' = name s /\ driver s' = true
  /\ chatMessageAbortControllers s' = chatMessageAbortControllers s
  /\ foldersInSync s' = foldersInSync s
  /\ syncThreadsInProgress s' = syncThreadsInProgress s
  /\ currentFolder s' = currentFolder s
  /\ background s' = background s
  /\ match o with
     | Returned (Synced i td) =>
         i = threadId
         /\ fst (driver_get threadId (world s)) = inr td
         /\ exists l d,
              latest td = Some l /\ toISOString (receivedOn l) = Some d
              /\ table s' = upsertThread (newRow threadId l d) (table s)
              /\ outbox s' = outbox s ++
                   (if bool_decide (currentFolder s = Some "inbox")
                    then [(Mail_Get threadId, [])] else [])
     | _ => table s' = table s /\ outbox s' = outbox s
     end.
Proof.
  intros Hd Hr. unfold syncThread in Hr.
  repeat (prog_cbn; try rewrite Hd in Hr; try case_settle; try case_match; simplify_eq);
    prog_cbn;
    repeat match goal with
           | Hb : bool_decide (is_Some (_ !! _)) = false |- _ => apply not_marked in Hb
           end;
    rewrite ?delete_insert_id by assumption;
    rewrite ?app_nil_r;
    repeat split; try congruence; try assumption.
  all: eexists _, _; repeat split; try eassumption; reflexivity.
Qed.

Lemma upsert_lookup (r : ThreadRow) (t : list ThreadRow) :
  find (fun x => String.eqb (row_id x) (row_id r)) (upsertThread r t) = Some r.
Proof.
  unfold upsertThread. induction t as [|h t IH]; simpl.
  - rewrite String.eqb_refl. reflexivity.
  - rewrite filter_cons. destruct (String.eqb (row_id h) (row_id r)) eqn:E; simpl.
    + exact IH.
    + rewrite E. exact IH.
Qed.

Lemma upsert_lookup_other (r : ThreadRow) (t : list ThreadRow) (k : string) :
  k <> row_id r ->
  find (fun x => String.eqb (row_id x) k) (upsertThread r t)
  = find (fun x => String.eqb (row_id x) k) t.
Proof.
  intros Hk. unfold upsertThread. induction t as [|h t IH]; simpl.
  - destruct (String.eqb_spec (row_id r) k); [congruence | reflexivity].
  - rewrite filter_cons. destruct (String.eqb (row_id h) (row_id r)) eqn:E; simpl.
    + apply String.eqb_eq in E.
      destruct (String.eqb_spec (row_id h) k); [congruence | exact IH].
    + destruct (String.eqb (row_id h) k); [reflexivity | exact IH].
Qed.

Lemma upsert_keys (r : ThreadRow) (t : list ThreadRow) :
  NoDup (map row_id t) -> NoDup (map row_id (upsertThread r t)).
Proof.
  intros Hnd. unfold upsertThread. rewrite map_app. simpl.
  apply NoDup_app. split; [|split].
  - eapply sublist_NoDup; [exact Hnd|]. apply fmap_sublist, sublist_filter.
  - intros k Hk Hr. apply list_elem_of_singleton in Hr. subst k.
    apply list_elem_of_fmap in Hk as (x & Hx & Hin).
    apply list_elem_of_filter in Hin as [Hf _].
    rewrite Hx, String.eqb_refl in Hf. exact Hf.
  - apply NoDup_singleton.
Qed.

Lemma find_absent {A : Type} (f : A -> bool) (l : list A) :
  (forall x, x ∈ l -> f x = false) -> find f l = None.
Proof.
  induction l as [|h t IH]; simpl; intros Hall; [reflexivity|].
  rewrite (Hall h) by apply list_elem_of_here.
  apply IH. intros x Hx. apply Hall. apply list_elem_of_further. exact Hx.
Qed.

Lemma upsert_count (r : ThreadRow) (t : list ThreadRow) :
  NoDup (map row_id t) ->
  length (upsertThread r t) =
  match find (fun x => String.eqb (row_id x) (row_id r)) t with
  | Some _ => length t
  | None => S (length t)
  end.
Proof.
  unfold upsertThread. rewrite length_app. simpl.
  induction t as [|h t IH]; simpl; intros Hnd; [reflexivity|].
  apply NoDup_cons in Hnd as [Hh Hnd]. rewrite filter_cons.
  destruct (String.eqb (row_id h) (row_id r)) eqn:E; simpl.
  - apply String.eqb_eq in E.
    assert (Hno : find (fun x => String.eqb (row_id x) (row_id r)) t = None).
    { apply find_absent. intros x Hx. apply String.eqb_neq. intros Hxr.
      apply Hh. rewrite E, <- Hxr. apply (list_elem_of_fmap_2 row_id). exact Hx. }
    specialize (IH Hnd). rewrite Hno in IH. lia.
  - specialize (IH Hnd). destruct (find _ t); lia.
Qed.

(** X6.  When [syncThread] reports success, the thread data it returns is
    what the driver answered for that id; the cache then holds, under that
    id, the row made from the latest message and its normalised date; the
    rows of the other ids are as before; the table still has one row per
    id; the thread count has grown by one if the id was new and is
    unchanged otherwise; and a [Mail_Get] for the thread has been broadcast
    exactly when the current folder is the inbox. *)
Theorem syncThread_writes_through (threadId : string) (s s' : Agent)
    (i : string) (td : IGetThreadResponse) :
  driver s = true ->
  NoDup (map row_id (table s)) ->
  run (syncThread threadId) s = (Returned (Synced i td), s') ->
  i = threadId
  /\ fst (driver_get threadId (world s)) = inr td
  /\ (exists l d,
        latest td = Some l /\ toISOString (receivedOn l) = Some d
        /\ cached threadId s' = Some (newRow threadId l d))
  /\ (forall k, k <> threadId -> cached k s' = cached k s)
  /\ NoDup (map row_id (table s'))
  /\ getThreadCount s' =
       getThreadCount s + match cached threadId s with Some _ => 0 | None => 1 end
  /\ outbox s' = outbox s ++
       (if bool_decide (currentFolder s = Some "inbox")
        then [(Mail_Get threadId, [])] else []).
Proof.
  intros Hd Hnd Hr.
  destruct (syncThread_effect threadId s s' _ Hd Hr)
    as (_ & _ & _ & _ & _ & _ & _ & Hi & Hg & l & d & Hl & Hiso & Ht & Ho).
  split; [exact Hi|]. split; [exact Hg|]. unfold cached, getThreadCount. rewrite Ht.
  split; [|split; [|split; [|split]]].
  - exists l, d. split; [exact Hl|]. split; [exact Hiso|].
    exact (upsert_lookup (newRow threadId l d) (table s)).
  - intros k Hk. apply upsert_lookup_other. exact Hk.
  - apply upsert_keys. exact Hnd.
  - rewrite (upsert_count (newRow threadId l d) (table s) Hnd). cbn [row_id newRow].
    destruct (find _ (table s)); lia.
  - exact Ho.
Qed.

(** X7.  When [syncThread] does anything other than report success (it
    skips a thread in progress, finds no latest message, or throws), the
    cache and the messages sent are as before; the call itself is the only
    one recorded. *)
Theorem syncThread_failure_writes_nothing (threadId : string) (s s' : Agent)
    (o : Outcome SyncThreadResult) :
  driver s = true ->
  run (syncThread threadId) s = (o, s') ->
  (forall i td, o <> Returned (Synced i td)) ->
  table s' = table s /\ outbox s' = outbox s
  /\ calls s' = calls s ++ [CSync threadId].
Proof.
  intros Hd Hr Hno.
  destruct (syncThread_settles threadId s s' o Hd Hr) as (_ & _ & Hc & _).
  destruct (syncThread_effect threadId s s' o Hd Hr)
    as (_ & _ & _ & _ & _ & _ & _ & Ho).
  destruct o as [[|i td|i]|e|]; try (destruct Ho; auto).
  exfalso. exact (Hno i td eq_refl).
Qed.

(** X8.  A call of [syncThread] on a connected agent always ends, and when
    it has ended the threads marked as in progress are those that were
    marked before, as are the folders; pending chat requests and background
    work are untouched; and for a thread that is already marked the call
    returns at once, without reading or writing anything. *)
Theorem syncThread_restores_marks (threadId : string) (s s' : Agent)
    (o : Outcome SyncThreadResult) :
  driver s = true ->
  run (syncThread threadId) s = (o, s') ->
  o <> Unfinished
  /\ syncThreadsInProgress s' = syncThreadsInProgress s
  /\ foldersInSync s' = foldersInSync s
  /\ chatMessageAbortControllers s' = chatMessageAbortControllers s
  /\ background s' = background s
  /\ (is_Some (syncThreadsInProgress s !! threadId) ->
      o = Returned SkippedInProgress /\ table s' = table s /\ world s' = world s).
Proof.
  intros Hd Hr.
  destruct (syncThread_settles threadId s s' o Hd Hr) as (Hu & _).
  destruct (syncThread_effect threadId s s' o Hd Hr)
    as (_ & _ & Hc & Hf & Hm & _ & Hb & _).
  do 5 (split; [assumption|]).
  intros Hbusy. unfold syncThread in Hr. prog_cbn. rewrite Hd in Hr. prog_cbn.
  rewrite Hd in Hr. prog_cbn. rewrite bool_decide_eq_true_2 in Hr by exact Hbusy.
  prog_cbn. simplify_eq. repeat split; reflexivity.
Qed.

(** X9.  [setupAuth] does nothing for the connection id 'general' or when a
    driver is present.  Otherwise it looks the connection up once: if the
    lookup fails the error is thrown, the driver stays absent and no sync is
    started; if it answers, the driver is set exactly when a connection was
    found, and the syncs of inbox, sent, spam and archive are started, in
    this order, in either case.  The cache and the folder marks are not
    changed, and once a driver is present a further call does nothing. *)
Theorem setupAuth_effect (connectionId : string) (s s' : Agent) (o : Outcome unit) :
  run (setupAuth connectionId) s = (o, s') ->
  (connectionId = "general" \/ driver s = true -> o = Returned tt /\ s' = s)
  /\ (connectionId <> "general" -> driver s = false ->
      world s' = snd (find_connection connectionId (world s))
      /\ table s' = table s /\ foldersInSync s' = foldersInSync s
      /\ match fst (find_connection connectionId (world s)) with
         | inr found =>
             o = Returned tt /\ driver s' = found
             /\ background s' = background s ++ ["inbox"; "sent"; "spam"; "archive"]
         | inl e =>
             o = Thrown (HostError e) /\ driver s' = false
             /\ background s' = background s
         end)
  /\ (driver s' = true -> run (setupAuth connectionId) s' = (Returned tt, s')).
Proof.
  intros Hr. split; [|split].
  - intros Hc. unfold setupAuth in Hr.
    destruct (String.eqb_spec connectionId "general") as [Heq|Hne].
    + simpl in Hr. simplify_eq. auto.
    + destruct Hc as [Hc|Hd]; [contradiction|].
      prog_cbn. rewrite Hd in Hr. simpl in Hr. simplify_eq. auto.
  - intros Hne Hd. unfold setupAuth in Hr.
    destruct (String.eqb_spec connectionId "general") as [Heq|_]; [contradiction|].
    prog_cbn. rewrite Hd in Hr. prog_cbn.
    destruct (fst (find_connection connectionId (world s))) as [e|[|]] eqn:E;
      prog_cbn; simplify_eq; prog_cbn; rewrite <- ?app_assoc; repeat split; auto.
  - intros Hd. unfold setupAuth.
    destruct (String.eqb connectionId "general"); [reflexivity|].
    prog_cbn. rewrite Hd. reflexivity.
Qed.

Lemma syncPage_effect (ids : list string) (s : Agent) :
  driver s = true ->
  exists s',
    run (syncPage ids) s = (Returned tt, s')
    /\ calls s' = calls s ++ map CSync ids
    /\ driver s' = true
    /\ foldersInSync s' = foldersInSync s
    /\ syncThreadsInProgress s' = syncThreadsInProgress s
    /\ chatMessageAbortControllers s' = chatMessageAbortControllers s
    /\ background s' = background s.
Proof.
  revert s. induction ids as [|i ids IH]; intros s Hd.
  - exists s. simpl. rewrite app_nil_r. repeat split; auto.
  - cbn [syncPage]. rewrite run_bind, run_tryCatch, run_bind, run_await.
    destruct (run (syncThread i) s) as [o s1] eqn:E.
    destruct (syncThread_settles i s s1 o Hd E) as (Hu & _ & Hc & _).
    destruct (syncThread_effect i s s1 o Hd E) as (_ & Hd1 & Hk & Hf & Hm & _ & Hb & _).
    destruct o as [a|e|]; [| |congruence]; prog_cbn;
      destruct (IH s1 Hd1) as (s' & Hr & Hc' & Hd' & Hf' & Hm' & Hk' & Hb'); exists s';
      (split; [exact Hr|]); rewrite Hc', Hc, Hf', Hf, Hm', Hm, Hk', Hk, Hb', Hb, <- app_assoc;
      repeat split; auto.
Qed.

Lemma synced_ids_app (a b : list Call) : synced_ids (a ++ b) = synced_ids a ++ synced_ids b.
Proof. apply omap_app. Qed.

Lemma synced_ids_syncs (ids : list string) : synced_ids (map CSync ids) = ids.
Proof.
  induction ids as [|i ids IH]; [reflexivity|].
  change (i :: synced_ids (map CSync ids) = i :: ids). rewrite IH. reflexivity.
Qed.

Lemma syncLoop_accounting (bound : nat) (folder : string) (total : Z) (tok : option string)
    (s s' : Agent) (o : Outcome SyncThreadsResult) :
  driver s = true ->
  run (syncLoop bound folder total tok) s = (o, s') ->
  syncThreadsInProgress s' = syncThreadsInProgress s
  /\ chatMessageAbortControllers s' = chatMessageAbortControllers s
  /\ background s' = background s
  /\ exists l ids,
       fetches (calls s') = fetches (calls s) ++ l
       /\ synced_ids (calls s') = synced_ids (calls s) ++ ids
       /\ chained tok l
       /\ (forall r, o = Returned r -> synced r = total + Z.of_nat (length ids)).
Proof.
  revert total tok s s' o. induction bound as [|n IH]; intros total tok s s' o Hd Hr.
  - simpl in Hr. simplify_eq. do 3 (split; [reflexivity|]). exists [], [].
    rewrite !app_nil_r. do 3 (split; [reflexivity|]). intros r Hr. discriminate.
  - cbn [syncLoop] in Hr. prog_cbn. rewrite Hd in Hr. prog_cbn.
    destruct (driver_list folder maxCount (if Js.truthy tok then tok else None) (world s))
      as [[msg|page] w] eqn:E; prog_cbn.
    + simplify_eq. prog_cbn. do 3 (split; [reflexivity|]).
      exists [(if Js.truthy tok then tok else None, @inl string (option string) msg)], [].
      rewrite fetches_app, synced_ids_app. simpl. rewrite !app_nil_r.
      split; [reflexivity|]. split; [reflexivity|].
      split; [split; reflexivity|]. intros r Hr. discriminate.
    + rewrite run_bind in Hr.
      match type of Hr with context [run (syncPage ?ids) ?s1] =>
        destruct (syncPage_effect ids s1) as (s2 & Hp & Hc & Hd2 & Hf & Hm & Hk & Hb);
          [exact Hd|]
      end.
      rewrite Hp in Hr. prog_cbn.
      set (f := (if Js.truthy tok then tok else None,
                 @inr string (option string) (page_nextPageToken page))).
      assert (Hfetch : fetches (calls s2) = fetches (calls s) ++ [f]).
      { rewrite Hc, !fetches_app, fetches_syncs, app_nil_r. reflexivity. }
      assert (Hsync : synced_ids (calls s2) = synced_ids (calls s) ++ page_threads page).
      { rewrite Hc, !synced_ids_app, synced_ids_syncs. simpl. rewrite app_nil_r. reflexivity. }
      destruct (bool_decide (page_nextPageToken page ≠ None) && shouldLoop) eqn:Ht.
      * apply IH in Hr; [|exact Hd2].
        destruct Hr as (Hm' & Hk' & Hb' & l & ids & Hl & Hi & Hch & Hs).
        unfold broadcastChatMessage in *. cbn [syncThreadsInProgress chatMessageAbortControllers background calls with_outbox] in *.
        split; [rewrite Hm'; exact Hm|]. split; [rewrite Hk'; exact Hk|].
        split; [rewrite Hb'; exact Hb|].
        exists (f :: l), (page_threads page ++ ids).
        split; [rewrite Hl, Hfetch, <- app_assoc; reflexivity|].
        split; [rewrite Hi, Hsync, <- app_assoc; reflexivity|].
        split; [split; [reflexivity | exact Hch]|].
        intros r Hr. rewrite (Hs r Hr), length_app. lia.
      * cbn [run] in Hr. simplify_eq. unfold broadcastChatMessage. cbn [syncThreadsInProgress chatMessageAbortControllers background calls with_outbox].
        split; [exact Hm|]. split; [exact Hk|]. split; [exact Hb|].
        exists [f], (page_threads page). split; [exact Hfetch|]. split; [exact Hsync|].
        split; [split; [reflexivity | exact I]|].
        intros r Hr. simplify_eq. reflexivity.
Qed.

Lemma syncThreads_accounting (bound : nat) (folder : string) (s s' : Agent)
    (o : Outcome SyncThreadsResult) :
  driver s = true ->
  run (syncThreads bound folder) s = (o, s') ->
  syncThreadsInProgress s' = syncThreadsInProgress s
  /\ chatMessageAbortControllers s' = chatMessageAbortControllers s
  /\ background s' = background s
  /\ (forall f, f <> folder -> foldersInSync s' !! f = foldersInSync s !! f)
  /\ exists l ids,
       fetches (calls s') = fetches (calls s) ++ l
       /\ synced_ids (calls s') = synced_ids (calls s) ++ ids
       /\ chained None l
       /\ (forall r, o = Returned r ->
             synced r = Z.of_nat (length ids)
             /\ (message r <> None -> s' = s)).
Proof.
  intros Hd Hr. unfold syncThreads in Hr. prog_cbn. rewrite Hd in Hr. prog_cbn.
  assert (Hsame : forall r, o = Returned r -> s' = s ->
            synced r = 0 ->
            syncThreadsInProgress s' = syncThreadsInProgress s
            /\ chatMessageAbortControllers s' = chatMessageAbortControllers s
            /\ background s' = background s
            /\ (forall f, f <> folder -> foldersInSync s' !! f = foldersInSync s !! f)
            /\ exists l ids,
                 fetches (calls s') = fetches (calls s) ++ l
                 /\ synced_ids (calls s') = synced_ids (calls s) ++ ids
                 /\ chained None l
                 /\ (forall r, o = Returned r ->
                       synced r = Z.of_nat (length ids)
                       /\ (message r <> None -> s' = s))).
  { intros r -> -> Hz. do 4 (split; [reflexivity|]). exists [], [].
    rewrite !app_nil_r. do 3 (split; [reflexivity|]).
    intros r' Hr'. injection Hr' as <-. split; [exact Hz | reflexivity]. }
  case_bool_decide as Hb; prog_cbn.
  { simplify_eq. eapply Hsame; reflexivity. }
  destruct ((maxCount <=? getThreadCount s) && negb shouldLoop) eqn:Ec; prog_cbn.
  { simplify_eq. eapply Hsame; reflexivity. }
  clear Hsame.
  rewrite run_tryFinally, run_rethrow in Hr.
  match type of Hr with context [run (syncLoop _ _ _ _) ?s1] =>
    destruct (run (syncLoop bound folder 0 None) s1) as [o1 s2] eqn:El;
    assert (Hd1 : driver s1 = true) by exact Hd;
    pose proof (syncLoop_trace _ _ _ _ _ _ _ Hd1 El) as (Hf & lt & Hlt & Hv);
    apply syncLoop_accounting in El; [|exact Hd]
  end.
  destruct El as (Hm & Hk & Hbg & l & ids & Hl & Hi & Hch & Hs).
  cbn [syncThreadsInProgress chatMessageAbortControllers background calls foldersInSync
       with_foldersInSync] in *.
  destruct o1 as [r|e|]; prog_cbn; simplify_eq; prog_cbn;
    (split; [exact Hm|]); (split; [exact Hk|]); (split; [exact Hbg|]); (split;
      [intros f Hne; rewrite Hf; rewrite ?lookup_delete_ne by congruence;
       apply lookup_insert_ne; congruence|]);
    exists l, ids; (split; [exact Hl|]); (split; [exact Hi|]); (split; [exact Hch|]);
    intros r' Hr'; simplify_eq.
  specialize (Hs _ eq_refl). split; [lia|].
  intros Hmsg. exfalso. apply Hmsg. destruct Hv as [Hnone _]. exact Hnone.
Qed.

(** X10.  The [synced] count [syncThreads] returns is the number of calls
    of [syncThread] it has made, whether they succeeded or not; and when it
    returns with a [message] (sync in progress, or already synced), the
    count is 0 and the agent is as before. *)
Theorem synced_counts_attempts (bound : nat) (folder : string) (s s' : Agent)
    (r : SyncThreadsResult) :
  driver s = true ->
  run (syncThreads bound folder) s = (Returned r, s') ->
  (exists ids, synced_ids (calls s') = synced_ids (calls s) ++ ids
               /\ synced r = Z.of_nat (length ids))
  /\ (message r <> None -> synced r = 0 /\ s' = s).
Proof.
  intros Hd Hr.
  destruct (syncThreads_accounting bound folder s s' _ Hd Hr)
    as (_ & _ & _ & _ & l & ids & _ & Hi & _ & Hs).
  destruct (Hs r eq_refl) as [Hn Hm]. split; [eauto|].
  intros Hmsg. specialize (Hm Hmsg). split; [|exact Hm].
  subst s'. rewrite <- (app_nil_r (synced_ids (calls s))) in Hi at 1.
  apply app_inv_head in Hi. subst ids. exact Hn.
Qed.

(** X11.  The pages [syncThreads] fetches are chained: the first fetch sends
    no token, each later fetch sends the token the fetch before it answered
    with, and no fetch follows one that failed. *)
Theorem pages_are_chained (bound : nat) (folder : string) (s s' : Agent)
    (o : Outcome SyncThreadsResult) :
  driver s = true ->
  run (syncThreads bound folder) s = (o, s') ->
  exists l, fetches (calls s') = fetches (calls s) ++ l /\ chained None l.
Proof.
  intros Hd Hr.
  destruct (syncThreads_accounting bound folder s s' _ Hd Hr)
    as (_ & _ & _ & _ & l & ids & Hl & _ & Hch & _).
  eauto.
Qed.

(** X12.  Without a driver [syncThreads] throws and changes nothing.  With
    one, the thread marks, the pending chat requests and the background work
    are as before, as are the marks of the other folders; when the call has
    ended, by returning or by throwing, the folder marks are all as they
    were before the call, its own included; and a call for a folder that is
    marked changes nothing. *)
Theorem syncThreads_touches_only_its_mark (bound : nat) (folder : string) (s s' : Agent)
    (o : Outcome SyncThreadsResult) :
  run (syncThreads bound folder) s = (o, s') ->
  (driver s = false -> o = Thrown NoDriver /\ s' = s)
  /\ (driver s = true ->
      syncThreadsInProgress s' = syncThreadsInProgress s
      /\ chatMessageAbortControllers s' = chatMessageAbortControllers s
      /\ background s' = background s
      /\ (forall f, f <> folder -> foldersInSync s' !! f = foldersInSync s !! f)
      /\ (o <> Unfinished -> foldersInSync s' = foldersInSync s)
      /\ (is_Some (foldersInSync s !! folder) -> s' = s)).
Proof.
  intros Hr. split.
  - intros Hd. unfold syncThreads in Hr. prog_cbn. rewrite Hd in Hr. prog_cbn.
    simplify_eq. auto.
  - intros Hd.
    destruct (syncThreads_accounting bound folder s s' _ Hd Hr)
      as (Hm & Hk & Hb & Hf & _).
    do 4 (split; [assumption|]). split.
    + intros Hu. apply map_eq. intros f.
      destruct (decide (f = folder)) as [->|Hne]; [|apply Hf; exact Hne].
      destruct (syncThreads_cases bound folder s s' o Hd Hr)
        as [(_ & _ & ->)|[(_ & _ & _ & ->)|(Hn & _ & _ & Hrel)]]; try reflexivity.
      rewrite Hn. apply Hrel. exact Hu.
    + intros Hbusy. unfold syncThreads in Hr. prog_cbn. rewrite Hd in Hr. prog_cbn.
      rewrite bool_decide_eq_true_2 in Hr by exact Hbusy. prog_cbn. simplify_eq. reflexivity.
Qed.

Lemma findLast_spec {A : Type} (f : A -> bool) (l : list A) :
  match findLast f l with
  | Some x => f x = true /\ exists l1 l2, l = l1 ++ x :: l2 /\ Forall (fun y => f y = false) l2
  | None => Forall (fun y => f y = false) l
  end.
Proof.
  unfold findLast. induction l as [|a l IH] using rev_ind; simpl; [constructor|].
  rewrite rev_app_distr. simpl. rewrite filter_cons.
  destruct (f a) eqn:E; simpl.
  - split; [exact E|]. exists l, []. split; [reflexivity | constructor].
  - destruct (head (filter f (rev l))) as [x|].
    + destruct IH as [Hx (l1 & l2 & -> & Hall)]. split; [exact Hx|].
      exists l1, (l2 ++ [a]). split; [rewrite <- app_assoc; reflexivity|].
      apply Forall_app. split; [exact Hall | repeat constructor; exact E].
    + apply Forall_app. split; [exact IH | repeat constructor; exact E].
Qed.

Lemma readThread_hit_result (threadId : string) (onMiss : Prog IGetThreadResponse)
    (row : ThreadRow) (s s' : Agent) (o : Outcome IGetThreadResponse) :
  cached threadId s = Some row ->
  run (readThread threadId onMiss) s = (o, s') ->
  calls s' = calls s ++ [CRead threadId]
  /\ table s' = table s /\ outbox s' = outbox s
  /\ syncThreadsInProgress s' = syncThreadsInProgress s
  /\ foldersInSync s' = foldersInSync s
  /\ match o with
     | Returned r =>
         labels r = latest_label_ids row
         /\ hasUnread r = existsb (String.eqb "UNREAD") (latest_label_ids row)
         /\ latest r = findLast (fun e => negb (isDraft e)) (messages r)
         /\ totalReplies r = length (filter (fun e => negb (isDraft e)) (messages r))
         /\ match fst (bucket_get (getThreadKey s threadId) (world s)) with
            | inr (Some t) => messages r = messages t
            | inr None => messages r = []
            | inl _ => False
            end
     | Thrown e => exists msg, e = HostError msg
                     /\ fst (bucket_get (getThreadKey s threadId) (world s)) = inl msg
     | Unfinished => False
     end.
Proof.
  intros Hm Hr. unfold readThread in Hr. rewrite run_rethrow in Hr.
  unfold cached in *. prog_cbn. rewrite Hm in Hr. prog_cbn.
  unfold getThreadKey in *. prog_cbn.
  destruct (fst (bucket_get (name s ++ "/" ++ threadId ++ ".json")%string (world s)))
    as [msg|[t|]] eqn:E; prog_cbn; simplify_eq; prog_cbn;
    do 5 (split; [reflexivity|]); eauto 10.
Qed.

(** X13.  [get] and [getThread] for a thread that is in the cache: the cache
    is read once and nothing is synced; the cache and the messages sent are
    unchanged; the call ends, and never with 'Thread not found'; when it
    returns, the labels are those of the row, [hasUnread] tells whether
    UNREAD is among them, [totalReplies] is at most the number of messages,
    and [latest] is the last message that is not a draft: every message
    after it is a draft, and there is none when all messages are drafts. *)
Theorem get_hit_reads_cache (threadId : string) (row : ThreadRow) (s s' : Agent)
    (o : Outcome IGetThreadResponse) :
  driver s = true ->
  cached threadId s = Some row ->
  run (get threadId) s = (o, s') ->
  calls s' = calls s ++ [CRead threadId]
  /\ table s' = table s /\ outbox s' = outbox s
  /\ o <> Thrown ThreadNotFound /\ o <> Unfinished
  /\ forall r, o = Returned r ->
       labels r = latest_label_ids row
       /\ hasUnread r = existsb (String.eqb "UNREAD") (latest_label_ids row)
       /\ (totalReplies r <= length (messages r))%nat
       /\ match latest r with
          | Some m =>
              isDraft m = false
              /\ exists before after,
                   messages r = before ++ m :: after
                   /\ Forall (fun e => isDraft e = true) after
          | None => Forall (fun e => isDraft e = true) (messages r)
          end.
Proof.
  intros Hd Hc Hr. unfold get in Hr. prog_cbn. rewrite Hd in Hr. prog_cbn.
  rewrite run_await in Hr. unfold getThreadFromDB in Hr.
  destruct (readThread_hit_result _ _ row s s' o Hc Hr) as (Hcalls & Ht & Ho & _ & _ & Hres).
  do 3 (split; [assumption|]).
  split; [destruct o as [r|e|]; try discriminate; destruct Hres as (msg & -> & _); discriminate|].
  split; [destruct o; try discriminate; contradiction|].
  intros r ->. destruct Hres as (Hl & Hu & Hlast & Htot & _).
  split; [exact Hl|]. split; [exact Hu|]. split.
  - rewrite Htot. apply length_filter.
  - rewrite Hlast.
    pose proof (findLast_spec (fun e => negb (isDraft e)) (messages r)) as Hf.
    destruct (findLast _ (messages r)) as [m|].
    + destruct Hf as [Hm (l1 & l2 & Heq & Hall)]. split; [apply negb_true_iff; exact Hm|].
      exists l1, l2. split; [exact Heq|].
      eapply Forall_impl; [exact Hall|]. intros e He. apply negb_false_iff. exact He.
    + eapply Forall_impl; [exact Hf|]. intros e He. apply negb_false_iff. exact He.
Qed.

(** X14.  [get] and [getThread] for a thread that is not in the cache, when
    the call returns: the driver answered for the thread, with a latest
    message whose date could be normalised; the cache now holds the row made
    from that message; the labels returned are the tags of that message and
    [hasUnread] tells whether UNREAD is among them; and the calls made are a
    read, one sync, and a second read. *)
Theorem get_miss_returns_synced_thread (threadId : string) (s s' : Agent)
    (r : IGetThreadResponse) :
  driver s = true ->
  cached threadId s = None ->
  run (get threadId) s = (Returned r, s') ->
  exists td l d,
    fst (driver_get threadId (world s)) = inr td
    /\ latest td = Some l
    /\ toISOString (receivedOn l) = Some d
    /\ cached threadId s' = Some (newRow threadId l d)
    /\ labels r = tags l
    /\ hasUnread r = existsb (String.eqb "UNREAD") (tags l)
    /\ calls s' = calls s ++ [CRead threadId; CSync threadId; CRead threadId].
Proof.
  intros Hd Hm Hr. unfold get in Hr. prog_cbn. rewrite Hd in Hr. prog_cbn.
  rewrite run_await in Hr. unfold getThreadFromDB in Hr.
  rewrite readThread_miss in Hr by exact Hm.
  rewrite run_bind, run_await in Hr.
  match type of Hr with context [run (syncThread _) ?s1] =>
    destruct (run (syncThread threadId) s1) as [o1 s2] eqn:Es;
    assert (Hd1 : driver s1 = true) by exact Hd;
    pose proof (syncThread_settles _ _ _ _ Hd1 Es) as (_ & _ & Hc & _);
    pose proof (syncThread_effect _ _ _ _ Hd1 Es) as (_ & _ & _ & _ & _ & _ & _ & He)
  end.
  cbn [calls with_calls world table outbox currentFolder] in *.
  assert (Hmiss : table s2 = table s ->
            run (readThread threadId (Throw ThreadNotFound)) s2 = (Returned r, s') -> False).
  { intros Ht Hrun. rewrite readThread_miss in Hrun; [simpl in Hrun; discriminate|].
    unfold cached in *. rewrite Ht. exact Hm. }
  destruct o1 as [[|i td|i]|e|]; try discriminate;
    try (destruct He as [Ht _]; exfalso; exact (Hmiss Ht Hr)).
  destruct He as (-> & Hg & l & d & Hl & Hiso & Ht & _).
  assert (Hc2 : cached threadId s2 = Some (newRow threadId l d)).
  { unfold cached. rewrite Ht. exact (upsert_lookup (newRow threadId l d) (table s)). }
  destruct (readThread_hit_result _ _ _ s2 s' _ Hc2 Hr) as (Hcalls & Ht' & _ & _ & _ & Hres).
  destruct Hres as (Hlab & Hun & _).
  exists td, l, d. do 3 (split; [assumption|]).
  split; [unfold cached in *; rewrite Ht'; exact Hc2|].
  split; [exact Hlab|]. split; [exact Hun|].
  rewrite Hcalls, Hc, <- !app_assoc. reflexivity.
Qed.

Lemma string_app_inv_head (a b c : string) : (a ++ b)%string = (a ++ c)%string -> b = c.
Proof. induction a as [|x a IH]; simpl; intros Heq; [exact Heq | injection Heq; auto]. Qed.

Lemma string_app_length (a b : string) :
  String.length (a ++ b) = (String.length a + String.length b)%nat.
Proof. induction a as [|x a IH]; simpl; [reflexivity | rewrite IH; reflexivity]. Qed.

Lemma string_app_inv_tail (a b c : string) : (a ++ c)%string = (b ++ c)%string -> a = b.
Proof.
  revert b. induction a as [|x a IH]; intros [|y b]; simpl; intros Heq.
  - reflexivity.
  - exfalso. apply (f_equal String.length) in Heq.
    change (String.length c = S (String.length (b ++ c))) in Heq.
    rewrite (string_app_length b c) in Heq. lia.
  - exfalso. apply (f_equal String.length) in Heq.
    change (S (String.length (a ++ c)) = String.length c) in Heq.
    rewrite (string_app_length a c) in Heq. lia.
  - change (String x (a ++ c) = String y (b ++ c)) in Heq.
    injection Heq as -> Heq. f_equal. apply IH. exact Heq.
Qed.

(** X15.  Two threads of one agent never share a bucket key. *)
Theorem thread_keys_do_not_collide (s : Agent) (a b : string) :
  getThreadKey s a = getThreadKey s b -> a = b.
Proof.
  unfold getThreadKey. intros Heq.
  apply string_app_inv_head in Heq. apply (string_app_inv_head "/") in Heq.
  apply string_app_inv_tail in Heq. exact Heq.
Qed.

Lemma syncThread_first_stretch (threadId : string) (s : Agent) :
  driver s = true ->
  syncThreadsInProgress s !! threadId = None ->
  exists k,
    fst (segment (syncThread threadId) s) = Suspended k
    /\ syncThreadsInProgress (snd (segment (syncThread threadId) s))
       = <[threadId := true]> (syncThreadsInProgress s)
    /\ driver (snd (segment (syncThread threadId) s)) = true
    /\ table (snd (segment (syncThread threadId) s)) = table s.
Proof.
  intros Hd Hn. unfold syncThread. seg_cbn. rewrite Hd. seg_cbn. rewrite Hd. seg_cbn.
  rewrite bool_decide_eq_false_2 by (rewrite Hn; intros [x Hx]; discriminate).
  seg_cbn. rewrite Hd. seg_cbn. eexists. repeat split; try reflexivity. exact Hd.
Qed.

(** X16.  The fan-out [threadIds.map((id) => this.mainDo.syncThread(id))] of
    [markThreadsRead], [markThreadsUnread], [modifyLabels], [markAsRead] and
    [markAsUnread]: with a driver, one call is started per id; the call for
    an id is suspended, to fetch the thread, exactly when the id was not
    marked before and does not occur earlier in the list, and otherwise it
    has already returned without a result; afterwards the marked threads
    are those marked before and those of the list; the cache is not
    changed yet. *)
Theorem same_turn_syncs_once_per_thread (ids : list string) (s : Agent) :
  driver s = true ->
  length (fst (startSyncs ids s)) = length ids
  /\ (forall n i, ids !! n = Some i ->
        match fst (startSyncs ids s) !! n with
        | Some (Settled o) =>
            o = Returned SkippedInProgress
            /\ (is_Some (syncThreadsInProgress s !! i) \/ i ∈ take n ids)
        | Some (Suspended _) =>
            syncThreadsInProgress s !! i = None /\ i ∉ take n ids
        | None => False
        end)
  /\ (forall i, is_Some (syncThreadsInProgress (snd (startSyncs ids s)) !! i)
                <-> is_Some (syncThreadsInProgress s !! i) \/ i ∈ ids)
  /\ driver (snd (startSyncs ids s)) = true
  /\ table (snd (startSyncs ids s)) = table s.
Proof.
  revert s. induction ids as [|i ids IH]; intros s Hd.
  - simpl. split; [reflexivity|]. split; [intros n i Hn; discriminate|].
    split; [|auto]. intros i. split; [auto|]. intros [Hi|Hi]; [exact Hi | inversion Hi].
  - cbn [startSyncs fst snd].
    assert (Hstep : exists t s1,
              segment (syncThread i) s = (t, s1)
              /\ driver s1 = true /\ table s1 = table s
              /\ (forall j, is_Some (syncThreadsInProgress s1 !! j)
                            <-> is_Some (syncThreadsInProgress s !! j) \/ j = i)
              /\ match t with
                 | Settled o => o = Returned SkippedInProgress
                                /\ is_Some (syncThreadsInProgress s !! i)
                 | Suspended _ => syncThreadsInProgress s !! i = None
                 end).
    { destruct (syncThreadsInProgress s !! i) as [b|] eqn:E.
      - rewrite (syncThread_busy_returns i s Hd) by (rewrite E; eauto).
        eexists _, _. split; [reflexivity|]. cbn [driver table syncThreadsInProgress with_calls].
        split; [exact Hd|]. split; [reflexivity|]. split.
        + intros j. split; [auto|]. intros [Hj| ->]; [exact Hj | try rewrite E; eauto].
        + split; [reflexivity | try rewrite E; eauto].
      - destruct (syncThread_first_stretch i s Hd E) as (k & Hk & Hm & Hd1 & Ht).
        destruct (segment (syncThread i) s) as [t s1]. cbn [fst snd] in *. subst t.
        exists (Suspended k), s1. split; [reflexivity|]. split; [exact Hd1|].
        split; [exact Ht|]. split; [|first [reflexivity | exact E]].
        intros j. rewrite Hm. destruct (decide (i = j)) as [->|Hne].
        + rewrite lookup_insert_eq. split; eauto.
        + rewrite lookup_insert_ne by exact Hne. split; [auto|].
          intros [Hj|Hj]; [exact Hj | congruence]. }
    destruct Hstep as (t & s1 & Hseg & Hd1 & Ht1 & Hm1 & Hkind). rewrite Hseg.
    cbn [fst snd]. destruct (IH s1 Hd1) as (Hlen & Hidx & Hmarks & Hdr & Htab).
    split; [simpl; rewrite Hlen; reflexivity|]. split; [|split; [|split]].
    + intros [|n] j Hj; simpl in Hj |- *.
      * injection Hj as <-. destruct t as [k|o].
        -- split; [exact Hkind | intros Hin; inversion Hin].
        -- destruct Hkind as [Ho Hb]. split; [exact Ho | left; exact Hb].
      * specialize (Hidx n j Hj).
        destruct (fst (startSyncs ids s1) !! n) as [[k|o]|]; [| |contradiction].
        -- destruct Hidx as [Hnone Hnot]. split.
           ++ destruct (syncThreadsInProgress s !! j) eqn:E; [|reflexivity].
              assert (Hs : is_Some (syncThreadsInProgress s1 !! j))
                by (apply Hm1; left; eauto).
              rewrite Hnone in Hs. destruct Hs as [x Hx]. discriminate.
           ++ intros Hin. apply elem_of_cons in Hin as [->|Hin]; [|exact (Hnot Hin)].
              assert (Hs : is_Some (syncThreadsInProgress s1 !! i)) by (apply Hm1; right; reflexivity).
              rewrite Hnone in Hs. destruct Hs as [x Hx]. discriminate.
        -- destruct Hidx as [Ho Hor]. split; [exact Ho|].
           destruct Hor as [Hs|Hin].
           ++ apply Hm1 in Hs as [Hs| ->]; [left; exact Hs | right; apply list_elem_of_here].
           ++ right. apply list_elem_of_further. exact Hin.
    + intros j. rewrite Hmarks, Hm1, elem_of_cons. tauto.
    + exact Hdr.
    + rewrite Htab. exact Ht1.
Qed.

(** X17.  A call of [syncThread] for a thread that is not marked is
    suspended after it has marked the thread; and in whatever state the
    agent is when the call is resumed, once the call has run on to its end
    (success, no latest message, or failure) the mark of the thread is
    removed and no other mark is changed; unless it reports success, the
    cache and the messages sent are as they were on resumption. *)
Theorem resumed_sync_releases_mark (threadId : string) (s s1 s' : Agent)
    (o : Outcome SyncThreadResult) :
  driver s = true ->
  syncThreadsInProgress s !! threadId = None ->
  run (resumption (fst (segment (syncThread threadId) s))) s1 = (o, s') ->
  pending (fst (segment (syncThread threadId) s)) = true
  /\ o <> Unfinished
  /\ syncThreadsInProgress s' = delete threadId (syncThreadsInProgress s1)
  /\ foldersInSync s' = foldersInSync s1
  /\ driver s' = driver s1
  /\ chatMessageAbortControllers s' = chatMessageAbortControllers s1
  /\ ((forall i td, o <> Returned (Synced i td)) ->
      table s' = table s1 /\ outbox s' = outbox s1).
Proof.
  intros Hd Hn. unfold syncThread.
  seg_cbn. rewrite Hd. seg_cbn. rewrite Hd. seg_cbn.
  rewrite bool_decide_eq_false_2 by (rewrite Hn; intros [x Hx]; discriminate).
  seg_cbn. rewrite Hd. seg_cbn. cbn [resumption pending]. intros Hr.
  split; [reflexivity|].
  repeat (prog_cbn; try case_settle; try case_match; simplify_eq);
    prog_cbn; (split; [congruence|]); do 4 (split; [reflexivity|]);
    intros Hne; first [split; reflexivity | exfalso; eapply Hne; reflexivity].
Qed.

Lemma keeps_cache_refl (s s' : Agent) :
  NoDup (map row_id (table s)) -> table s' = table s -> keeps_cache s s'.
Proof.
  intros Hnd Ht. unfold keeps_cache, cached. rewrite Ht. auto.
Qed.

Lemma keeps_cache_trans (s1 s2 s3 : Agent) :
  keeps_cache s1 s2 -> keeps_cache s2 s3 -> keeps_cache s1 s3.
Proof.
  intros (_ & Hl1 & Hk1) (Hnd & Hl2 & Hk2). split; [exact Hnd|]. split; [lia | auto].
Qed.

Lemma keeps_cache_upsert (r : ThreadRow) (s s' : Agent) :
  NoDup (map row_id (table s)) -> table s' = upsertThread r (table s) -> keeps_cache s s'.
Proof.
  intros Hnd Ht. unfold keeps_cache, cached. rewrite Ht. split; [|split].
  - apply upsert_keys. exact Hnd.
  - rewrite (upsert_count r (table s) Hnd). destruct (find _ (table s)); lia.
  - intros k Hk. destruct (String.eqb_spec k (row_id r)) as [->|Hne].
    + rewrite upsert_lookup. eauto.
    + rewrite upsert_lookup_other by exact Hne. exact Hk.
Qed.

Lemma syncThread_keeps_cache (threadId : string) (s s' : Agent)
    (o : Outcome SyncThreadResult) :
  driver s = true ->
  NoDup (map row_id (table s)) ->
  run (syncThread threadId) s = (o, s') ->
  keeps_cache s s'.
Proof.
  intros Hd Hnd Hr.
  destruct (syncThread_effect threadId s s' o Hd Hr) as (_ & _ & _ & _ & _ & _ & _ & He).
  destruct o as [[|i td|i]|e|];
    try (destruct He as [Ht _]; apply keeps_cache_refl; assumption).
  destruct He as (_ & _ & l & d & _ & _ & Ht & _).
  eapply keeps_cache_upsert; eassumption.
Qed.

Lemma syncPage_keeps_cache (ids : list string) (s : Agent) :
  driver s = true ->
  NoDup (map row_id (table s)) ->
  exists s',
    run (syncPage ids) s = (Returned tt, s') /\ driver s' = true /\ keeps_cache s s'.
Proof.
  revert s. induction ids as [|i ids IH]; intros s Hd Hnd.
  - exists s. simpl. split; [reflexivity|]. split; [exact Hd|].
    apply keeps_cache_refl; auto.
  - cbn [syncPage]. rewrite run_bind, run_tryCatch, run_bind, run_await.
    destruct (run (syncThread i) s) as [o s1] eqn:E.
    destruct (syncThread_settles i s s1 o Hd E) as (Hu & _ & _ & Hd1 & _).
    pose proof (syncThread_keeps_cache i s s1 o Hd Hnd E) as Hk.
    assert (Hnd1 : NoDup (map row_id (table s1))) by apply Hk.
    destruct o as [a|e|]; [| |congruence]; prog_cbn;
      destruct (IH s1 Hd1 Hnd1) as (s' & Hr & Hd' & Hk'); exists s';
      (split; [exact Hr|]); (split; [exact Hd'|]);
      eapply keeps_cache_trans; eassumption.
Qed.

Lemma syncLoop_keeps_cache (bound : nat) (folder : string) (total : Z) (tok : option string)
    (s s' : Agent) (o : Outcome SyncThreadsResult) :
  driver s = true ->
  NoDup (map row_id (table s)) ->
  run (syncLoop bound folder total tok) s = (o, s') ->
  keeps_cache s s'.
Proof.
  revert total tok s s' o. induction bound as [|n IH]; intros total tok s s' o Hd Hnd Hr.
  - simpl in Hr. simplify_eq. apply keeps_cache_refl; auto.
  - cbn [syncLoop] in Hr. prog_cbn. rewrite Hd in Hr. prog_cbn.
    destruct (driver_list folder maxCount (if Js.truthy tok then tok else None) (world s))
      as [[msg|page] w] eqn:E; prog_cbn.
    + simplify_eq. apply keeps_cache_refl; auto.
    + rewrite run_bind in Hr.
      match type of Hr with context [run (syncPage ?ids) ?s1] =>
        destruct (syncPage_keeps_cache ids s1) as (s2 & Hp & Hd2 & Hk);
          [exact Hd | exact Hnd |];
        assert (Hk0 : keeps_cache s s2) by exact Hk
      end.
      rewrite Hp in Hr. prog_cbn.
      destruct (bool_decide (page_nextPageToken page ≠ None) && shouldLoop) eqn:Ht.
      * apply IH in Hr; [|exact Hd2 | apply Hk0].
        eapply keeps_cache_trans; [exact Hk0|]. exact Hr.
      * cbn [run] in Hr. simplify_eq. exact Hk0.
Qed.

Lemma second_read_keeps_cache (threadId : string) (s s' : Agent)
    (o : Outcome IGetThreadResponse) :
  run (readThread threadId (Throw ThreadNotFound)) s = (o, s') ->
  table s' = table s /\ (forall r, o = Returned r -> is_Some (cached threadId s')).
Proof.
  intros Hr. destruct (cached threadId s) as [row|] eqn:Hc.
  - destruct (readThread_hit threadId _ row s s' o Hc Hr) as (_ & _ & _ & Ht).
    split; [exact Ht|]. intros r _. unfold cached in *. rewrite Ht, Hc. eauto.
  - rewrite readThread_miss in Hr by exact Hc. cbn [run] in Hr. simplify_eq.
    split; [reflexivity | intros r Hr; discriminate].
Qed.

Lemma get_keeps_cache (threadId : string) (s s' : Agent) (o : Outcome IGetThreadResponse) :
  driver s = true ->
  NoDup (map row_id (table s)) ->
  run (get threadId) s = (o, s') ->
  keeps_cache s s' /\ (forall r, o = Returned r -> is_Some (cached threadId s')).
Proof.
  intros Hd Hnd Hr. unfold get in Hr. prog_cbn. rewrite Hd in Hr. prog_cbn.
  rewrite run_await in Hr. unfold getThreadFromDB in Hr.
  destruct (cached threadId s) as [row|] eqn:Hc.
  - destruct (readThread_hit threadId _ row s s' o Hc Hr) as (_ & _ & _ & Ht).
    split; [apply keeps_cache_refl; assumption|].
    intros r _. unfold cached in *. rewrite Ht, Hc. eauto.
  - rewrite readThread_miss in Hr by exact Hc. rewrite run_bind, run_await in Hr.
    match type of Hr with context [run (syncThread _) ?s1] =>
      destruct (run (syncThread threadId) s1) as [o1 s2] eqn:Es;
      assert (Hd1 : driver s1 = true) by exact Hd;
      assert (Hnd1 : NoDup (map row_id (table s1))) by exact Hnd;
      pose proof (syncThread_keeps_cache _ _ _ _ Hd1 Hnd1 Es) as Hk;
      assert (Hk0 : keeps_cache s s2) by exact Hk
    end.
    clear Hk. destruct o1 as [a|e|]; cbn [fst snd] in Hr.
    + apply second_read_keeps_cache in Hr as [Ht Hret]. split; [|exact Hret].
      eapply keeps_cache_trans; [exact Hk0|]. apply keeps_cache_refl; [apply Hk0 | exact Ht].
    + cbn [run] in Hr. simplify_eq. split; [exact Hk0 | intros r Hr; discriminate].
    + cbn [run] in Hr. simplify_eq. split; [exact Hk0 | intros r Hr; discriminate].
Qed.

(** X18.  On a connected agent whose cache has one row per id, a call of
    [syncThread], of [syncThreads] or of [get], however it ends, leaves a
    cache that still has one row per id, at least as many rows as before,
    and a row for every thread that had one; and when [get] returns a
    thread, the cache has a row for it. *)
Theorem sync_never_shrinks_cache (bound : nat) (folder threadId : string)
    (s : Agent) :
  driver s = true ->
  NoDup (map row_id (table s)) ->
  keeps_cache s (snd (run (syncThread threadId) s))
  /\ keeps_cache s (snd (run (syncThreads bound folder) s))
  /\ keeps_cache s (snd (run (get threadId) s))
  /\ (forall r, fst (run (get threadId) s) = Returned r ->
        is_Some (cached threadId (snd (run (get threadId) s)))).
Proof.
  intros Hd Hnd. split; [|split].
  - eapply syncThread_keeps_cache; [exact Hd | exact Hnd | apply surjective_pairing].
  - destruct (run (syncThreads bound folder) s) as [o s'] eqn:Hr. cbn [snd].
    unfold syncThreads in Hr. prog_cbn. rewrite Hd in Hr. prog_cbn.
    case_bool_decide as Hb; prog_cbn.
    { simplify_eq. apply keeps_cache_refl; auto. }
    destruct ((maxCount <=? getThreadCount s) && negb shouldLoop) eqn:Ec; prog_cbn.
    { simplify_eq. apply keeps_cache_refl; auto. }
    rewrite run_tryFinally, run_rethrow in Hr.
    match type of Hr with context [run (syncLoop _ _ _ _) ?s1] =>
      destruct (run (syncLoop bound folder 0 None) s1) as [o1 s2] eqn:El;
      apply syncLoop_keeps_cache in El; [|exact Hd | exact Hnd]
    end.
    destruct El as (Hn2 & Hl2 & Hk2). unfold keeps_cache, cached in *.
    cbn [table with_foldersInSync] in *.
    destruct o1 as [r|e|]; prog_cbn; simplify_eq; prog_cbn; auto.
  - eapply get_keeps_cache; [exact Hd | exact Hnd | apply surjective_pairing].
Qed.

End ThreadSync.
End ThreadSyncFacts.

Module ThreadReadFacts.
Local Open Scope list_scope.
Import Cache Agent ZeroAgent SyncTrace ProgFacts SyncFacts ThreadSyncFacts Fixtures.
Local Open Scope prog_scope.

Section ThreadRead.
Context `{Host}.

(** What one call of [syncThread] for a thread that is not marked does, by
    what the driver, the date and the bucket answer. *)
Lemma syncThread_unmarked (threadId : string) (s s' : Agent) (o : Outcome SyncThreadResult) :
  driver s = true ->
  syncThreadsInProgress s !! threadId = None ->
  run (syncThread threadId) s = (o, s') ->
  let fetched := driver_get threadId (world s) in
  match fst fetched with
  | inl msg => o = Thrown (HostError msg) /\ world s' = snd fetched
  | inr td =>
      match latest td with
      | None => o = Returned (NoLatestMessage threadId) /\ world s' = snd fetched
      | Some l =>
          match toISOString (receivedOn l) with
          | None =>
              o = Thrown (HostError "RangeError: Invalid time value")
              /\ world s' = snd fetched
          | Some d =>
              let put := bucket_put (getThreadKey s threadId) td (snd fetched) in
              world s' = snd put
              /\ match fst put with
                 | Some e => o = Thrown (HostError e)
                 | None => o = Returned (Synced threadId td)
                 end
          end
      end
  end.
Proof.
  intros Hd Hm Hr. cbv zeta. unfold syncThread in Hr.
  prog_cbn. rewrite Hd in Hr. prog_cbn. rewrite Hd in Hr. prog_cbn.
  rewrite bool_decide_eq_false_2 in Hr by (rewrite Hm; intros [x Hx]; discriminate).
  prog_cbn. rewrite Hd in Hr. prog_cbn.
  destruct (driver_get threadId (world s)) as [[msg|td] w1]; prog_cbn.
  { simplify_eq. auto. }
  destruct (latest td) as [l|]; prog_cbn; [|simplify_eq; auto].
  destruct (toISOString (receivedOn l)) as [d|]; prog_cbn; [|simplify_eq; auto].
  unfold getThreadKey in *. prog_cbn.
  destruct (bucket_put _ td w1) as [[e|] w2]; prog_cbn.
  { simplify_eq. auto. }
  case_bool_decide; prog_cbn; simplify_eq; auto.
Qed.

(** C5 (as amended).  [get] (or [getThread]) on a connected agent, for a
    thread that has no row in the cache.  It reads, calls [syncThread] once,
    and reads again at most once, in this order and nothing more; it always
    ends; and 'Thread not found' is what it throws exactly when the call of
    [syncThread] came back and the second read missed too.  When the thread
    is already marked as being synced, the call of [syncThread] fetches
    nothing: the agent is as before but for the calls recorded, and 'Thread
    not found' is thrown.  When it is not marked, the thread is fetched from
    the driver once: if the fetch, the date or the bucket fails, that error
    is thrown and the cache is as before; if the thread has no latest
    message, the cache is as before and 'Thread not found' is thrown;
    otherwise the row of the latest message is in the cache when [get]
    ends, the second read has been made, and what is returned carries the
    labels of that message. *)
Theorem get_miss_syncs_once (threadId : string) (s s' : Agent)
    (o : Outcome IGetThreadResponse) :
  driver s = true ->
  cached threadId s = None ->
  run (get threadId) s = (o, s') ->
  let fetched := driver_get threadId (world s) in
  o <> Unfinished
  /\ (calls s' = calls s ++ [CRead threadId; CSync threadId]
      \/ calls s' = calls s ++ [CRead threadId; CSync threadId; CRead threadId])
  /\ (o = Thrown ThreadNotFound <->
      calls s' = calls s ++ [CRead threadId; CSync threadId; CRead threadId]
      /\ cached threadId s' = None)
  /\ (is_Some (syncThreadsInProgress s !! threadId) ->
      o = Thrown ThreadNotFound
      /\ s' = with_calls (calls s ++ [CRead threadId; CSync threadId; CRead threadId]) s)
  /\ (syncThreadsInProgress s !! threadId = None ->
      match fst fetched with
      | inl msg =>
          o = Thrown (HostError msg) /\ table s' = table s /\ world s' = snd fetched
          /\ calls s' = calls s ++ [CRead threadId; CSync threadId]
      | inr td =>
          match latest td with
          | None =>
              o = Thrown ThreadNotFound /\ table s' = table s /\ world s' = snd fetched
          | Some l =>
              match toISOString (receivedOn l) with
              | None =>
                  o = Thrown (HostError "RangeError: Invalid time value")
                  /\ table s' = table s
                  /\ calls s' = calls s ++ [CRead threadId; CSync threadId]
              | Some d =>
                  match fst (bucket_put (getThreadKey s threadId) td (snd fetched)) with
                  | Some e =>
                      o = Thrown (HostError e) /\ table s' = table s
                      /\ calls s' = calls s ++ [CRead threadId; CSync threadId]
                  | None =>
                      table s' = upsertThread (newRow threadId l d) (table s)
                      /\ cached threadId s' = Some (newRow threadId l d)
                      /\ calls s' = calls s ++ [CRead threadId; CSync threadId; CRead threadId]
                      /\ o <> Thrown ThreadNotFound
                      /\ forall r, o = Returned r -> labels r = tags l
                  end
              end
          end
      end).
Proof.
  intros Hd Hm Hr. cbv zeta. unfold get in Hr. prog_cbn. rewrite Hd in Hr. prog_cbn.
  rewrite run_await in Hr. unfold getThreadFromDB in Hr.
  rewrite readThread_miss in Hr by exact Hm.
  rewrite run_bind, run_await in Hr.
  set (s1 := with_calls (calls s ++ [CRead threadId]) s) in *.
  assert (Hd1 : driver s1 = true) by exact Hd.
  destruct (run (syncThread threadId) s1) as [o1 s2] eqn:Es.
  pose proof (syncThread_settles _ _ _ _ Hd1 Es) as (Hu & Hnf & Hc & Hd2 & _).
  pose proof (syncThread_effect _ _ _ _ Hd1 Es) as (_ & _ & _ & _ & _ & _ & _ & He).
  pose proof (syncThread_restores_marks _ _ _ _ Hd1 Es) as (_ & _ & _ & _ & _ & Hbusy).
  pose proof (fun Hn => syncThread_unmarked threadId s1 s2 o1 Hd1 Hn Es) as Hfree.
  cbv zeta in Hfree.
  cbn [calls with_calls world table outbox currentFolder syncThreadsInProgress] in *.
  subst s1. cbn [calls with_calls world table outbox currentFolder syncThreadsInProgress
                 getThreadKey name] in *.
  rewrite <- app_assoc in Hc. simpl in Hc.
  assert (Hsecond : forall r, o1 = Returned r ->
            table s2 = table s ->
            o = Thrown ThreadNotFound
            /\ s' = with_calls (calls s ++ [CRead threadId; CSync threadId; CRead threadId]) s2).
  { intros r -> Ht. rewrite readThread_miss in Hr by (unfold cached in *; rewrite Ht; exact Hm).
    simpl in Hr. injection Hr as <- <-. rewrite Hc. rewrite <- app_assoc. auto. }
  split; [|split; [|split; [|split]]].
  - destruct o1 as [r|e|]; [|simplify_eq; congruence|congruence].
    destruct (cached threadId s2) as [row|] eqn:E2.
    + apply (readThread_hit _ _ row) in Hr; [|exact E2]. apply Hr.
    + rewrite readThread_miss in Hr by exact E2. simpl in Hr. simplify_eq. congruence.
  - destruct o1 as [r|e|]; [|simplify_eq; left; exact Hc|congruence].
    right. destruct (cached threadId s2) as [row|] eqn:E2.
    + apply (readThread_hit _ _ row) in Hr; [|exact E2].
      destruct Hr as (_ & _ & Hc' & _). rewrite Hc' , Hc, <- app_assoc. reflexivity.
    + rewrite readThread_miss in Hr by exact E2. simpl in Hr. simplify_eq.
      cbn [calls with_calls]. rewrite Hc, <- app_assoc. reflexivity.
  - destruct o1 as [r|e|]; [| |congruence].
    + destruct (cached threadId s2) as [row|] eqn:E2.
      * apply (readThread_hit _ _ row) in Hr; [|exact E2].
        destruct Hr as (_ & Hnf' & _ & Ht'). split; [congruence|].
        intros [_ Hn]. unfold cached in *. rewrite Ht' in Hn. congruence.
      * rewrite readThread_miss in Hr by exact E2. simpl in Hr. simplify_eq.
        cbn [calls with_calls]. rewrite Hc, <- app_assoc. simpl.
        split; [|reflexivity]. intros _. split; [reflexivity | exact E2].
    + simplify_eq. split; [congruence|]. intros [Hc' _]. rewrite Hc in Hc'.
      apply app_inv_head in Hc'. discriminate.
  - intros Hb. destruct (Hbusy Hb) as (-> & Ht & Hw).
    destruct (Hsecond _ eq_refl Ht) as [-> ->]. split; [reflexivity|].
    unfold syncThread in Es. prog_cbn. rewrite Hd in Es. prog_cbn. rewrite Hd in Es.
    prog_cbn. rewrite bool_decide_eq_true_2 in Es by exact Hb. prog_cbn.
    injection Es as <-. cbn [with_calls calls]. rewrite <- !app_assoc. reflexivity.
  - intros Hn. specialize (Hfree Hn).
    destruct (fst (driver_get threadId (world s))) as [msg|td].
    { destruct Hfree as [-> Hw]. destruct He as [Ht _]. simplify_eq. auto. }
    destruct (latest td) as [l|] eqn:El.
    2:{ destruct Hfree as [-> Hw]. destruct He as [Ht _].
        destruct (Hsecond _ eq_refl Ht) as [-> ->]. auto. }
    destruct (toISOString (receivedOn l)) as [d|] eqn:Ed.
    2:{ destruct Hfree as [-> Hw]. destruct He as [Ht _]. simplify_eq. auto. }
    destruct Hfree as [Hw Hput].
    destruct (fst (bucket_put _ td _)) as [e|].
    { subst o1. destruct He as [Ht _]. simplify_eq. auto. }
    subst o1. destruct He as (_ & _ & l' & d' & Hl' & Hd' & Ht & _).
    assert (l' = l) by congruence. subst l'. assert (d' = d) by congruence. subst d'.
    assert (Hc2 : cached threadId s2 = Some (newRow threadId l d)).
    { unfold cached. rewrite Ht. exact (upsert_lookup (newRow threadId l d) (table s)). }
    destruct (readThread_hit_result _ _ _ s2 s' _ Hc2 Hr) as (Hcalls & Ht' & _ & _ & _ & Hres).
    split; [congruence|]. split; [unfold cached in *; rewrite Ht'; exact Hc2|].
    split; [rewrite Hcalls, Hc, <- app_assoc; reflexivity|].
    split.
    + destruct o as [r|e|]; try discriminate. destruct Hres as (msg & -> & _). discriminate.
    + intros r ->. apply Hres.
Qed.

End ThreadRead.

Section ThreadReadOnSample.
#[local] Instance readSample : Host := Sample.sampleHost true 40.

Lemma get_miss_syncs_once_sample :
  table (snd (run (get "t1") (Sample.agent0 true 40 [])))
    = upsertThread (newRow "t1" Sample.message1 "2025-01-01T00:00:00.000Z") []
  /\ cached "t1" (snd (run (get "t1") (Sample.agent0 true 40 [])))
     = Some (newRow "t1" Sample.message1 "2025-01-01T00:00:00.000Z")
  /\ calls (snd (run (get "t1") (Sample.agent0 true 40 [])))
     = [] ++ [CRead "t1"; CSync "t1"; CRead "t1"]
  /\ fst (run (get "t1") (Sample.agent0 true 40 [])) <> Thrown ThreadNotFound.
Proof.
  assert (W := proj2 (proj2 (proj2 (proj2
                 (get_miss_syncs_once "t1" (Sample.agent0 true 40 [])
                    (snd (run (get "t1") (Sample.agent0 true 40 [])))
                    (fst (run (get "t1") (Sample.agent0 true 40 [])))
                    eq_refl eq_refl (surjective_pairing _))))) eq_refl).
  cbv beta iota zeta delta [fst snd driver_get readSample Sample.sampleHost String.eqb
                            Ascii.eqb Bool.eqb latest Sample.thread1 toISOString
                            receivedOn Sample.message1 bucket_put world Sample.agent0] in W.
  destruct W as (W1 & W2 & W3 & W4 & _).
  split; [exact W1|]. split; [exact W2|]. split; [exact W3 | exact W4].
Defined.

(** C5, as stated, on the code: a sync of the thread "t1" is in flight when
    [get] is called for it.  The cache has no row, the driver has the
    thread, and [get] throws 'Thread not found' with nothing fetched and
    nothing written: the agent is as before but for the calls recorded. *)
Lemma get_during_sync_fetches_nothing :
  match fst (segment (syncThread "t1") (Sample.agent0 true 40 [])) with
  | Suspended _ => True
  | Settled _ => False
  end
  /\ syncThreadsInProgress syncingAgent !! "t1" = Some true
  /\ driver syncingAgent = true
  /\ cached "t1" syncingAgent = None
  /\ fst (driver_get "t1" (world syncingAgent)) = inr Sample.thread1
  /\ fst (run (get "t1") syncingAgent) = Thrown ThreadNotFound
  /\ snd (run (get "t1") syncingAgent)
     = with_calls (calls syncingAgent ++ [CRead "t1"; CSync "t1"; CRead "t1"]) syncingAgent
  /\ table (snd (run (get "t1") syncingAgent)) = []
  /\ cached "t1" (snd (run (get "t1") (Sample.agent0 true 40 [])))
     = Some (newRow "t1" Sample.message1 "2025-01-01T00:00:00.000Z").
Proof.
  split; [vm_compute; exact I|].
  repeat apply conj; vm_compute; reflexivity.
Qed.

End ThreadReadOnSample.
End ThreadReadFacts.

Module FolderSyncFacts.
Local Open Scope list_scope.
Import Cache Agent ZeroAgent SyncTrace PageLogging ProgFacts SyncFacts ThreadSyncFacts
       ThreadReadFacts.
Local Open Scope prog_scope.

Section FolderSync.
Context `{PageLog}.

Lemma syncThread_keeps_log (threadId : string) (s s' : Agent) (o : Outcome SyncThreadResult) :
  driver s = true ->
  run (syncThread threadId) s = (o, s') ->
  pages_seen (world s') = pages_seen (world s).
Proof.
  intros Hd Hr.
  destruct (syncThreadsInProgress s !! threadId) as [b|] eqn:Em.
  - unfold syncThread in Hr. prog_cbn. rewrite Hd in Hr. prog_cbn. rewrite Hd in Hr.
    prog_cbn. rewrite bool_decide_eq_true_2 in Hr by (rewrite Em; eauto). prog_cbn.
    simplify_eq. reflexivity.
  - pose proof (syncThread_unmarked threadId s s' o Hd Em Hr) as Hu. cbv zeta in Hu.
    destruct (fst (driver_get threadId (world s))) as [msg|td];
      [destruct Hu as [_ ->]; apply seen_get|].
    destruct (latest td) as [l|]; [|destruct Hu as [_ ->]; apply seen_get].
    destruct (toISOString (receivedOn l)) as [d|]; [|destruct Hu as [_ ->]; apply seen_get].
    destruct Hu as [-> _]. rewrite seen_put. apply seen_get.
Qed.

(** A thread whose [syncThread] throws is skipped: the loop goes on with the
    rest of the page. *)
Lemma syncPage_skips (i : string) (rest : list string) (t : Agent) (e : Error) :
  fst (run (syncThread i) t) = Thrown e ->
  run (syncPage (i :: rest)) t = run (syncPage rest) (snd (run (syncThread i) t)).
Proof.
  intros He. cbn [syncPage]. rewrite run_bind, run_tryCatch, run_bind, run_await.
  destruct (run (syncThread i) t) as [o t1]. simpl in He. subst o. reflexivity.
Qed.

Lemma syncPage_keeps_log (ids : list string) (s : Agent) :
  driver s = true ->
  exists s',
    run (syncPage ids) s = (Returned tt, s')
    /\ calls s' = calls s ++ map CSync ids
    /\ driver s' = true
    /\ pages_seen (world s') = pages_seen (world s).
Proof.
  revert s. induction ids as [|i ids IH]; intros s Hd.
  - exists s. simpl. rewrite app_nil_r. auto.
  - cbn [syncPage]. rewrite run_bind, run_tryCatch, run_bind, run_await.
    destruct (run (syncThread i) s) as [o s1] eqn:E.
    destruct (syncThread_settles i s s1 o Hd E) as (Hu & _ & Hc & Hd1 & _).
    pose proof (syncThread_keeps_log i s s1 o Hd E) as Hlog.
    destruct o as [a|e|]; [| |congruence]; prog_cbn;
      destruct (IH s1 Hd1) as (s' & Hr & Hc' & Hd' & Hl'); exists s';
      (split; [exact Hr|]); rewrite Hc', Hc, Hl', Hlog, <- app_assoc; auto.
Qed.

Lemma syncLoop_pages (bound : nat) (folder : string) (total : Z) (tok : option string)
    (s s' : Agent) (o : Outcome SyncThreadsResult) :
  driver s = true ->
  run (syncLoop bound folder total tok) s = (o, s') ->
  exists pages,
    pages_seen (world s') = pages_seen (world s) ++ pages
    /\ synced_ids (calls s') = synced_ids (calls s) ++ concat pages
    /\ (forall r, o = Returned r -> synced r = total + Z.of_nat (length (concat pages))).
Proof.
  revert total tok s s' o. induction bound as [|n IH]; intros total tok s s' o Hd Hr.
  - simpl in Hr. simplify_eq. exists []. simpl. rewrite !app_nil_r.
    do 2 (split; [reflexivity|]). intros r Hr. discriminate.
  - cbn [syncLoop] in Hr. prog_cbn. rewrite Hd in Hr. prog_cbn.
    pose proof (seen_list folder maxCount (if Js.truthy tok then tok else None) (world s))
      as Hseen.
    destruct (driver_list folder maxCount (if Js.truthy tok then tok else None) (world s))
      as [[msg|page] w] eqn:E; prog_cbn.
    + simplify_eq. prog_cbn. exists []. simpl in *. rewrite synced_ids_app. simpl.
      rewrite !app_nil_r in *. split; [exact Hseen|]. split; [reflexivity|].
      intros r Hr. discriminate.
    + rewrite run_bind in Hr.
      match type of Hr with context [run (syncPage ?ids) ?s1] =>
        destruct (syncPage_keeps_log ids s1) as (s2 & Hp & Hc & Hd2 & Hlog); [exact Hd|]
      end.
      rewrite Hp in Hr. prog_cbn. simpl in Hseen.
      assert (Hids : synced_ids (calls s2)
                     = synced_ids (calls s) ++ page_threads page).
      { rewrite Hc, !synced_ids_app, synced_ids_syncs. simpl. rewrite app_nil_r.
        reflexivity. }
      destruct (bool_decide (page_nextPageToken page ≠ None) && shouldLoop) eqn:Ht.
      * apply IH in Hr; [|exact Hd2]. destruct Hr as (pages & Hl & Hi & Hs).
        exists (page_threads page :: pages). prog_cbn.
        split; [rewrite Hl, Hlog, Hseen, <- app_assoc; reflexivity|].
        split; [rewrite Hi, Hids, <- app_assoc; reflexivity|].
        intros r Hr. rewrite (Hs r Hr). cbn [concat]. rewrite length_app. lia.
      * cbn [run] in Hr. simplify_eq. prog_cbn. cbn [synced].
        exists [page_threads page]. cbn [concat]. rewrite app_nil_r.
        split; [rewrite Hlog, Hseen; reflexivity|]. split; [exact Hids|].
        intros r Hr. simplify_eq. reflexivity.
Qed.

Lemma syncThreads_pages (bound : nat) (folder : string) (s s' : Agent)
    (o : Outcome SyncThreadsResult) :
  driver s = true ->
  run (syncThreads bound folder) s = (o, s') ->
  exists pages,
    pages_seen (world s') = pages_seen (world s) ++ pages
    /\ synced_ids (calls s') = synced_ids (calls s) ++ concat pages
    /\ (forall r, o = Returned r -> synced r = Z.of_nat (length (concat pages))).
Proof.
  intros Hd Hr. unfold syncThreads in Hr. prog_cbn. rewrite Hd in Hr. prog_cbn.
  assert (Hnone : forall m, (o, s') = (Returned (mkSynced 0 m), s) ->
            exists pages,
              pages_seen (world s') = pages_seen (world s) ++ pages
              /\ synced_ids (calls s') = synced_ids (calls s) ++ concat pages
              /\ (forall r, o = Returned r -> synced r = Z.of_nat (length (concat pages)))).
  { intros m Hm. simplify_eq. exists []. simpl. rewrite !app_nil_r.
    do 2 (split; [reflexivity|]). intros r Hret. simplify_eq. reflexivity. }
  case_bool_decide as Hb; prog_cbn; [eapply Hnone; symmetry; exact Hr|].
  destruct ((maxCount <=? getThreadCount s) && negb shouldLoop) eqn:Ec; prog_cbn;
    [eapply Hnone; symmetry; exact Hr|].
  rewrite run_tryFinally, run_rethrow in Hr.
  match type of Hr with context [run (syncLoop _ _ _ _) ?s1] =>
    destruct (run (syncLoop bound folder 0 None) s1) as [o1 s2] eqn:El;
    apply syncLoop_pages in El; [|exact Hd]
  end.
  destruct El as (pages & Hl & Hi & Hs). simpl in Hl, Hi. exists pages.
  destruct o1 as [r|e|]; prog_cbn; simplify_eq; prog_cbn;
    rewrite ?synced_ids_app; simpl; rewrite ?app_nil_r;
    (split; [exact Hl|]); (split; [exact Hi|]); intros r' Hr'; simplify_eq.
  rewrite (Hs _ eq_refl). lia.
Qed.

(** C6.  [syncThreads] on a connected agent hands every thread of every
    page the driver delivers to [syncThread], in the order delivered and
    whatever becomes of each: a thread whose [syncThread] throws is skipped
    and the loop goes on with the rest of the page, and the count returned
    is the number of threads delivered.  Past its two guards the call
    fetches pages as its loop prescribes, so at least one when it returns.
    When it throws, the folder is no longer marked in progress and the
    error is that of the page fetch that failed, the last one made; a
    failed fetch always ends the call this way. *)
Theorem sync_failures_isolated (bound : nat) (folder : string)
    (s s' : Agent) (o : Outcome SyncThreadsResult) :
  driver s = true ->
  run (syncThreads bound folder) s = (o, s') ->
  exists pages l,
    pages_seen (world s') = pages_seen (world s) ++ pages
    /\ fetches (calls s') = fetches (calls s) ++ l
    /\ synced_ids (calls s') = synced_ids (calls s) ++ concat pages
    /\ (forall r, o = Returned r -> synced r = Z.of_nat (length (concat pages)))
    /\ (forall i rest t e,
          fst (run (syncThread i) t) = Thrown e ->
          run (syncPage (i :: rest)) t = run (syncPage rest) (snd (run (syncThread i) t)))
    /\ (foldersInSync s !! folder = None ->
        (maxCount <=? getThreadCount s) && negb shouldLoop = false ->
        loop_verdict bound o l)
    /\ (forall e, o = Thrown e ->
          foldersInSync s' !! folder = None
          /\ exists tok msg, last l = Some (tok, inl msg) /\ e = HostError msg)
    /\ (forall tok msg, (tok, inl msg) ∈ l -> o = Thrown (HostError msg)).
Proof.
  intros Hd Hr.
  destruct (syncThreads_pages bound folder s s' o Hd Hr) as (pages & Hp & Hi & Hs).
  exists pages.
  destruct (syncThreads_cases bound folder s s' _ Hd Hr)
    as [(Hb & Ho & ->) | [(Hn & Hg & Ho & ->) | (Hn & Hg & (l & Hl & Hv) & Hrel)]].
  - exists []. rewrite app_nil_r. do 4 (split; [assumption || reflexivity|]).
    split; [intros; eapply syncPage_skips; eassumption|].
    split; [intros Hn; rewrite Hn in Hb; destruct Hb; discriminate|].
    split; [intros e He; congruence|]. intros tok msg Hin. inversion Hin.
  - exists []. rewrite app_nil_r. do 4 (split; [assumption || reflexivity|]).
    split; [intros; eapply syncPage_skips; eassumption|].
    split; [intros _ Hg'; congruence|].
    split; [intros e He; congruence|]. intros tok msg Hin. inversion Hin.
  - exists l. do 4 (split; [assumption|]).
    split; [intros; eapply syncPage_skips; eassumption|].
    split; [intros _ _; exact Hv|]. split.
    + intros e ->. split; [apply Hrel; discriminate|].
      destruct Hv as (init & [tok a] & msg & -> & _ & Ha & ->).
      simpl in Ha. subst a. exists tok, msg. rewrite last_snoc. auto.
    + intros tok msg Hin. eapply failed_fetch_is_last; eassumption.
Qed.

End FolderSync.

Section FolderSyncOnSample.
#[local] Instance loggedSample : Host := logging (Sample.sampleHost true 40).
#[local] Instance loggedSampleLog : PageLog := logging_log (Sample.sampleHost true 40).

Lemma sync_failures_isolated_sample :
  exists pages l,
    pages_seen (world (snd (run (syncThreads 5 "inbox") loggedAgent)))
      = pages_seen (world loggedAgent) ++ pages
    /\ fetches (calls (snd (run (syncThreads 5 "inbox") loggedAgent)))
       = fetches (calls loggedAgent) ++ l
    /\ synced_ids (calls (snd (run (syncThreads 5 "inbox") loggedAgent)))
       = synced_ids (calls loggedAgent) ++ concat pages
    /\ (forall r, fst (run (syncThreads 5 "inbox") loggedAgent) = Returned r ->
          synced r = Z.of_nat (length (concat pages)))
    /\ loop_verdict 5 (fst (run (syncThreads 5 "inbox") loggedAgent)) l.
Proof.
  destruct (sync_failures_isolated 5 "inbox" loggedAgent
              (snd (run (syncThreads 5 "inbox") loggedAgent))
              (fst (run (syncThreads 5 "inbox") loggedAgent))
              eq_refl (surjective_pairing _))
    as (pages & l & W1 & W2 & W3 & W4 & _ & W6 & _).
  exists pages, l. do 4 (split; [assumption|]).
  apply W6; reflexivity.
Defined.

(** One page of three threads, the second of which the driver cannot
    deliver: [syncThread] is called for the three, the failed one is
    skipped, the other two are in the cache, and the count returned is
    three. *)
Example failed_thread_is_skipped :
  fst (run (syncThread "bad") loggedAgent) = Thrown (HostError "404")
  /\ fst (run (syncThreads 5 "inbox") loggedAgent) = Returned (mkSynced 3 None)
  /\ pages_seen (world (snd (run (syncThreads 5 "inbox") loggedAgent)))
     = [["t1"; "bad"; "t2"]]
  /\ synced_ids (calls (snd (run (syncThreads 5 "inbox") loggedAgent)))
     = ["t1"; "bad"; "t2"]
  /\ map row_id (table (snd (run (syncThreads 5 "inbox") loggedAgent))) = ["t1"; "t2"].
Proof. repeat apply conj; vm_compute; reflexivity. Qed.

End FolderSyncOnSample.
End FolderSyncFacts.

(** ** Chat requests *)

Module ChatFlowFacts.
Import Cache Agent ZeroAgent ProgFacts ChatFacts.
Local Open Scope list_scope.
Local Open Scope prog_scope.

Section ChatFlow.
Context `{Host}.





(** X21.  Abort signals: asking for the signal of an id twice is asking for
    it once; an id that is not a string gets no signal and no entry; an id
    without an entry gets a fresh signal, not aborted; an id whose pending
    request was cancelled gets the aborted signal again; and after a
    ChatClear message, which empties the map, clears the stored messages and
    tells the other connections, every id gets a fresh signal and cancelling
    does nothing. *)
Theorem abort_signal_reuse (connectionId : string) (k : string) (s : Agent) :
  (* asking twice is asking once *)
  getAbortSignal (IdString k) (snd (getAbortSignal (IdString k) s))
    = getAbortSignal (IdString k) s
  (* an id that is not a string gets no signal and no entry *)
  /\ getAbortSignal IdOther s = (None, s)
  (* a first request gets a signal that is not aborted *)
  /\ (chatMessageAbortControllers s !! k = None ->
      fst (getAbortSignal (IdString k) s) = Some (mkController false))
  (* after a cancel, the id of a pending request gets the aborted signal *)
  /\ (is_Some (chatMessageAbortControllers s !! k) ->
      fst (getAbortSignal (IdString k) (cancelChatRequest (IdString k) s))
        = Some (mkController true))
  (* after a clear, every id starts afresh, and cancelling does nothing *)
  /\ (forall s' o,
        run (onMessage connectionId (Text (Some InChatClear))) s = (o, s') ->
        o = Returned tt
        /\ chatMessageAbortControllers s' = ∅
        /\ outbox s' = outbox s ++ [(ChatClear, [connectionId])]
        /\ world s' = clear_messages (world s)
        /\ fst (getAbortSignal (IdString k) s') = Some (mkController false)
        /\ cancelChatRequest (IdString k) s' = s').
Proof.
  split; [|split; [|split; [|split]]].
  - simpl. destruct (chatMessageAbortControllers s !! k) as [c|] eqn:E; simpl.
    + rewrite E. simpl. rewrite E. reflexivity.
    + rewrite lookup_insert_eq. simpl. rewrite lookup_insert_eq. reflexivity.
  - reflexivity.
  - intros E. simpl. rewrite E. simpl. apply lookup_insert_eq.
  - intros [c E]. simpl. rewrite E. simpl. rewrite lookup_insert_eq. simpl.
    apply lookup_insert_eq.
  - intros s' o Hr. cbn in Hr. injection Hr as <- <-. simpl.
    rewrite !lookup_empty. simpl. rewrite lookup_insert_eq. repeat split.
Qed.

End ChatFlow.
End ChatFlowFacts.

(** ** Search *)

Module SearchFacts.
Import Cache Agent ZeroAgent ProgFacts Search.
Local Open Scope list_scope.

Lemma filterBoolean_truthy (l : list (option string)) :
  Forall (fun i => i <> "") (filterBoolean l).
Proof.
  unfold filterBoolean. induction l as [|[c|] l IH]; simpl; [constructor| |exact IH].
  destruct (String.eqb_spec c ""); simpl; [exact IH|]. constructor; assumption.
Qed.

Lemma slice0_sublist {A : Type} (n : Z) (l : list A) : slice0 n l `sublist_of` l.
Proof. unfold slice0. destruct (n <? 0); apply sublist_take. Qed.

Lemma slice0_length {A : Type} (n : Z) (l : list A) :
  0 <= n -> (length (slice0 n l) <= Z.to_nat n)%nat.
Proof.
  intros Hn. unfold slice0. destruct (n <? 0) eqn:E; [apply Z.ltb_lt in E; lia|].
  rewrite length_take. lia.
Qed.

Section SearchThreads.
Context `{SearchHost}.

Lemma rag_stage (query : string) (m : Z) (s : Agent) :
  exists w1 ragIds,
    run (tryCatch
           (rag <- inboxRag query ;; Ret (slice0 m (filterBoolean (data rag))))%prog
           (fun _ => Ret [])) s
    = (Returned ragIds, with_world w1 s)
    /\ (ragIds <> [] ->
        Js.truthy AUTORAG_ID = true
        /\ Forall (fun i => i <> "") ragIds
        /\ (0 <= m -> (length ragIds <= Z.to_nat m)%nat)).
Proof.
  assert (Hids : forall l : list (option string),
            let ids := slice0 m (filterBoolean l) in
            Forall (fun i => i <> "") ids
            /\ (0 <= m -> (length ids <= Z.to_nat m)%nat)).
  { intros l. split; [|apply slice0_length].
    apply Forall_forall. intros i Hi.
    eapply elem_of_sublist in Hi; [|apply slice0_sublist].
    pose proof (filterBoolean_truthy l) as Hf. rewrite Forall_forall in Hf. auto. }
  rewrite run_tryCatch. unfold inboxRag.
  destruct (Js.truthy AUTORAG_ID) eqn:Ea; cbn [negb].
  - unfold host. cbn [run bind gets ask settle fst snd world with_world].
    destruct (aiSearch _ _ _ (world s)) as [[e|a] w1]; cbn [run bind settle fst snd data].
    + exists w1, []. split; [reflexivity | intros Hn; contradiction].
    + eexists w1, _. split; [reflexivity|]. intros _. split; [reflexivity|].
      apply Hids.
  - cbn [run bind fst snd data]. exists (world s), (slice0 m (filterBoolean [])).
    split; [destruct s; reflexivity|]. unfold slice0, filterBoolean. simpl.
    rewrite !firstn_nil. destruct (m <? 0); intros Hn; contradiction.
Qed.

Lemma raw_stage (folder query : string) (ls : list string) (m : Z) (tok : option string)
    (s : Agent) :
  run (tryCatch (host (driver_search folder query ls m tok)) (fun _ => Ret [])) s
  = (Returned (match fst (driver_search folder query ls m tok (world s)) with
               | inl _ => []
               | inr ids => ids
               end),
     with_world (snd (driver_search folder query ls m tok (world s))) s).
Proof.
  rewrite run_tryCatch. unfold host.
  cbn [run bind ask settle fst snd world with_world].
  destruct (driver_search folder query ls m tok (world s)) as [[e|ids] w2]; reflexivity.
Qed.

(** X22.  [searchThreads] throws without a driver, before any call is made.
    With a driver it always returns, whatever the autorag and the driver
    answer, and changes nothing of the agent.  A result from the autorag is
    not empty, is only given when [AUTORAG_ID] is set, holds no empty id and
    at most [maxResults] ids (50 by default) when that bound is not
    negative; a raw result carries as [nextPageToken] the [pageToken] of the
    request. *)
Theorem search_never_fails (params : SearchRequest) (s s' : Agent)
    (o : Outcome SearchResult) :
  run (searchThreads params) s = (o, s') ->
  (driver s = false -> o = Thrown NoDriver /\ s' = s)
  /\ (driver s = true ->
      exists w, s' = with_world w s
      /\ exists res, o = Returned res
      /\ match res with
         | FromAutorag ids =>
             ids <> []
             /\ Js.truthy AUTORAG_ID = true
             /\ Forall (fun i => i <> "") ids
             /\ (0 <= default 50 (search_maxResults params) ->
                 (length ids <= Z.to_nat (default 50%Z (search_maxResults params)))%nat)
         | FromRaw ids tok => tok = search_pageToken params
         end).
Proof.
  intros Hr. unfold searchThreads in Hr. cbn [run bind gets] in Hr.
  destruct (driver s) eqn:Hd; cbn [negb] in Hr.
  2:{ cbn [run] in Hr. injection Hr as <- <-. split; [auto | discriminate]. }
  split; [discriminate|]. intros _.
  rewrite run_bind in Hr.
  destruct (rag_stage (search_query params) (default 50 (search_maxResults params)) s)
    as (w1 & ragIds & Hst & Hprop).
  rewrite Hst in Hr. cbn [fst snd] in Hr.
  rewrite run_bind, raw_stage in Hr. cbn [fst snd] in Hr.
  destruct ragIds as [|i l]; cbn [length Nat.ltb Nat.leb run] in Hr;
    injection Hr as <- <-; eexists; (split; [reflexivity|]); eexists;
    (split; [reflexivity|]); cbn iota.
  - reflexivity.
  - split; [discriminate|]. apply Hprop. discriminate.
Qed.

End SearchThreads.
End SearchFacts.

(** ** Selection hotkeys *)

Module SelectionFacts.
Import MailListHotkeys MailListSelection.
Local Open Scope list_scope.
Local Open Scope nat_scope.

(** X23.  The mark-as-read and mark-as-unread hotkeys act on the hovered
    email alone when there is one, and on the selection otherwise: with such
    a target the one mutation invoked is the handler's own, on exactly these
    ids; with none, only the 'no emails to select' toast is shown.  Each
    run shows exactly one toast, and no hotkey (the archive one included)
    invokes a mutation on an empty list of ids. *)
Theorem mark_handlers_send_hovered_or_selection (hoveredEmailId : option string)
    (bulkSelected : list string) :
  let target :=
    match hovered hoveredEmailId with
    | Some h => [h]
    | None => bulkSelected
    end in
  (target <> [] ->
     invoked (markAsRead hoveredEmailId bulkSelected) = [markAsReadAction target]
     /\ invoked (markAsUnread hoveredEmailId bulkSelected) = [markAsUnreadAction target])
  /\ (target = [] ->
     markAsRead hoveredEmailId bulkSelected = [ToastInfo "common.mail.noEmailsToSelect"]
     /\ markAsUnread hoveredEmailId bulkSelected = [ToastInfo "common.mail.noEmailsToSelect"])
  /\ length (markAsRead hoveredEmailId bulkSelected) = 1
  /\ length (markAsUnread hoveredEmailId bulkSelected) = 1
  /\ Forall (fun m => ids_of m <> [])
       (invoked (markAsRead hoveredEmailId bulkSelected)
        ++ invoked (markAsUnread hoveredEmailId bulkSelected)
        ++ invoked (archiveEmail hoveredEmailId bulkSelected)).
Proof.
  unfold markAsRead, markAsUnread, archiveEmail.
  destruct (hovered hoveredEmailId) as [h|]; cbv zeta.
  - repeat split; try discriminate. repeat constructor; discriminate.
  - destruct bulkSelected as [|x xs]; simpl.
    + repeat split; try contradiction. constructor.
    + repeat split; try discriminate. repeat constructor; discriminate.
Qed.

(** X24.  The select-all hotkey toggles: with a selection, it clears it;
    with none and a non-empty list, it selects the ids of all items, and a
    second press clears them again; with none and an empty list, it only
    shows the 'no emails to select' toast.  It never changes the other
    fields of the mail state, and leaving selection mode empties the
    selection. *)
Theorem selectAll_toggles {R : Type} (mail : Mail R) (items : list Item) :
  let after := fst (selectAll mail items) in
  rest after = rest mail
  /\ (bulkSelected mail <> [] -> bulkSelected after = [] /\ snd (selectAll mail items) = [])
  /\ (bulkSelected mail = [] -> items <> [] ->
      bulkSelected after = map item_id items
      /\ length (bulkSelected after) = length items
      /\ snd (selectAll mail items) = []
      /\ fst (selectAll after items) = mail)
  /\ (bulkSelected mail = [] -> items = [] ->
      selectAll mail items = (mail, [ToastInfo "common.mail.noEmailsToSelect"]))
  /\ bulkSelected (exitSelectionMode after) = []
  /\ fst (selectAll (exitSelectionMode mail) []) = exitSelectionMode mail.
Proof.
  destruct mail as [sel r]. unfold selectAll, exitSelectionMode. cbn [bulkSelected rest].
  destruct sel as [|x xs]; destruct items as [|i more]; simpl;
    repeat split; try reflexivity; try contradiction; try discriminate.
  all: try (intros; simpl; rewrite ?length_map; reflexivity).
Qed.

End SelectionFacts.

(** ** The statements above, on the sample inputs *)

Module ListingSamples.
Import Cache CacheFacts ListingFacts Fixtures.
Local Open Scope list_scope.

Lemma listing_is_sound_sample :
  descending [("t2", Some "2025-01-03T00:00:00.000Z");
              ("t1", Some "2025-01-01T00:00:00.000Z")].
Proof.
  refine (proj1 (listing_is_sound Sample.upper
                   (mkParams None (Some "inbox") None None None) table2 _ _)).
  vm_compute. reflexivity.
Defined.

Lemma next_page_token_sample :
  exists rows i,
    queryThreads Sample.upper firstPage table2 = Rows rows
    /\ threads firstPageList = map fst rows
    /\ last rows = Some (i, Some "2025-01-03T00:00:00.000Z")
    /\ Forall (fun row => recv_leb (Some "2025-01-03T00:00:00.000Z") (snd row) = true) rows.
Proof.
  refine (proj2 (proj2 (proj2 (next_page_token_is_last_row Sample.upper firstPage table2
                                 firstPageList _)) "2025-01-03T00:00:00.000Z" _)).
  - vm_compute. reflexivity.
  - reflexivity.
Defined.

Lemma next_page_is_older_sample :
  exists tl' rows',
    getThreadsFromDB Sample.upper
      (mkParams (labelIds firstPage) (folder firstPage) (q firstPage)
         (maxResults firstPage) (Some "2025-01-03T00:00:00.000Z")) table2 = Some tl'
    /\ queryThreads Sample.upper
         (mkParams (labelIds firstPage) (folder firstPage) (q firstPage)
            (maxResults firstPage) (Some "2025-01-03T00:00:00.000Z")) table2 = Rows rows'
    /\ threads tl' = map fst rows'
    /\ Forall (before "2025-01-03T00:00:00.000Z") rows'
    /\ (forall i, i ∈ threads firstPageList -> i ∉ threads tl').
Proof.
  refine (next_page_is_older Sample.upper firstPage table2 firstPageList
            "2025-01-03T00:00:00.000Z" _ _ _ _).
  - vm_compute. reflexivity.
  - reflexivity.
  - discriminate.
  - apply (bool_decide_unpack _). vm_compute. exact I.
Defined.

End ListingSamples.

Module FolderSamples.
Import Cache Agent ZeroAgent CacheFacts FolderFacts Fixtures.
Local Open Scope list_scope.

Section OnCache.
#[local] Instance folderSample : Host := Sample.sampleHost true 40.

Lemma folder_listing_sample :
  exists tl,
    run (listThreads (mkRequest "inbox" None None None None)) cachedAgent
      = (Returned (Some tl), cachedAgent)
    /\ (forall i, i ∈ threads tl ->
          exists row, row ∈ table cachedAgent /\ row_id row = i
            /\ has_label (toUpperCase "inbox") row = true
            /\ (Js.truthy None = true -> received_before (default "" None) row = true))
    /\ (Js.truthy None = false ->
        (default 50 None < 0
         \/ Z.of_nat (length (filter (has_label (toUpperCase "inbox")) (table cachedAgent)))
            <= default 50 None) ->
        forall row, row ∈ table cachedAgent ->
          has_label (toUpperCase "inbox") row = true ->
          row_id row ∈ threads tl).
Proof.
  refine (folder_listing (mkRequest "inbox" None None None None) cachedAgent _ _ _ _).
  - reflexivity.
  - discriminate.
  - reflexivity.
  - vm_compute. reflexivity.
Defined.

Lemma folder_with_labels_sample :
  run (listThreads (mkRequest "inbox" None None (Some ["UNREAD"]) None)) cachedAgent
  = (Returned (Some (mkThreadList [] None)), cachedAgent).
Proof.
  refine (folder_with_labels_lists_nothing
            (mkRequest "inbox" None None (Some ["UNREAD"]) None) cachedAgent _ _ _ _).
  - reflexivity.
  - discriminate.
  - discriminate.
  - reflexivity.
Defined.

(** A limit SQLite does not take: the listing throws and the agent is as
    before. *)
Example limit_out_of_range :
  run (listThreads (mkRequest "inbox" None (Some (2 ^ 63)) None None)) cachedAgent
  = (Thrown (HostError "datatype mismatch"), cachedAgent)
  /\ run (listThreads (mkRequest "inbox" None (Some (-1)) None None)) cachedAgent
     = (Returned (Some (mkThreadList ["t2"; "t1"] None)), cachedAgent).
Proof. split; vm_compute; reflexivity. Qed.

End OnCache.
End FolderSamples.

Module ThreadSyncSamples.
Import Cache Agent ZeroAgent SyncTrace ThreadSyncFacts Fixtures.
Local Open Scope list_scope.

Section OnCache.
#[local] Instance threadSample : Host := Sample.sampleHost true 40.

Lemma syncThread_writes_through_sample :
  exists l d,
    latest Sample.thread1 = Some l /\ toISOString (receivedOn l) = Some d
    /\ cached "t1" (snd (run (syncThread "t1") cachedAgent)) = Some (newRow "t1" l d).
Proof.
  refine (proj1 (proj2 (proj2
    (syncThread_writes_through "t1" cachedAgent (snd (run (syncThread "t1") cachedAgent))
       "t1" Sample.thread1 _ _ _)))).
  - reflexivity.
  - apply (bool_decide_unpack _). vm_compute. exact I.
  - vm_compute. reflexivity.
Defined.

Lemma syncThread_failure_sample :
  table (snd (run (syncThread "bad") cachedAgent)) = table cachedAgent
  /\ outbox (snd (run (syncThread "bad") cachedAgent)) = outbox cachedAgent
  /\ calls (snd (run (syncThread "bad") cachedAgent)) = calls cachedAgent ++ [CSync "bad"].
Proof.
  refine (syncThread_failure_writes_nothing "bad" cachedAgent
            (snd (run (syncThread "bad") cachedAgent))
            (fst (run (syncThread "bad") cachedAgent)) _ _ _).
  - reflexivity.
  - apply surjective_pairing.
  - intros i td. vm_compute. discriminate.
Defined.

Lemma syncThread_restores_marks_sample :
  syncThreadsInProgress (snd (run (syncThread "t1") cachedAgent))
  = syncThreadsInProgress cachedAgent.
Proof.
  refine (proj1 (proj2
    (syncThread_restores_marks "t1" cachedAgent (snd (run (syncThread "t1") cachedAgent))
       (fst (run (syncThread "t1") cachedAgent)) _ _))).
  - reflexivity.
  - apply surjective_pairing.
Defined.

Lemma resumed_sync_sample :
  syncThreadsInProgress
    (snd (run (resumption (fst (segment (syncThread "t1") cachedAgent)))
            (snd (segment (syncThread "t1") cachedAgent))))
  = delete "t1" (syncThreadsInProgress (snd (segment (syncThread "t1") cachedAgent))).
Proof.
  refine (proj1 (proj2 (proj2
    (resumed_sync_releases_mark "t1" cachedAgent
       (snd (segment (syncThread "t1") cachedAgent))
       (snd (run (resumption (fst (segment (syncThread "t1") cachedAgent)))
               (snd (segment (syncThread "t1") cachedAgent))))
       (fst (run (resumption (fst (segment (syncThread "t1") cachedAgent)))
               (snd (segment (syncThread "t1") cachedAgent)))) _ _ _)))).
  - reflexivity.
  - vm_compute. reflexivity.
  - apply surjective_pairing.
Defined.

Lemma same_turn_syncs_sample :
  length (fst (startSyncs ["t1"; "t2"; "t1"] cachedAgent)) = length ["t1"; "t2"; "t1"].
Proof.
  refine (proj1 (same_turn_syncs_once_per_thread ["t1"; "t2"; "t1"] cachedAgent _)).
  reflexivity.
Defined.

Lemma setupAuth_sample :
  world (snd (run (setupAuth "conn1") freshAgent))
    = snd (find_connection "conn1" (world freshAgent))
  /\ table (snd (run (setupAuth "conn1") freshAgent)) = table freshAgent
  /\ foldersInSync (snd (run (setupAuth "conn1") freshAgent)) = foldersInSync freshAgent
  /\ fst (run (setupAuth "conn1") freshAgent) = Returned tt
  /\ driver (snd (run (setupAuth "conn1") freshAgent)) = true
  /\ background (snd (run (setupAuth "conn1") freshAgent))
     = background freshAgent ++ ["inbox"; "sent"; "spam"; "archive"].
Proof.
  refine (proj1 (proj2
    (setupAuth_effect "conn1" freshAgent (snd (run (setupAuth "conn1") freshAgent))
       (fst (run (setupAuth "conn1") freshAgent)) _)) _ _).
  - apply surjective_pairing.
  - discriminate.
  - reflexivity.
Defined.

Lemma synced_counts_sample :
  exists ids,
    synced_ids (calls (snd (run (syncThreads 5 "inbox") onePage)))
      = synced_ids (calls onePage) ++ ids
    /\ synced (mkSynced 1 None) = Z.of_nat (length ids).
Proof.
  refine (proj1 (synced_counts_attempts 5 "inbox" onePage
                   (snd (run (syncThreads 5 "inbox") onePage)) (mkSynced 1 None) _ _)).
  - reflexivity.
  - vm_compute. reflexivity.
Defined.

Lemma pages_are_chained_sample :
  exists l,
    fetches (calls (snd (run (syncThreads 5 "inbox") onePage)))
      = fetches (calls onePage) ++ l
    /\ chained None l.
Proof.
  refine (pages_are_chained 5 "inbox" onePage
            (snd (run (syncThreads 5 "inbox") onePage))
            (fst (run (syncThreads 5 "inbox") onePage)) _ _).
  - reflexivity.
  - apply surjective_pairing.
Defined.

Lemma syncThreads_marks_sample :
  syncThreadsInProgress (snd (run (syncThreads 5 "inbox") onePage))
    = syncThreadsInProgress onePage
  /\ chatMessageAbortControllers (snd (run (syncThreads 5 "inbox") onePage))
     = chatMessageAbortControllers onePage
  /\ background (snd (run (syncThreads 5 "inbox") onePage)) = background onePage
  /\ (forall f, f <> "inbox" ->
        foldersInSync (snd (run (syncThreads 5 "inbox") onePage)) !! f
        = foldersInSync onePage !! f)
  /\ (fst (run (syncThreads 5 "inbox") onePage) <> Unfinished ->
      foldersInSync (snd (run (syncThreads 5 "inbox") onePage)) = foldersInSync onePage)
  /\ (is_Some (foldersInSync onePage !! "inbox") ->
      snd (run (syncThreads 5 "inbox") onePage) = onePage).
Proof.
  refine (proj2 (syncThreads_touches_only_its_mark 5 "inbox" onePage
                   (snd (run (syncThreads 5 "inbox") onePage))
                   (fst (run (syncThreads 5 "inbox") onePage)) _) _).
  - apply surjective_pairing.
  - reflexivity.
Defined.

Lemma get_hit_sample :
  calls (snd (run (get "t1") cachedAgent)) = calls cachedAgent ++ [CRead "t1"].
Proof.
  refine (proj1 (get_hit_reads_cache "t1" Sample.row1 cachedAgent
                   (snd (run (get "t1") cachedAgent))
                   (fst (run (get "t1") cachedAgent)) _ _ _)).
  - reflexivity.
  - vm_compute. reflexivity.
  - apply surjective_pairing.
Defined.

Lemma get_miss_sample :
  exists td l d,
    fst (driver_get "t3" (world cachedAgent)) = inr td
    /\ latest td = Some l
    /\ toISOString (receivedOn l) = Some d
    /\ cached "t3" (snd (run (get "t3") cachedAgent)) = Some (newRow "t3" l d)
    /\ labels (mkThread [] None false 0 ["INBOX"]) = tags l
    /\ hasUnread (mkThread [] None false 0 ["INBOX"])
       = existsb (String.eqb "UNREAD") (tags l)
    /\ calls (snd (run (get "t3") cachedAgent))
       = calls cachedAgent ++ [CRead "t3"; CSync "t3"; CRead "t3"].
Proof.
  refine (get_miss_returns_synced_thread "t3" cachedAgent
            (snd (run (get "t3") cachedAgent)) (mkThread [] None false 0 ["INBOX"]) _ _ _).
  - reflexivity.
  - vm_compute. reflexivity.
  - vm_compute. reflexivity.
Defined.

Lemma sync_never_shrinks_sample :
  keeps_cache cachedAgent (snd (run (syncThreads 5 "inbox") cachedAgent)).
Proof.
  refine (proj1 (proj2 (sync_never_shrinks_cache 5 "inbox" "t3" cachedAgent _ _))).
  - reflexivity.
  - apply (bool_decide_unpack _). vm_compute. exact I.
Defined.

Lemma thread_keys_sample : "t1" = "t1".
Proof.
  refine (thread_keys_do_not_collide cachedAgent "t1" "t1" _).
  reflexivity.
Defined.

End OnCache.
End ThreadSyncSamples.

Module ChatSamples.
Import Cache Agent ZeroAgent ChatFlowFacts Fixtures.
Local Open Scope list_scope.

Section OnCache.
#[local] Instance chatFlowSample : Host := Sample.sampleHost true 40.



Lemma abort_signal_reuse_sample :
  fst (getAbortSignal (IdString "r1")
         (cancelChatRequest (IdString "r1") Sample.pendingAgent))
  = Some (mkController true).
Proof.
  refine (proj1 (proj2 (proj2 (proj2
    (abort_signal_reuse "c1" "r1" Sample.pendingAgent)))) _).
  vm_compute. eexists. reflexivity.
Defined.

End OnCache.
End ChatSamples.

Module SearchSamples.
Import Cache Agent ZeroAgent Search SearchFacts Fixtures.
Local Open Scope list_scope.

Section OnCache.
#[local] Instance searchHostSample : Host := Sample.sampleHost true 40.
#[local] Instance searchSample : SearchHost := sampleSearch.

Lemma search_sample :
  exists w,
    snd (run (searchThreads (mkSearch "lunch" None None None None)) cachedAgent)
      = with_world w cachedAgent
    /\ exists res,
         fst (run (searchThreads (mkSearch "lunch" None None None None)) cachedAgent)
           = Returned res
         /\ match res with
            | FromAutorag ids =>
                ids <> []
                /\ Js.truthy AUTORAG_ID = true
                /\ Forall (fun i => i <> "") ids
                /\ (0 <= default 50 (search_maxResults (mkSearch "lunch" None None None None)) ->
                    (length ids
                     <= Z.to_nat (default 50%Z
                          (search_maxResults (mkSearch "lunch" None None None None))))%nat)
            | FromRaw ids tok =>
                tok = search_pageToken (mkSearch "lunch" None None None None)
            end.
Proof.
  refine (proj2 (search_never_fails (mkSearch "lunch" None None None None) cachedAgent
                   (snd (run (searchThreads (mkSearch "lunch" None None None None))
                           cachedAgent))
                   (fst (run (searchThreads (mkSearch "lunch" None None None None))
                           cachedAgent)) _) _).
  - apply surjective_pairing.
  - reflexivity.
Defined.

End OnCache.
End SearchSamples.

Module SelectionSamples.
Import MailListHotkeys MailListSelection SelectionFacts.
Local Open Scope list_scope.

Lemma mark_handlers_sample :
  invoked (markAsRead (Some "t9") ["t1"; "t2"]) = [markAsReadAction ["t9"]]
  /\ invoked (markAsUnread (Some "t9") ["t1"; "t2"]) = [markAsUnreadAction ["t9"]].
Proof.
  refine (proj1 (mark_handlers_send_hovered_or_selection (Some "t9") ["t1"; "t2"]) _).
  discriminate.
Defined.

Lemma selectAll_sample :
  bulkSelected (fst (selectAll (mkMail [] tt) [mkItem "t1" None; mkItem "t2" None]))
    = map item_id [mkItem "t1" None; mkItem "t2" None]
  /\ length (bulkSelected
               (fst (selectAll (mkMail [] tt) [mkItem "t1" None; mkItem "t2" None])))
     = length [mkItem "t1" None; mkItem "t2" None]
  /\ snd (selectAll (mkMail [] tt) [mkItem "t1" None; mkItem "t2" None]) = []
  /\ fst (selectAll (fst (selectAll (mkMail [] tt) [mkItem "t1" None; mkItem "t2" None]))
            [mkItem "t1" None; mkItem "t2" None])
     = mkMail [] tt.
Proof.
  refine (proj1 (proj2 (proj2
    (selectAll_toggles (mkMail [] tt) [mkItem "t1" None; mkItem "t2" None]))) _ _).
  - reflexivity.
  - discriminate.
Defined.

End SelectionSamples.
